(** * mtg-art-downloader: card classification, MTGP reference resolution,
      face selection, download sequencing, path naming and archive filter.

    Shallow embedding of [src/card.py] and [src/core.py].

    Conventions of the embedding.
    - A Python [str] is a [string]; one [ascii] stands for one character.
    - A JSON object is a record whose fields are [option]s: [None] is an
      absent key, so [c.get(k, d)] is [default d (k c)] and [c[k]] raises
      [KeyError] on [None].
    - Code that can raise returns a [result]; code that reads or writes the
      card object or the outside world runs in the state monad [M].
    - Collaborators that are not part of the two modules (page and image
      fetch, [unidecode], [sanitize_filename], [SequenceMatcher.ratio], the
      configuration module) are fields of an environment record [Env]. *)

From Stdlib Require Import Ascii String List Arith ZArith QArith Lia.
From Stdlib Require Import Decimal DecimalNat DecimalString.
From stdpp Require Import base option list sorting gmap sets strings.

Close Scope Q_scope.
Open Scope nat_scope.

(** ** Python exceptions and results *)

Inductive exn : Type :=
  | KeyError | TypeError | IndexError | AttributeError
  | ValueError | FileNotFoundError | BadZipFile | RequestException
  (** not an exception: the outcome of a loop that never ends; it
      propagates like an exception that no handler catches *)
  | Diverges.

Inductive result (A : Type) : Type :=
  | Ok (a : A)
  | Raise (e : exn).
Arguments Ok {A} a.
Arguments Raise {A} e.

Global Instance exn_eq_dec : EqDecision exn.
Proof. solve_decision. Defined.

Definition res_bind {A B} (r : result A) (k : A → result B) : result B :=
  match r with Ok a => k a | Raise e => Raise e end.

Notation "'let?' x ':=' r 'in' k" := (res_bind r (fun x => k))
  (at level 10, x name, r at level 100, k at level 200).

(** [d[k]] on a JSON object field. *)
Definition getitem {A} (field : option A) : result A :=
  match field with Some a => Ok a | None => Raise KeyError end.

(** [l[i]] on a list. *)
Definition index {A} (l : list A) (i : nat) : result A :=
  match l !! i with Some a => Ok a | None => Raise IndexError end.

(** ** The [str] and [os.path] operations the two modules use *)

Module Py.

(** [sub in s] *)
Fixpoint contains (sub s : string) : bool :=
  String.prefix sub s ||
  match s with
  | EmptyString => false
  | String _ s' => contains sub s'
  end.

(** [s.replace(old, new)] for a non-empty [old]: scan from the left, and
    after a hit skip the rest of the matched text. *)
Fixpoint replace_go (old new : string) (skip : nat) (s : string) : string :=
  match s with
  | EmptyString => EmptyString
  | String ch s' =>
      match skip with
      | S k => replace_go old new k s'
      | O =>
          if String.prefix old s
          then new +:+ replace_go old new (String.length old - 1) s'
          else String ch (replace_go old new 0 s')
      end
  end.

(** [s.replace("", new)]: [new] before every character and at the end. *)
Fixpoint replace_empty (new s : string) : string :=
  match s with
  | EmptyString => new
  | String ch s' => new +:+ String ch (replace_empty new s')
  end.

Definition replace (old new s : string) : string :=
  match old with
  | EmptyString => replace_empty new s
  | _ => replace_go old new 0 s
  end.

Definition is_lower (ch : ascii) : bool :=
  (97 <=? nat_of_ascii ch) && (nat_of_ascii ch <=? 122).
Definition is_upper (ch : ascii) : bool :=
  (65 <=? nat_of_ascii ch) && (nat_of_ascii ch <=? 90).

Definition upper_char (ch : ascii) : ascii :=
  if is_lower ch then ascii_of_nat (nat_of_ascii ch - 32) else ch.
Definition lower_char (ch : ascii) : ascii :=
  if is_upper ch then ascii_of_nat (nat_of_ascii ch + 32) else ch.

Fixpoint map_chars (f : ascii → ascii) (s : string) : string :=
  match s with
  | EmptyString => EmptyString
  | String ch s' => String (f ch) (map_chars f s')
  end.

(** [s.upper()], [s.lower()]: the letters a-z and A-Z change case, every
    other character stays. *)
Definition upper : string → string := map_chars upper_char.
Definition lower : string → string := map_chars lower_char.

(** [ch.isdigit()], for the digits 0-9 *)
Definition isdigit (ch : ascii) : bool :=
  (48 <=? nat_of_ascii ch) && (nat_of_ascii ch <=? 57).

(** [''.join(ch for ch in s if ch.isdigit())] *)
Fixpoint digits_of (s : string) : string :=
  match s with
  | EmptyString => EmptyString
  | String ch s' =>
      if isdigit ch then String ch (digits_of s') else digits_of s'
  end.

Fixpoint int_go (acc : nat) (s : string) : result nat :=
  match s with
  | EmptyString => Ok acc
  | String ch s' =>
      if isdigit ch then int_go (10 * acc + (nat_of_ascii ch - 48)) s'
      else Raise ValueError
  end.

(** [int(s)] on a string without sign or blanks. *)
Definition int (s : string) : result nat :=
  match s with
  | EmptyString => Raise ValueError
  | _ => int_go 0 s
  end.

(** [str(n)] *)
Definition str (n : nat) : string := NilEmpty.string_of_uint (Nat.to_uint n).

(** [sorted(l)] on strings *)
Definition sorted (l : list string) : list string := merge_sort String.le l.

(** [bool(s)]: a string is truthy when it is not empty. *)
Definition truthy (s : string) : bool :=
  match s with EmptyString => false | _ => true end.

(** *** [posixpath] *)

Definition slash : ascii := "/"%char.
Definition dot : ascii := "."%char.

(** [p.rfind(ch)], [None] for -1. *)
Fixpoint rfind (ch : ascii) (p : string) : option nat :=
  match p with
  | EmptyString => None
  | String a p' =>
      match rfind ch p' with
      | Some i => Some (S i)
      | None => if decide (a = ch) then Some 0 else None
      end
  end.

(** [p[:i]] and [p[i:]] *)
Fixpoint take (i : nat) (p : string) : string :=
  match i, p with
  | S k, String a p' => String a (take k p')
  | _, _ => EmptyString
  end.
Fixpoint drop (i : nat) (p : string) : string :=
  match i, p with
  | S k, String a p' => drop k p'
  | _, _ => p
  end.

(** [i = p.rfind('/') + 1] *)
Definition split_point (p : string) : nat :=
  match rfind slash p with Some i => S i | None => 0 end.

Fixpoint all_slashes (p : string) : bool :=
  match p with
  | EmptyString => true
  | String a p' => bool_decide (a = slash) && all_slashes p'
  end.

(** [p.rstrip('/')] *)
Fixpoint rstrip_slash (p : string) : string :=
  match p with
  | EmptyString => EmptyString
  | String a p' =>
      match rstrip_slash p' with
      | EmptyString => if decide (a = slash) then EmptyString else String a EmptyString
      | r => String a r
      end
  end.

(** [os.path.basename(p)] *)
Definition basename (p : string) : string := drop (split_point p) p.

(** [os.path.dirname(p)] *)
Definition dirname (p : string) : string :=
  let head := take (split_point p) p in
  if truthy head && negb (all_slashes head) then rstrip_slash head else head.

(** [os.path.join(a, b)] *)
Definition ends_with_slash (a : string) : bool :=
  match rfind slash a with
  | Some i => bool_decide (S i = String.length a)
  | None => false
  end.
Definition join (a b : string) : string :=
  if String.prefix "/" b then b
  else if negb (truthy a) || ends_with_slash a then a +:+ b
  else a +:+ "/" +:+ b.

(** The inner loop of [genericpath._splitext]: is there a character other
    than a dot in [p[from:upto]]? *)
Fixpoint has_non_dot (p : string) (from upto : nat) : bool :=
  match p with
  | EmptyString => false
  | String a p' =>
      match upto with
      | O => false
      | S u =>
          match from with
          | S f => has_non_dot p' f u
          | O => negb (bool_decide (a = dot)) || has_non_dot p' 0 u
          end
      end
  end.

(** [os.path.splitext(p)[0]] *)
Definition splitext_root (p : string) : string :=
  match rfind dot p with
  | None => p
  | Some d =>
      let name_start := split_point p in
      if (name_start <=? d) && has_non_dot p name_start d then take d p else p
  end.

End Py.

(** ** Data model: the card record (Scryfall or Moxfield JSON) *)

Record ImageUris : Type := {
  large : option string;
  art_crop : option string;
}.

Module Face.
Record t : Type := {
  name : option string;
  artist : option string;
  image_uris : option ImageUris;
}.
End Face.

Module C.
Record t : Type := {
  name : option string;
  set : option string;
  set_name : option string;
  set_type : option string;
  collector_number : option string;
  cn : option string;
  artist : option string;
  frame : option string;
  layout : option string;
  border_color : option string;
  frame_effects : option (list string);
  type_line : option string;
  keywords : option (list string);
  image_uris : option ImageUris;
  card_faces : option (list Face.t);
}.
End C.

(** The card classes of [card.py]. *)
Inductive CardClass : Type :=
  | Card | Adventure | Flip
  | MDFC | Split | Transform | Reversible
  | Land | BasicLand | Saga | Leveler | Mutate | Planeswalker
  | Class_ | Token | Planar | Meld.

Global Instance CardClass_eq_dec : EqDecision CardClass.
Proof. solve_decision. Defined.

(** ** [get_card_class] (card.py) *)

Definition class_map : gmap string CardClass :=
  list_to_map
    [ ("normal", Card); ("transform", Transform); ("modal_dfc", MDFC);
      ("adventure", Adventure); ("leveler", Leveler); ("saga", Saga);
      ("planar", Planar); ("meld", Meld); ("class", Class_);
      ("split", Split); ("flip", Flip); ("token", Token);
      ("reversible_card", Reversible) ].

(** ["card_faces" not in c] *)
Definition no_card_faces (c : C.t) : bool :=
  match C.card_faces c with None => true | Some _ => false end.

(** ["Mutate" in c.get("keywords", "")]: membership in the list of keywords,
    or a substring test on the default [""] when the key is absent. *)
Definition has_keyword (k : string) (c : C.t) : bool :=
  match C.keywords c with
  | Some l => bool_decide (k ∈ l)
  | None => Py.contains k ""
  end.

Definition type_line_has (w : string) (c : C.t) : bool :=
  Py.contains w (default "" (C.type_line c)).

Definition get_card_class (c : C.t) : CardClass :=
  if type_line_has "Planeswalker" c && no_card_faces c then Planeswalker
  else if type_line_has "Saga" c && no_card_faces c then Saga
  else if has_keyword "Mutate" c then Mutate
  else if type_line_has "Land" c && no_card_faces c then
    if type_line_has "Basic Land" c then BasicLand else Land
  else default Card (class_map !! default "normal" (C.layout c)).

(** ** [get_card_face] (core.py) *)

(** An [img] tag found on a card page; [e["src"]] raises [KeyError] when the
    tag has no such attribute. *)
Record Img : Type := { src : option string }.

(** The loop [for e in entries: arr.append(...)]. *)
Fixpoint image_codes (entries : list Img) : result (list string) :=
  match entries with
  | [] => Ok []
  | e :: es =>
      let? s := getitem (src e) in
      let? rest := image_codes es in
      Ok (Py.replace ".jpg" "" (Py.basename s) :: rest)
  end.

(** [f"{path}/{code}.jpg"] *)
Definition image_url (path code : string) : string :=
  path +:+ "/" +:+ code +:+ ".jpg".

(** The second half of [get_card_face], "strategy based on number of
    entries", on the folder [path] and the codes [arr]. *)
Definition choose_face (path : string) (arr : list string) (back : bool)
  : result (option string) :=
  if decide (length arr = 1) then
    if back then Ok None
    else let? a := index arr 0 in Ok (Some (image_url path a))
  else if decide (length arr = 2) then
    if back then let? a := index (Py.sorted arr) 1 in Ok (Some (image_url path a))
    else let? a := index (Py.sorted arr) 0 in Ok (Some (image_url path a))
  else if decide (2 < length arr) then
    let arr := Py.sorted arr in
    let img_i := filter (λ i, String.length i = 3) arr in
    let img_s := filter (λ i, 3 < String.length i) arr in
    if decide (1 < length img_i) then
      if back then let? a := index img_i 1 in Ok (Some (image_url path a))
      else let? a := index img_i 0 in Ok (Some (image_url path a))
    else if decide (1 < length img_s) then
      if back then let? a := index img_s 1 in Ok (Some (image_url path a))
      else let? a := index img_s 0 in Ok (Some (image_url path a))
    else
      if back then let? a := index img_i 0 in Ok (Some (image_url path a))
      else let? a := index img_s 0 in Ok (Some (image_url path a))
  else Ok None.

Definition get_card_face (entries : list Img) (back : bool)
  : result (option string) :=
  match entries with
  | [] => Ok None
  | e0 :: _ =>
      let? src0 := getitem (src e0) in
      let path := Py.replace "art_th" "art" ("https://mtgpics.com/" +:+ Py.dirname src0) in
      let? arr := image_codes entries in
      choose_face path arr back
  end.

(** ** Collaborators and configuration *)

(** What the two modules read off a parsed page ([BeautifulSoup]). *)
Record Anchor : Type := { href : option string }.

(** A [td] cell: its [.text] and its first [a] descendant, [.find("a")]. *)
Record Td : Type := { text : string; find_a : option Anchor }.

(** A listing row, a [div]; [find_all_td] is [row.find_all("td")]. *)
Record Row : Type := { find_all_td : list Td }.

Record Soup : Type := {
  (** [soup.find("td", {"width": "170", "align": "center"})] *)
  find_td_170 : option Td;
  (** [soup.find_all("div", {"style": "display:block;margin:0px 2px ..."})] *)
  find_all_rows : list Row;
  (** [soup.find_all("img", {"style": "display:block;border:4px black ..."})] *)
  find_all_img : list Img;
}.

(** [src/settings.py] is not part of the two modules: the values they read. *)
Module Cfg.
Record t : Type := {
  mtgp : string;
  scry : string;
  naming : string;
  replace_sets : gmap string string;
  overwrite : bool;
  only_scryfall : bool;
  download_scryfall : bool;
  download_scryfall_full : bool;
}.
End Cfg.

Record Env : Type := {
  cfg : Cfg.t;
  (** [con.promo_sets] of [src/constants.py] *)
  promo_sets : list string;
  (** [src/fetch.py]: the page text as the parser sees it, [None] on failure *)
  get_mtgp_page : string → option Soup;
  (** [requests.get(url)] followed by parsing [r.content]; raises on a
      network failure *)
  requests_get : string → result Soup;
  (** [get_mtgp_image(url, path)], [get_scryfall_image(url, path)] *)
  get_mtgp_image : string → string → bool;
  get_scryfall_image : string → string → bool;
  unidecode : string → string;
  sanitize_filename : string → string;
  (** [SequenceMatcher(a=a, b=b).ratio()] *)
  ratio : string → string → Q;
  (** the order in which [iter] yields the elements of a Python [set] *)
  set_iter : gset string → list string;
  (** the archive at a path: [None] when nothing exists there, otherwise
      what opening it gives, its [namelist()] or an error *)
  zip_archive : string → option (result (list string));
}.

(** A faithful [set_iter] yields every element once. *)
Definition set_iter_ok (E : Env) : Prop :=
  ∀ s : gset string, set_iter E s ≡ₚ elements s.

(** ** Mutable state: the card object and the outside world *)

(** A line printed on the console. *)
Inductive ConsoleLine : Type :=
  | MtgpDone (label : string)
  | Scryfall (label : string)
  | Failed (action label : string).

Record World : Type := {
  (** paths at which [os.path.isfile] holds *)
  files : gset string;
  (** the lines of [logs/failed.txt] *)
  failed_log : list string;
  console : list ConsoleLine;
}.

(** The attributes of a card object that change after [__init__]: the
    promo flag and the slots of the [cached_property] values. *)
Record Obj : Type := {
  _promo : bool;
  mtgp_set_slot : option string;
  mtgp_code_slot : option string;
  mtgp_url_slot : option (option string);
  mtgp_path_slot : option string;
  scry_path_slot : option string;
  mtgp_urls_slot : option (list (option string));
  mtgp_paths_slot : option (list string);
  scry_paths_slot : option (list string);
  labels_slot : option (list string);
}.

Record St : Type := { obj : Obj; world : World }.

Definition M (A : Type) : Type := St → result A * St.

Definition ret {A} (a : A) : M A := λ st, (Ok a, st).
Definition raise {A} (e : exn) : M A := λ st, (Raise e, st).
Definition bind {A B} (m : M A) (k : A → M B) : M B :=
  λ st, match m st with
        | (Ok a, st') => k a st'
        | (Raise e, st') => (Raise e, st')
        end.
Definition lift {A} (r : result A) : M A := λ st, (r, st).
Definition get_obj : M Obj := λ st, (Ok (obj st), st).
Definition get_world : M World := λ st, (Ok (world st), st).
Definition modify_obj (f : Obj → Obj) : M unit :=
  λ st, (Ok tt, {| obj := f (obj st); world := world st |}).
Definition modify_world (f : World → World) : M unit :=
  λ st, (Ok tt, {| obj := obj st; world := f (world st) |}).

Notation "'let*' x ':=' m 'in' k" := (bind m (fun x => k))
  (at level 10, x name, m at level 100, k at level 200).
Notation "m ;; k" := (bind m (fun _ => k))
  (at level 100, k at level 200, right associativity).

(** [@cached_property]: the first read computes and stores, later reads
    return the stored value; nothing is stored when the computation raises. *)
Definition cached {A} (slot : Obj → option A) (store : A → Obj → Obj)
    (compute : M A) : M A :=
  let* o := get_obj in
  match slot o with
  | Some v => ret v
  | None => let* v := compute in modify_obj (store v) ;; ret v
  end.

Definition set_promo (b : bool) (o : Obj) : Obj :=
  {| _promo := b; mtgp_set_slot := mtgp_set_slot o;
     mtgp_code_slot := mtgp_code_slot o; mtgp_url_slot := mtgp_url_slot o;
     mtgp_path_slot := mtgp_path_slot o; scry_path_slot := scry_path_slot o;
     mtgp_urls_slot := mtgp_urls_slot o; mtgp_paths_slot := mtgp_paths_slot o;
     scry_paths_slot := scry_paths_slot o; labels_slot := labels_slot o |}.
Definition store_mtgp_set (v : string) (o : Obj) : Obj :=
  {| _promo := _promo o; mtgp_set_slot := Some v;
     mtgp_code_slot := mtgp_code_slot o; mtgp_url_slot := mtgp_url_slot o;
     mtgp_path_slot := mtgp_path_slot o; scry_path_slot := scry_path_slot o;
     mtgp_urls_slot := mtgp_urls_slot o; mtgp_paths_slot := mtgp_paths_slot o;
     scry_paths_slot := scry_paths_slot o; labels_slot := labels_slot o |}.
Definition store_mtgp_code (v : string) (o : Obj) : Obj :=
  {| _promo := _promo o; mtgp_set_slot := mtgp_set_slot o;
     mtgp_code_slot := Some v; mtgp_url_slot := mtgp_url_slot o;
     mtgp_path_slot := mtgp_path_slot o; scry_path_slot := scry_path_slot o;
     mtgp_urls_slot := mtgp_urls_slot o; mtgp_paths_slot := mtgp_paths_slot o;
     scry_paths_slot := scry_paths_slot o; labels_slot := labels_slot o |}.
Definition store_mtgp_url (v : option string) (o : Obj) : Obj :=
  {| _promo := _promo o; mtgp_set_slot := mtgp_set_slot o;
     mtgp_code_slot := mtgp_code_slot o; mtgp_url_slot := Some v;
     mtgp_path_slot := mtgp_path_slot o; scry_path_slot := scry_path_slot o;
     mtgp_urls_slot := mtgp_urls_slot o; mtgp_paths_slot := mtgp_paths_slot o;
     scry_paths_slot := scry_paths_slot o; labels_slot := labels_slot o |}.
Definition store_mtgp_path (v : string) (o : Obj) : Obj :=
  {| _promo := _promo o; mtgp_set_slot := mtgp_set_slot o;
     mtgp_code_slot := mtgp_code_slot o; mtgp_url_slot := mtgp_url_slot o;
     mtgp_path_slot := Some v; scry_path_slot := scry_path_slot o;
     mtgp_urls_slot := mtgp_urls_slot o; mtgp_paths_slot := mtgp_paths_slot o;
     scry_paths_slot := scry_paths_slot o; labels_slot := labels_slot o |}.
Definition store_scry_path (v : string) (o : Obj) : Obj :=
  {| _promo := _promo o; mtgp_set_slot := mtgp_set_slot o;
     mtgp_code_slot := mtgp_code_slot o; mtgp_url_slot := mtgp_url_slot o;
     mtgp_path_slot := mtgp_path_slot o; scry_path_slot := Some v;
     mtgp_urls_slot := mtgp_urls_slot o; mtgp_paths_slot := mtgp_paths_slot o;
     scry_paths_slot := scry_paths_slot o; labels_slot := labels_slot o |}.
Definition store_mtgp_urls (v : list (option string)) (o : Obj) : Obj :=
  {| _promo := _promo o; mtgp_set_slot := mtgp_set_slot o;
     mtgp_code_slot := mtgp_code_slot o; mtgp_url_slot := mtgp_url_slot o;
     mtgp_path_slot := mtgp_path_slot o; scry_path_slot := scry_path_slot o;
     mtgp_urls_slot := Some v; mtgp_paths_slot := mtgp_paths_slot o;
     scry_paths_slot := scry_paths_slot o; labels_slot := labels_slot o |}.
Definition store_mtgp_paths (v : list string) (o : Obj) : Obj :=
  {| _promo := _promo o; mtgp_set_slot := mtgp_set_slot o;
     mtgp_code_slot := mtgp_code_slot o; mtgp_url_slot := mtgp_url_slot o;
     mtgp_path_slot := mtgp_path_slot o; scry_path_slot := scry_path_slot o;
     mtgp_urls_slot := mtgp_urls_slot o; mtgp_paths_slot := Some v;
     scry_paths_slot := scry_paths_slot o; labels_slot := labels_slot o |}.
Definition store_scry_paths (v : list string) (o : Obj) : Obj :=
  {| _promo := _promo o; mtgp_set_slot := mtgp_set_slot o;
     mtgp_code_slot := mtgp_code_slot o; mtgp_url_slot := mtgp_url_slot o;
     mtgp_path_slot := mtgp_path_slot o; scry_path_slot := scry_path_slot o;
     mtgp_urls_slot := mtgp_urls_slot o; mtgp_paths_slot := mtgp_paths_slot o;
     scry_paths_slot := Some v; labels_slot := labels_slot o |}.
Definition store_labels (v : list string) (o : Obj) : Obj :=
  {| _promo := _promo o; mtgp_set_slot := mtgp_set_slot o;
     mtgp_code_slot := mtgp_code_slot o; mtgp_url_slot := mtgp_url_slot o;
     mtgp_path_slot := mtgp_path_slot o; scry_path_slot := scry_path_slot o;
     mtgp_urls_slot := mtgp_urls_slot o; mtgp_paths_slot := mtgp_paths_slot o;
     scry_paths_slot := scry_paths_slot o; labels_slot := Some v |}.

(** The object as [__init__] leaves it. *)
Definition fresh_obj : Obj :=
  {| _promo := false; mtgp_set_slot := None; mtgp_code_slot := None;
     mtgp_url_slot := None; mtgp_path_slot := None; scry_path_slot := None;
     mtgp_urls_slot := None; mtgp_paths_slot := None;
     scry_paths_slot := None; labels_slot := None |}.

(** ** [Card.get_template], [Card.find_first_match] and [__init__] *)

Definition template_effects : list string :=
  ["enchantment"; "miracle"; "colorshifted"; "extendedart"; "etched"; "snow"].

(** [matches = set(array1) & set(array2); next(iter(matches), None)] *)
Definition find_first_match (E : Env) (array1 array2 : list string)
  : option string :=
  let matches : gset string := list_to_set array1 ∩ list_to_set array2 in
  head (set_iter E matches).

Definition get_template (E : Env) (c : C.t) : string :=
  if decide (default "" (C.layout c) = "token") then "token"
  else if decide (default "" (C.border_color c) = "borderless") then "borderless"
  else if bool_decide (default "" (C.frame c) ∈ ["1993"; "1995"]) then "classic"
  else
    match find_first_match E (default [] (C.frame_effects c)) template_effects with
    | Some result => if Py.truthy result then result else "normal"
    | None => "normal"
    end.

(** The attributes of a card object fixed by [__init__]: its class, the
    record and the two folders, both set to the template. *)
Record Self : Type := {
  cls : CardClass;
  c : C.t;
  path : string;
  path_back : string;
}.

(** [card_class(c)] *)
Definition new (E : Env) (k : CardClass) (rec : C.t) : Self :=
  let template := get_template E rec in
  {| cls := k; c := rec; path := template; path_back := template |}.

(** ** The scraping functions of core.py *)

(** [BeautifulSoup(r, "html.parser")]: [TypeError] on [None]. *)
Definition BeautifulSoup (r : option Soup) : result Soup :=
  match r with Some s => Ok s | None => Raise TypeError end.

(** A method call [x.m(...)] on a value that may be [None]. *)
Definition method_of {A} (x : option A) : result A :=
  match x with Some a => Ok a | None => Raise AttributeError end.

(** A subscript [x[k]] on, or an iteration over, a value that may be
    [None]. *)
Definition subscript_of {A} (x : option A) : result A :=
  match x with Some a => Ok a | None => Raise TypeError end.

(** [except (KeyError, TypeError, IndexError, AttributeError): pass] followed
    by [return None]. *)
Definition caught (e : exn) : bool :=
  match e with
  | KeyError | TypeError | IndexError | AttributeError => true
  | _ => false
  end.

Definition try_except {A} (body : result (option A)) : result (option A) :=
  match body with
  | Ok v => Ok v
  | Raise e => if caught e then Ok None else Raise e
  end.

(** [cols[2].find("a")["href"].replace("card?ref=", "")] *)
Definition link_code (cell : Td) : result string :=
  let? a := subscript_of (find_a cell) in
  let? h := getitem (href a) in
  Ok (Py.replace "card?ref=" "" h).

(** First loop of [get_mtgp_code]: collector number and name. *)
Fixpoint scan_number_and_name (num name : string) (rows : list Row)
  : result (option string) :=
  match rows with
  | [] => Ok None
  | row :: rest =>
      let cols := find_all_td row in
      let? c0 := index cols 0 in
      if bool_decide (text c0 = num) then
        let? c2 := index cols 2 in
        if Py.contains name (text c2) then
          let? code := link_code c2 in Ok (Some code)
        else scan_number_and_name num name rest
      else scan_number_and_name num name rest
  end.

(** Second loop of [get_mtgp_code]: the name alone. *)
Fixpoint scan_name (name : string) (rows : list Row) : result (option string) :=
  match rows with
  | [] => Ok None
  | row :: rest =>
      let cols := find_all_td row in
      let? c2 := index cols 2 in
      if Py.contains name (text c2) then
        let? code := link_code c2 in Ok (Some code)
      else scan_name name rest
  end.

Definition card_page (ref : string) : string :=
  "https://www.mtgpics.com/card?ref=" +:+ ref.

Definition get_mtgp_code (E : Env) (set_code num name : string)
  : result (option string) :=
  try_except
    (let? soup := BeautifulSoup (get_mtgp_page E (card_page (set_code +:+ "001"))) in
     let? soup_td := method_of (find_td_170 soup) in
     let? a := method_of (find_a soup_td) in
     let replaced := Py.replace "set?" "set_checklist?" (default "" (href a)) in
     let mtgp_link := "https://mtgpics.com/" +:+ replaced in
     let? soup := BeautifulSoup (get_mtgp_page E mtgp_link) in
     let rows := find_all_rows soup in
     let? hit := scan_number_and_name num name rows in
     match hit with
     | Some code => Ok (Some code)
     | None => scan_name name rows
     end).

(** An entry of [matches] in [get_mtgp_code_pmo]. *)
Record Match : Type := { code : string; score : Q }.

(** The loop of [get_mtgp_code_pmo]. *)
Fixpoint collect_matches (E : Env) (name artist set_name : string)
    (rows : list Row) : result (list Match) :=
  match rows with
  | [] => Ok []
  | row :: rest =>
      let cols := find_all_td row in
      let? c6 := index cols 6 in
      if Py.contains artist (unidecode E (text c6)) then
        let? c2 := index cols 2 in
        if Py.contains (Py.lower name) (Py.lower (text c2)) then
          let? a := method_of (find_a c2) in
          let m := {| code := Py.replace "card?ref=" "" (default "" (href a));
                      score := ratio E (Py.replace name "" (text c2)) set_name |} in
          let? ms := collect_matches E name artist set_name rest in
          Ok (m :: ms)
        else collect_matches E name artist set_name rest
      else collect_matches E name artist set_name rest
  end.

(** [sorted(matches, key=lambda i: i["match"], reverse=True)]: a stable sort
    by descending score (entries of equal score keep their order). *)
Fixpoint insert_desc (m : Match) (l : list Match) : list Match :=
  match l with
  | [] => [m]
  | x :: l' =>
      if Qle_bool (score x) (score m) then m :: l else x :: insert_desc m l'
  end.

Definition sorted_by_score_desc (l : list Match) : list Match :=
  foldr insert_desc [] l.

Definition promo_listing (promo : string) : string :=
  if decide (promo = "dci") then "https://mtgpics.com/set_checklist?set=18"
  else if decide (promo = "a22") then "https://mtgpics.com/set_checklist?set=375"
  else if decide (promo = "uni") then "https://mtgpics.com/set_checklist?set=201"
  else "https://mtgpics.com/set_checklist?set=72".

Definition get_mtgp_code_pmo (E : Env) (name artist set_name promo : string)
  : result (option string) :=
  try_except
    (let url := promo_listing promo in
     let? soup := BeautifulSoup (get_mtgp_page E url) in
     let rows := find_all_rows soup in
     let? matches := collect_matches E name artist set_name rows in
     let? best := index (sorted_by_score_desc matches) 0 in
     Ok (Some (code best))).

(** ** Properties of the card classes (card.py) *)

(** The classes that inherit from [MDFC]. *)
Definition is_mdfc (k : CardClass) : bool :=
  match k with MDFC | Split | Transform | Reversible => true | _ => false end.

(** [self.c["card_faces"][i]] *)
Definition face (rec : C.t) (i : nat) : result Face.t :=
  let? faces := getitem (C.card_faces rec) in index faces i.

(** [self.c["card_faces"][i]["name"]], [...["artist"]] *)
Definition face_name (rec : C.t) (i : nat) : result string :=
  let? f := face rec i in getitem (Face.name f).
Definition face_artist (rec : C.t) (i : nat) : result string :=
  let? f := face rec i in getitem (Face.artist f).

(** [.get("image_uris", {}).get("large" if cfg.download_scryfall_full else
    "art_crop", "")] *)
Definition pick_image (E : Env) (uris : option ImageUris) : string :=
  match uris with
  | None => ""
  | Some u => default "" (if Cfg.download_scryfall_full (cfg E) then large u else art_crop u)
  end.

Section Methods.
Context (E : Env) (self : Self).

Definition set_ : string := default "" (C.set (c self)).
Definition number : string := default "" (C.collector_number (c self)).
Definition set_name : string := default "" (C.set_name (c self)).
Definition set_type : string := default "" (C.set_type (c self)).

Definition name : result string :=
  if is_mdfc (cls self) then face_name (c self) 0
  else Ok (default "" (C.name (c self))).

Definition name_back : result string := face_name (c self) 1.

Definition artist : result string :=
  if is_mdfc (cls self) then face_artist (c self) 0
  else Ok (unidecode E (default "" (C.artist (c self)))).

Definition artist_back : result string := face_artist (c self) 1.

(** [name_saved] of [Adventure] and [Flip] *)
Definition name_saved : result string := face_name (c self) 0.

(** [f"{name} ({self.set.upper()}) {self.number}"] *)
Definition label_of (nm : string) : string :=
  nm +:+ " (" +:+ Py.upper set_ +:+ ") " +:+ number.

Definition label : result string :=
  let? nm := name in Ok (label_of nm).

Definition mtgp_name : result string :=
  let? nm := name in
  match cls self with
  | Adventure | Flip | Split => Ok (Py.replace "//" "/" nm)
  | _ => Ok nm
  end.

(** The [promo] property and its setter. *)
Definition promo : M bool := let* o := get_obj in ret (_promo o).
Definition promo_set (value : bool) : M unit := modify_obj (set_promo value).

Definition mtgp_set : M string :=
  cached mtgp_set_slot store_mtgp_set
    (let mtgp_set :=
       match Cfg.replace_sets (cfg E) !! set_ with
       | Some v => v
       | None => set_
       end in
     if bool_decide (mtgp_set ∈ promo_sets E) then
       promo_set true ;; ret mtgp_set
     else if Py.contains "Alchemy" set_name then
       promo_set true ;; ret "a22"
     else if Py.contains "Judge Gift" set_name || bool_decide (mtgp_set = "dci") then
       promo_set true ;; ret "dci"
     else if bool_decide (set_name ∈ ["Legacy Championship"; "Vintage Championship"]) then
       promo_set true ;; ret "uni"
     else if bool_decide (set_type ∈ ["funny"; "promo"]) then
       match get_mtgp_page E (card_page (mtgp_set +:+ "001")) with
       | Some _ => ret mtgp_set
       | None => promo_set true ;; ret "pmo"
       end
     else ret mtgp_set).

(** [if code := f(...)]: the code when it is neither [None] nor empty. *)
Definition nonempty (r : option string) : option string :=
  match r with
  | Some s => if Py.truthy s then Some s else None
  | None => None
  end.

Definition mtgp_code : M string :=
  cached mtgp_code_slot store_mtgp_code
    (let* ms := mtgp_set in
     let* is_promo := if Py.truthy ms then promo else ret false in
     let* by_promo :=
       if is_promo then
         let* nm := lift mtgp_name in
         let* ar := lift artist in
         let* ms := mtgp_set in
         let* r := lift (get_mtgp_code_pmo E nm ar set_name ms) in
         ret (nonempty r)
       else ret None in
     match by_promo with
     | Some code => ret code
     | None =>
         let* ms := mtgp_set in
         let* nm := lift mtgp_name in
         let* r := lift (get_mtgp_code E ms number nm) in
         match nonempty r with
         | Some code => ret code
         | None => ret (set_ +:+ number)
         end
     end).

(** [Card.mtgp_url] *)
Definition mtgp_url : M (option string) :=
  cached mtgp_url_slot store_mtgp_url
    (let* ref := mtgp_code in
     match get_mtgp_page E (card_page ref) with
     | None => ret None
     | Some soup => lift (get_card_face (find_all_img soup) false)
     end).

(** [MDFC.mtgp_urls] *)
Definition mtgp_urls : M (list (option string)) :=
  cached mtgp_urls_slot store_mtgp_urls
    (let* ref := mtgp_code in
     let* soup := lift (requests_get E (card_page ref)) in
     let soup_img := find_all_img soup in
     let* front := lift (get_card_face soup_img false) in
     let* back := lift (get_card_face soup_img true) in
     ret [front; back]).

Definition scry_url : string := pick_image E (C.image_uris (c self)).

(** [MDFC.scry_urls], and its override in [Split] *)
Definition scry_urls : list string :=
  match cls self with
  | Split => [scry_url; scry_url]
  | _ => map (λ n, pick_image E (Face.image_uris n)) (default [] (C.card_faces (c self)))
  end.

(** *** Path naming *)

Definition naming_convention (card_name card_artist card_set card_number : string)
  : string :=
  sanitize_filename E
    (Py.replace "NUMBER" card_number
       (Py.replace "SET" card_set
          (Py.replace "ARTIST" card_artist
             (Py.replace "NAME" card_name (Cfg.naming (cfg E)))))).

(** [path.replace(".jpg", f" ({str(i)}).jpg")] *)
Definition numbered (path : string) (i : nat) : string :=
  Py.replace ".jpg" (" (" +:+ Py.str i +:+ ").jpg") path.

(** The loop of [check_path], at most [fuel] tests of [os.path.isfile];
    [None] when they all find a file. *)
Fixpoint check_path_loop (fuel : nat) (fs : gset string) (path : string)
    (i : nat) (current_path : string) : option string :=
  match fuel with
  | O => None
  | S n =>
      if bool_decide (current_path ∈ fs)
      then check_path_loop n fs path (S i) (numbered path (S i))
      else Some current_path
  end.

(** [check_path]: one more test than there are files is enough whenever the
    numbered names are distinct; otherwise the loop does not end. *)
Definition check_path (path : string) : M string :=
  let* w := get_world in
  match check_path_loop (S (size (files w))) (files w) path 0 path with
  | Some p => ret p
  | None => raise Diverges
  end.

Definition generate_path (path name artist : string) : M string :=
  let filename := naming_convention name artist (Py.upper set_) number in
  let path := Py.join path (filename +:+ ".jpg") in
  if Cfg.overwrite (cfg E) then ret path else check_path path.

(** [os.path.join(root, self.path) if self.path else root] *)
Definition folder (root : string) : string :=
  if Py.truthy (path self) then Py.join root (path self) else root.

Definition has_name_saved : bool :=
  match cls self with Adventure | Flip => true | _ => false end.

(** [mtgp_path] and [scry_path] of [Card], and of [Adventure] and [Flip] *)
Definition single_path (root : string) : M string :=
  if has_name_saved then
    let* nm := lift name_saved in
    let* ar := lift artist in
    generate_path (Py.join root (path self)) nm ar
  else
    let* nm := lift name in
    let* ar := lift artist in
    generate_path (folder root) nm ar.

Definition mtgp_path : M string :=
  cached mtgp_path_slot store_mtgp_path (single_path (Cfg.mtgp (cfg E))).
Definition scry_path : M string :=
  cached scry_path_slot store_scry_path (single_path (Cfg.scry (cfg E))).

(** [mtgp_paths] and [scry_paths] of [MDFC] *)
Definition double_paths (root : string) : M (list string) :=
  let* nm := lift name in
  let* ar := lift artist in
  let* p0 := generate_path (Py.join root (path self)) nm ar in
  let* nb := lift name_back in
  let* ab := lift artist_back in
  let* p1 := generate_path (Py.join root (path_back self)) nb ab in
  ret [p0; p1].

Definition mtgp_paths : M (list string) :=
  cached mtgp_paths_slot store_mtgp_paths (double_paths (Cfg.mtgp (cfg E))).
Definition scry_paths : M (list string) :=
  cached scry_paths_slot store_scry_paths (double_paths (Cfg.scry (cfg E))).

Definition labels : M (list string) :=
  cached labels_slot store_labels
    (let* nm := lift name in
     let* nb := lift name_back in
     ret [label_of nm; label_of nb]).

(** *** Logging (core.py) *)

Definition print (line : ConsoleLine) (w : World) : World :=
  {| files := files w; failed_log := failed_log w;
     console := console w ++ [line] |}.
Definition write_failed (label : string) (w : World) : World :=
  {| files := files w; failed_log := failed_log w ++ [label];
     console := console w |}.
Definition save_file (path : string) (w : World) : World :=
  {| files := {[path]} ∪ files w; failed_log := failed_log w;
     console := console w |}.

Definition log_mtgp (label : string) : M unit := modify_world (print (MtgpDone label)).
Definition log_scryfall (label : string) : M unit := modify_world (print (Scryfall label)).

Definition log_failed (label : string) (print_out write_log : bool)
    (action : string) : M unit :=
  (if write_log then modify_world (write_failed label) else ret tt) ;;
  (if print_out then modify_world (print (Failed action label)) else ret tt).

(** *** Downloads *)

(** [if url and path] *)
Definition usable (url : option string) (path : string) : bool :=
  match url with
  | Some u => Py.truthy u && Py.truthy path
  | None => false
  end.

Definition download_mtgp (url : option string) (path label : string) : M bool :=
  match url with
  | Some u =>
      if usable url path then
        if get_mtgp_image E u path
        then modify_world (save_file path) ;; log_mtgp label ;; ret true
        else ret false
      else ret false
  | None => ret false
  end.

Definition download_scryfall (url : option string) (path label : string) : M bool :=
  match url with
  | Some u =>
      if usable url path then
        if get_scryfall_image E u path
        then modify_world (save_file path) ;; log_scryfall label ;; ret true
        else ret false
      else ret false
  | None => ret false
  end.

(** A [DownloadResult]: success, label, path. *)
Definition DownloadResult : Type := bool * string * string.

(** [Card.download] *)
Definition Card_download (logging : bool) : M (list DownloadResult) :=
  if Cfg.only_scryfall (cfg E) then
    let* p := scry_path in
    let* l := lift label in
    let* ok := download_scryfall (Some scry_url) p l in
    if ok then
      let* l := lift label in
      let* p := scry_path in
      ret [(true, l, p)]
    else
      let* l := lift label in
      log_failed l true true "SCRY" ;;
      let* l := lift label in
      let* p := scry_path in
      ret [(false, l, p)]
  else
    let* u := mtgp_url in
    let* p := mtgp_path in
    let* l := lift label in
    let* ok := download_mtgp u p l in
    if negb ok then
      let* fallback :=
        if Cfg.download_scryfall (cfg E) then
          let* p := scry_path in
          let* l := lift label in
          download_scryfall (Some scry_url) p l
        else ret false in
      (if fallback && logging then
         let* l := lift label in log_failed l false true "MTGP"
       else if logging then
         let* l := lift label in log_failed l true true "MTGP"
       else ret tt) ;;
      let* l := lift label in
      let* p := scry_path in
      ret [(false, l, p)]
    else
      let* l := lift label in
      let* p := mtgp_path in
      ret [(true, l, p)].

(** One turn of the first loop of [MDFC.download] (Scryfall only). *)
Definition MDFC_step_scryfall (logging : bool) (i : nat) (scry_url : string)
  : M DownloadResult :=
  let* ps := scry_paths in
  let* p := lift (index ps i) in
  let* ls := labels in
  let* l := lift (index ls i) in
  let* result := download_scryfall (Some scry_url) p l in
  let* ls := labels in
  let* l := lift (index ls i) in
  let* ps := scry_paths in
  let* p := lift (index ps i) in
  (if negb result && logging then
     let* ls := labels in
     let* l := lift (index ls i) in
     log_failed l true true "SCRY"
   else ret tt) ;;
  ret (result, l, p).

(** One turn of the second loop of [MDFC.download]. *)
Definition MDFC_step (logging : bool) (i : nat) (scry_url : string)
  : M DownloadResult :=
  let* us := mtgp_urls in
  let* u := lift (index us i) in
  let* ps := mtgp_paths in
  let* p := lift (index ps i) in
  let* ls := labels in
  let* l := lift (index ls i) in
  let* result := download_mtgp u p l in
  (if negb result then
     let* fallback :=
       if Cfg.download_scryfall (cfg E) then
         let* ps := scry_paths in
         let* p := lift (index ps i) in
         let* ls := labels in
         let* l := lift (index ls i) in
         download_scryfall (Some scry_url) p l
       else ret false in
     if fallback then
       let* ls := labels in
       let* l := lift (index ls i) in
       log_failed l false true "MTGP"
     else if logging then
       let* ls := labels in
       let* l := lift (index ls i) in
       log_failed l true true "MTGP"
     else ret tt
   else ret tt) ;;
  let* ls := labels in
  let* l := lift (index ls i) in
  let* ps := mtgp_paths in
  let* p := lift (index ps i) in
  ret (result, l, p).

(** [for i, scry_url in enumerate(urls): ...; results.append(...)] *)
Fixpoint MDFC_loop (step : nat → string → M DownloadResult) (i : nat)
    (urls : list string) (results : list DownloadResult)
  : M (list DownloadResult) :=
  match urls with
  | [] => ret results
  | scry_url :: rest =>
      let* r := step i scry_url in
      MDFC_loop step (S i) rest (results ++ [r])
  end.

(** [MDFC.download] *)
Definition MDFC_download (logging : bool) : M (list DownloadResult) :=
  if Cfg.only_scryfall (cfg E)
  then MDFC_loop (MDFC_step_scryfall logging) 0 scry_urls []
  else MDFC_loop (MDFC_step logging) 0 scry_urls [].

(** [self.download(logging)], by the class of [self]. *)
Definition download (logging : bool) : M (list DownloadResult) :=
  if is_mdfc (cls self) then MDFC_download logging else Card_download logging.

End Methods.

(** ** The archive filter (core.py) *)

(** [card.get('cn') or card.get('collector_number')] *)
Definition card_number (card : C.t) : option string :=
  match C.cn card with
  | Some s => if Py.truthy s then Some s else C.collector_number card
  | None => C.collector_number card
  end.

(** [f"{render} [{card['set'].upper()}] {{{int(card_number_digits)}}}"] *)
Definition constructed_name (render set_code : string) (n : nat) : string :=
  render +:+ " [" +:+ Py.upper set_code +:+ "] {" +:+ Py.str n +:+ "}".

Definition is_render_in_zip (render : string) (card : C.t)
    (zip_file_basenames : gset string) : result bool :=
  let? number := subscript_of (card_number card) in
  let card_number_digits := Py.digits_of number in
  let? set_code := getitem (C.set card) in
  let? n := Py.int card_number_digits in
  Ok (bool_decide (constructed_name render set_code n ∈ zip_file_basenames)).

(** [all(is_render_in_zip(render, ...) for render in renders)] *)
Fixpoint all_renders_in_zip (renders : list string) (card : C.t)
    (zip_file_basenames : gset string) : result bool :=
  match renders with
  | [] => Ok true
  | render :: rest =>
      let? b := is_render_in_zip render card zip_file_basenames in
      if b then all_renders_in_zip rest card zip_file_basenames else Ok false
  end.

(** [getattr(card_class(card), "name_saved", None)]: only a missing
    attribute gives the default; an error raised by the property goes on. *)
Definition getattr_name_saved (self : Self) : result (option string) :=
  if has_name_saved self then let? s := name_saved self in Ok (Some s)
  else Ok None.

(** [getattr(card_class(card), "name_back", None)] *)
Definition getattr_name_back (self : Self) : result (option string) :=
  if is_mdfc (cls self) then let? s := name_back self in Ok (Some s)
  else Ok None.

Definition renders_of (E : Env) (card : C.t) : result (list string) :=
  let card_class := get_card_class card in
  let? saved := getattr_name_saved (new E card_class card) in
  let? name :=
    match nonempty saved with
    | Some s => Ok s
    | None => name (new E card_class card)
    end in
  let? name_back := getattr_name_back (new E card_class card) in
  match nonempty name_back with
  | Some nb =>
      let? layout := getitem (C.layout card) in
      if decide (layout ≠ "adventure") then Ok [name; nb] else Ok [name]
  | None => Ok [name]
  end.

Definition is_card_in_zip (E : Env) (card : C.t)
    (zip_file_basenames : gset string) : result bool :=
  let? renders := renders_of E card in
  all_renders_in_zip renders card zip_file_basenames.

(** [{os.path.splitext(os.path.basename(f))[0] for f in zip_file.namelist()}] *)
Definition basenames_of (namelist : list string) : gset string :=
  list_to_set (map (λ f, Py.splitext_root (Py.basename f)) namelist).

(** [[card for card in cards if not is_card_in_zip(card, basenames)]] *)
Fixpoint keep_missing (E : Env) (cards : list C.t)
    (zip_file_basenames : gset string) : result (list C.t) :=
  match cards with
  | [] => Ok []
  | card :: rest =>
      let? present := is_card_in_zip E card zip_file_basenames in
      let? kept := keep_missing E rest zip_file_basenames in
      Ok (if present then kept else card :: kept)
  end.

Definition filter_files_from_zip (E : Env) (zip_path : string) (cards : list C.t)
  : result (list C.t) :=
  match zip_archive E zip_path with
  | None => Raise FileNotFoundError
  | Some opened =>
      let? namelist := opened in
      keep_missing E cards (basenames_of namelist)
  end.

(** ** Vocabulary of the statements *)

(** The four signals that are stronger than the declared layout. *)
Definition planeswalker_signal (c : C.t) : Prop :=
  Py.contains "Planeswalker" (default "" (C.type_line c)) = true
  ∧ C.card_faces c = None.
Definition saga_signal (c : C.t) : Prop :=
  Py.contains "Saga" (default "" (C.type_line c)) = true
  ∧ C.card_faces c = None.
Definition mutate_signal (c : C.t) : Prop :=
  ∃ l, C.keywords c = Some l ∧ "Mutate" ∈ l.
Definition land_signal (c : C.t) : Prop :=
  Py.contains "Land" (default "" (C.type_line c)) = true
  ∧ C.card_faces c = None.
Definition no_signal (c : C.t) : Prop :=
  ¬ planeswalker_signal c ∧ ¬ saga_signal c ∧ ¬ mutate_signal c ∧ ¬ land_signal c.

(** The layout tags the dispatch knows. *)
Definition layout_tags : list string :=
  ["normal"; "transform"; "modal_dfc"; "adventure"; "leveler"; "saga";
   "planar"; "meld"; "class"; "split"; "flip"; "token"; "reversible_card"].

(** A record with the fields the classification reads; the rest is absent. *)
Definition record (nm st num lay tl : option string)
    (kw : option (list string)) (faces : option (list Face.t)) : C.t :=
  {| C.name := nm; C.set := st; C.set_name := None; C.set_type := None;
     C.collector_number := num; C.cn := None; C.artist := None;
     C.frame := None; C.layout := lay; C.border_color := None;
     C.frame_effects := None; C.type_line := tl; C.keywords := kw;
     C.image_uris := None; C.card_faces := faces |}.

(** The codes of the candidates, [arr] in [get_card_face], and the folder
    the chosen image is taken from, when every candidate has a [src]. *)
Definition codes_of (entries : list Img) : list string :=
  map (λ e, Py.replace ".jpg" "" (Py.basename (default "" (src e)))) entries.

Definition image_folder (entries : list Img) : string :=
  match entries with
  | [] => ""
  | e0 :: _ =>
      Py.replace "art_th" "art"
        ("https://mtgpics.com/" +:+ Py.dirname (default "" (src e0)))
  end.

Definition has_src (e : Img) : Prop := is_Some (src e).

(** A candidate with the given [src]. *)
Definition img (s : string) : Img := {| src := Some s |}.

(** The face the count-based rules of the specification name, with its
    partition: a code of exactly three characters is a numeric-index code,
    every other code is a suffix code. *)
Definition face_by_count_rules (entries : list Img) (back : bool)
  : option string :=
  let url := image_url (image_folder entries) in
  let arr := codes_of entries in
  let pick (l : list string) := url <$> (l !! (if back then 1 else 0)) in
  match arr with
  | [] => None
  | [a] => if back then None else Some (url a)
  | [_; _] => pick (Py.sorted arr)
  | _ =>
      let numeric := filter (λ i, String.length i = 3) (Py.sorted arr) in
      let suffix := filter (λ i, String.length i ≠ 3) (Py.sorted arr) in
      if decide (2 ≤ length numeric) then pick numeric
      else if decide (2 ≤ length suffix) then pick suffix
      else pick (if decide (numeric ≠ []) then numeric else suffix)
  end.

(** The set mapping as the specification words it: an explicit pair of the
    secondary set code and the promotional flag, in the order of checks
    (1) to (7). *)
Definition resolve_set (E : Env) (canonical_set set_name set_type : string)
  : string * bool :=
  let mapped := default canonical_set (Cfg.replace_sets (cfg E) !! canonical_set) in
  if bool_decide (mapped ∈ promo_sets E) then (mapped, true)
  else if Py.contains "Alchemy" set_name then ("a22", true)
  else if Py.contains "Judge Gift" set_name || bool_decide (mapped = "dci")
  then ("dci", true)
  else if bool_decide (set_name = "Legacy Championship")
          || bool_decide (set_name = "Vintage Championship")
  then ("uni", true)
  else if bool_decide (set_type = "funny") || bool_decide (set_type = "promo") then
    if bool_decide (is_Some (get_mtgp_page E (card_page (mapped +:+ "001"))))
    then (mapped, false) else ("pmo", true)
  else (mapped, false).

(** An environment in which nothing is reachable and nothing is configured,
    and a world without files. *)
Definition offline : Env :=
  {| cfg := {| Cfg.mtgp := "out/mtgp"; Cfg.scry := "out/scry";
               Cfg.naming := "NAME (ARTIST) [SET]"; Cfg.replace_sets := ∅;
               Cfg.overwrite := false; Cfg.only_scryfall := false;
               Cfg.download_scryfall := true;
               Cfg.download_scryfall_full := false |};
     promo_sets := [];
     get_mtgp_page := λ _, None;
     requests_get := λ _, Raise RequestException;
     get_mtgp_image := λ _ _, false;
     get_scryfall_image := λ _ _, false;
     unidecode := λ s, s;
     sanitize_filename := λ s, s;
     ratio := λ _ _, 0%Q;
     set_iter := elements;
     zip_archive := λ _, None |}.

Definition empty_world : World :=
  {| files := ∅; failed_log := []; console := [] |}.

Definition fresh : St := {| obj := fresh_obj; world := empty_world |}.

(** A record with the fields the set mapping reads. *)
Definition record_of_set (nm st stname sttype num lay : string) : C.t :=
  {| C.name := Some nm; C.set := Some st; C.set_name := Some stname;
     C.set_type := Some sttype; C.collector_number := Some num; C.cn := None;
     C.artist := Some "Artist"; C.frame := Some "2015"; C.layout := Some lay;
     C.border_color := Some "black"; C.frame_effects := None;
     C.type_line := Some "Creature"; C.keywords := Some [];
     C.image_uris := None; C.card_faces := None |}.

(** A record with two faces. *)
Definition face_of (nm ar : string) : Face.t :=
  {| Face.name := Some nm; Face.artist := Some ar; Face.image_uris := None |}.

Definition record_of_faces (nm st num lay : string) (faces : list Face.t) : C.t :=
  {| C.name := Some nm; C.set := Some st; C.set_name := Some "Zendikar Rising";
     C.set_type := Some "expansion"; C.collector_number := Some num; C.cn := None;
     C.artist := None; C.frame := Some "2015"; C.layout := Some lay;
     C.border_color := Some "black"; C.frame_effects := None;
     C.type_line := Some "Creature // Land"; C.keywords := Some [];
     C.image_uris := None; C.card_faces := Some faces |}.

(** The first tag of [array1], in its own order, that belongs to [array2]:
    what the name [find_first_match] and the specification promise. *)
Definition first_listed_match (array1 array2 : list string) : option string :=
  head (filter (λ x, x ∈ array2) array1).

(** A record with the fields the template reads. *)
Definition record_of_frame (lay border frm : string) (effects : list string) : C.t :=
  {| C.name := Some "Card"; C.set := Some "set"; C.set_name := None;
     C.set_type := None; C.collector_number := Some "1"; C.cn := None;
     C.artist := Some "Artist"; C.frame := Some frm; C.layout := Some lay;
     C.border_color := Some border; C.frame_effects := Some effects;
     C.type_line := Some "Creature"; C.keywords := Some [];
     C.image_uris := None; C.card_faces := None |}.

(** [offline] with another iteration order of sets. *)
Definition with_set_iter (E : Env) (f : gset string → list string) : Env :=
  {| cfg := cfg E; promo_sets := promo_sets E; get_mtgp_page := get_mtgp_page E;
     requests_get := requests_get E; get_mtgp_image := get_mtgp_image E;
     get_scryfall_image := get_scryfall_image E; unidecode := unidecode E;
     sanitize_filename := sanitize_filename E; ratio := ratio E;
     set_iter := f; zip_archive := zip_archive E |}.

(** *** Listing rows *)

Definition no_cell : Td := {| text := ""; find_a := None |}.

(** [cols[0]], [cols[2]] and [cols[6]] of a row: number, name and artist. *)
Definition number_cell (row : Row) : Td := default no_cell (find_all_td row !! 0).
Definition name_cell (row : Row) : Td := default no_cell (find_all_td row !! 2).
Definition artist_cell (row : Row) : Td := default no_cell (find_all_td row !! 6).

Definition cell_href (cell : Td) : option string :=
  match find_a cell with Some a => href a | None => None end.

(** The reference code a row links to. *)
Definition row_code (row : Row) : string :=
  Py.replace "card?ref=" "" (default "" (cell_href (name_cell row))).

(** A row of a promotional listing qualifies when its artist text contains
    the artist and its name text contains the name, whatever the case. *)
Definition row_qualifies (E : Env) (name artist : string) (row : Row) : bool :=
  bool_decide (6 < length (find_all_td row))
  && Py.contains artist (unidecode E (text (artist_cell row)))
  && Py.contains (Py.lower name) (Py.lower (text (name_cell row))).

(** The similarity of a row: its name text without the card name, against
    the display name of the set. *)
Definition row_score (E : Env) (name set_name : string) (row : Row) : Q :=
  ratio E (Py.replace name "" (text (name_cell row))) set_name.

Definition row_match (E : Env) (name set_name : string) (row : Row) : Match :=
  {| code := row_code row; score := row_score E name set_name row |}.

(** A row of a promotional listing with its seven cells and a link in the
    name cell. *)
Definition promo_row_ok (row : Row) : Prop :=
  6 < length (find_all_td row) ∧ is_Some (find_a (name_cell row)).

(** A row of a set listing with three cells and a link with [href] in the
    name cell. *)
Definition set_row_ok (row : Row) : Prop :=
  2 < length (find_all_td row) ∧ is_Some (cell_href (name_cell row)).

(** The two tests of [get_mtgp_code]. *)
Definition number_and_name_match (num name : string) (row : Row) : bool :=
  bool_decide (text (number_cell row) = num)
  && Py.contains name (text (name_cell row)).
Definition name_match (name : string) (row : Row) : bool :=
  Py.contains name (text (name_cell row)).

(** *** Example pages *)

Definition cell (t : string) : Td := {| text := t; find_a := None |}.
Definition link_cell (t ref : string) : Td :=
  {| text := t; find_a := Some {| href := Some ("card?ref=" +:+ ref) |} |}.

(** A row of a set listing and a row of a promotional listing. *)
Definition set_row (num name_text ref : string) : Row :=
  {| find_all_td := [cell num; cell ""; link_cell name_text ref] |}.
Definition promo_row (name_text ref artist : string) : Row :=
  {| find_all_td := [cell ""; cell ""; link_cell name_text ref; cell "";
                     cell ""; cell ""; cell artist] |}.

Definition listing (rows : list Row) : Soup :=
  {| find_td_170 := None; find_all_rows := rows; find_all_img := [] |}.

(** A card page that links to the listing of its set. *)
Definition card_page_of_set (set_link : string) (imgs : list Img) : Soup :=
  {| find_td_170 := Some {| text := ""; find_a := Some {| href := Some set_link |} |};
     find_all_rows := []; find_all_img := imgs |}.

(** [offline] with pages, a similarity and image downloads. *)
Definition site (pages : string → option Soup) (similarity : string → string → Q)
    (mtgp_image scryfall_image : string → string → bool) : Env :=
  {| cfg := cfg offline; promo_sets := promo_sets offline;
     get_mtgp_page := pages;
     requests_get := λ url, match pages url with
                            | Some soup => Ok soup
                            | None => Raise RequestException
                            end;
     get_mtgp_image := mtgp_image; get_scryfall_image := scryfall_image;
     unidecode := unidecode offline;
     sanitize_filename := sanitize_filename offline; ratio := similarity;
     set_iter := set_iter offline; zip_archive := zip_archive offline |}.

(** The Judge Gift listing with three prints of one card and another card. *)
Definition judge_rows : list Row :=
  [ promo_row "Lightning Bolt (Magic Player Rewards)" "mpr010" "Christopher Moeller";
    promo_row "Lightning Bolt (Judge Gift Cards 2011)" "jgc011" "Christopher Moeller";
    promo_row "Lightning Bolt (Judge Gift Cards 2011) foil" "jgc011f" "Christopher Moeller";
    promo_row "Counterspell (Judge Gift Cards 2011)" "jgc012" "Jason Chan" ].

Definition judge_site : Env :=
  site (λ url, if decide (url = "https://mtgpics.com/set_checklist?set=18")
               then Some (listing judge_rows) else None)
       (λ a b, if Py.contains b a then 1%Q else (1 # 2)%Q)
       (λ _ _, false) (λ _ _, false).

(** The set code [mtgp_set] returns in a state: the stored one, or the one
    the mapping names. *)
Definition current_mtgp_set (E : Env) (self : Self) (st : St) : string :=
  match mtgp_set_slot (obj st) with
  | Some v => v
  | None => fst (resolve_set E (set_ self) (set_name self) (set_type self))
  end.

(** The code a resolution path yields, if any: [if code := ...]. *)
Definition yields (r : result (option string)) : option string :=
  match r with
  | Ok v => nonempty v
  | Raise _ => None
  end.

(** A site with the listing of one set. *)
Definition m10_rows : list Row :=
  [ set_row "180" "Giant Spider" "m10180";
    set_row "181" "Grizzly Bears" "m10181";
    set_row "181a" "Grizzly Bears (foil)" "m10181a" ].

Definition m10_pages (imgs : list Img) (url : string) : option Soup :=
  if decide (url = "https://www.mtgpics.com/card?ref=m10001")
  then Some (card_page_of_set "set?set=236" [])
  else if decide (url = "https://mtgpics.com/set_checklist?set=236")
  then Some (listing m10_rows)
  else if decide (url = "https://www.mtgpics.com/card?ref=m10181")
  then Some (card_page_of_set "set?set=236" imgs)
  else None.

Definition m10_site : Env :=
  site (m10_pages [img "pics/art_th/m10/181.jpg"]) (λ _ _, 0%Q)
       (λ _ _, true) (λ _ _, true).

Definition llanowar_elves : C.t :=
  record_of_set "Llanowar Elves" "m10" "Magic 2010" "core" "189" "normal".

(** The outcome of the two image downloads: [if url and path] and then the
    fetch. *)
Definition primary_ok (E : Env) (url : option string) (path : string) : bool :=
  match url with
  | Some u => usable url path && get_mtgp_image E u path
  | None => false
  end.
Definition fallback_ok (E : Env) (url path : string) : bool :=
  usable (Some url) path && get_scryfall_image E url path.

(** The world after a quiet failure entry that follows a Scryfall download
    to [path]: the file, the console line of the download, the log entry. *)
Definition after_fallback (label path : string) (w : World) : World :=
  write_failed label (print (Scryfall label) (save_file path w)).

(** A site whose secondary source answers every request with a page
    without listing and images, while the structured source serves every
    image. *)
Definition scryfall_only_site : Env :=
  {| cfg := cfg offline; promo_sets := promo_sets offline;
     get_mtgp_page := λ _, Some (listing []);
     requests_get := λ _, Ok (listing []);
     get_mtgp_image := λ _ _, false; get_scryfall_image := λ _ _, true;
     unidecode := unidecode offline;
     sanitize_filename := sanitize_filename offline; ratio := λ _ _, 0%Q;
     set_iter := set_iter offline; zip_archive := zip_archive offline |}.

Definition art (url : string) : option ImageUris :=
  Some {| large := Some (url +:+ "/large.jpg"); art_crop := Some (url +:+ "/art_crop.jpg") |}.

Definition bears_with_art : C.t :=
  {| C.name := Some "Grizzly Bears"; C.set := Some "m10";
     C.set_name := Some "Magic 2010"; C.set_type := Some "core";
     C.collector_number := Some "181"; C.cn := None;
     C.artist := Some "Jeff A. Menges"; C.frame := Some "2003";
     C.layout := Some "normal"; C.border_color := Some "black";
     C.frame_effects := None; C.type_line := Some "Creature - Bear";
     C.keywords := Some []; C.image_uris := art "https://cards.scryfall.io/m10/181";
     C.card_faces := None |}.

Definition valki_with_art : C.t :=
  {| C.name := Some "Valki, God of Lies // Tibalt, Cosmic Impostor";
     C.set := Some "khm"; C.set_name := Some "Kaldheim";
     C.set_type := Some "expansion"; C.collector_number := Some "114";
     C.cn := None; C.artist := Some "Yongjae Choi"; C.frame := Some "2015";
     C.layout := Some "modal_dfc"; C.border_color := Some "black";
     C.frame_effects := None; C.type_line := Some "Legendary Creature // Planeswalker";
     C.keywords := Some []; C.image_uris := None;
     C.card_faces := Some
       [ {| Face.name := Some "Valki, God of Lies"; Face.artist := Some "Yongjae Choi";
            Face.image_uris := art "https://cards.scryfall.io/khm/114a" |};
         {| Face.name := Some "Tibalt, Cosmic Impostor"; Face.artist := Some "Yongjae Choi";
            Face.image_uris := art "https://cards.scryfall.io/khm/114b" |} ] |}.

(** The names [check_path] tries, in order: the intended path, then the
    path numbered 1, 2, ... *)
Definition candidate (path : string) (i : nat) : string :=
  match i with
  | O => path
  | S _ => numbered path i
  end.

(** [offline] with another naming template, and overwriting or not. *)
Definition with_naming (template : string) (overwrite : bool) : Env :=
  {| cfg := {| Cfg.mtgp := "out/mtgp"; Cfg.scry := "out/scry";
               Cfg.naming := template; Cfg.replace_sets := ∅;
               Cfg.overwrite := overwrite; Cfg.only_scryfall := false;
               Cfg.download_scryfall := true;
               Cfg.download_scryfall_full := false |};
     promo_sets := promo_sets offline; get_mtgp_page := get_mtgp_page offline;
     requests_get := requests_get offline;
     get_mtgp_image := get_mtgp_image offline;
     get_scryfall_image := get_scryfall_image offline;
     unidecode := unidecode offline;
     sanitize_filename := sanitize_filename offline; ratio := ratio offline;
     set_iter := set_iter offline; zip_archive := zip_archive offline |}.

Definition world_with_files (fs : list string) : St :=
  {| obj := fresh_obj;
     world := {| files := list_to_set fs; failed_log := []; console := [] |} |}.

(** The path [generate_path] intends before any numbering. *)
Definition intended_path (E : Env) (self : Self) (dir name artist : string)
  : string :=
  Py.join dir
    (naming_convention E name artist (Py.upper (set_ self)) (number self)
     +:+ ".jpg").

Definition plain_card : C.t :=
  record_of_set "Card" "set" "Some Set" "core" "1" "normal".

(** The file names the archive filter expects for a record: one per
    required face, [None] when the record lacks what the names are built
    from (faces, set code, a digit in the collector number). *)
Definition expected_names (E : Env) (card : C.t) : option (list string) :=
  match renders_of E card, card_number card, C.set card with
  | Ok renders, Some num, Some set_code =>
      match Py.int (Py.digits_of num) with
      | Ok n => Some (map (λ render, constructed_name render set_code n) renders)
      | Raise _ => None
      end
  | _, _, _ => None
  end.

(** Every expected name is the basename of an entry. *)
Definition in_archive (E : Env) (basenames : gset string) (card : C.t) : bool :=
  match expected_names E card with
  | Some names => forallb (λ f, bool_decide (f ∈ basenames)) names
  | None => false
  end.

(** [offline] with one archive. *)
Definition with_archive (zip_path : string) (namelist : list string) : Env :=
  {| cfg := cfg offline; promo_sets := promo_sets offline;
     get_mtgp_page := get_mtgp_page offline;
     requests_get := requests_get offline;
     get_mtgp_image := get_mtgp_image offline;
     get_scryfall_image := get_scryfall_image offline;
     unidecode := unidecode offline;
     sanitize_filename := sanitize_filename offline; ratio := ratio offline;
     set_iter := set_iter offline;
     zip_archive := λ p, if decide (p = zip_path) then Some (Ok namelist) else None |}.

Definition collection : Env :=
  with_archive "cards.zip"
    [ "art/Grizzly Bears [M10] {181}.jpg";
      "art/Valki, God of Lies [KHM] {114}.png";
      "art/notes.txt" ].

(** *** Example records *)

Definition jace : C.t :=
  record (Some "Jace Beleren") (Some "m10") (Some "58") (Some "normal")
    (Some "Legendary Planeswalker - Jace") (Some []) None.

Definition forest : C.t :=
  record (Some "Forest") (Some "m21") (Some "274") (Some "normal")
    (Some "Basic Land - Forest") (Some []) None.

Definition fire_ice : C.t :=
  record (Some "Fire // Ice") (Some "mh2") (Some "290") (Some "split")
    (Some "Instant // Instant") (Some []) (Some []).

Definition hologram : C.t :=
  record (Some "Hologram") (Some "xyz") (Some "1") (Some "hologram")
    (Some "Artifact") None None.

Definition alchemy_card : C.t :=
  record_of_set "Key to the Archive" "ymid" "Alchemy: Innistrad" "alchemy" "7" "normal".

Definition grizzly_bears : C.t :=
  record_of_set "Grizzly Bears" "m10" "Magic 2010" "core" "181" "normal".

Definition valki : C.t :=
  record_of_faces "Valki, God of Lies // Tibalt, Cosmic Impostor" "khm" "114"
    "modal_dfc"
    [face_of "Valki, God of Lies" "Yongjae Choi";
     face_of "Tibalt, Cosmic Impostor" "Yongjae Choi"].

(** *** Predicates of the proofs *)

(** A result that raises nothing but what the handlers of core.py catch. *)
Definition only_caught {A} (r : result A) : Prop :=
  match r with
  | Ok _ => True
  | Raise e => caught e = true
  end.

(** A computation that leaves a part [f] of the state alone: [f] may be the
    world, or a slot of the object. *)
Definition keeps {A X} (f : St → X) (m : M A) : Prop :=
  ∀ st, f (snd (m st)) = f st.

(** A string of digits. *)
Definition all_digits (s : string) : Prop :=
  Py.digits_of s = s.

(** ** Vocabulary of the further properties *)

(** The folder names [get_template] can give. *)
Definition template_names : list string :=
  ["token"; "borderless"; "classic"; "normal"] ++ template_effects.

(** A token whose collector number has no digit. *)
Definition star_token : C.t :=
  record_of_set "Goblin" "tust" "Unstable Tokens" "token" "*" "token".

(** The world after a download from the secondary source, after a download
    from the structured source, and after a failure that is logged and
    printed. *)
Definition after_mtgp (label path : string) (w : World) : World :=
  print (MtgpDone label) (save_file path w).
Definition after_scryfall (label path : string) (w : World) : World :=
  print (Scryfall label) (save_file path w).
Definition after_failure (action label : string) (w : World) : World :=
  print (Failed action label) (write_failed label w).

(** A site whose two sources serve every image. *)
Definition both_sources_site : Env :=
  site (m10_pages [img "pics/art_th/m10/181.jpg"]) (λ _ _, 0%Q)
       (λ _ _, true) (λ _ _, true).

(** A run restricted to the structured source, which serves the images
    [served] says. *)
Definition scryfall_mode (served : bool) : Env :=
  {| cfg := {| Cfg.mtgp := "out/mtgp"; Cfg.scry := "out/scry";
               Cfg.naming := "NAME (ARTIST) [SET]"; Cfg.replace_sets := ∅;
               Cfg.overwrite := false; Cfg.only_scryfall := true;
               Cfg.download_scryfall := true;
               Cfg.download_scryfall_full := false |};
     promo_sets := []; get_mtgp_page := λ _, None;
     requests_get := λ _, Raise RequestException;
     get_mtgp_image := λ _ _, false; get_scryfall_image := λ _ _, served;
     unidecode := λ s, s; sanitize_filename := λ s, s; ratio := λ _ _, 0%Q;
     set_iter := elements; zip_archive := λ _, None |}.

(** The four list-valued slots of a card object, and the invariant that a
    stored list has two entries. *)
Definition list_slots (st : St)
  : option (list (option string)) * option (list string)
    * option (list string) * option (list string) :=
  (mtgp_urls_slot (obj st), mtgp_paths_slot (obj st),
   scry_paths_slot (obj st), labels_slot (obj st)).

Definition pairs_only (st : St) : Prop :=
  (∀ v, mtgp_urls_slot (obj st) = Some v → length v = 2)
  ∧ (∀ v, mtgp_paths_slot (obj st) = Some v → length v = 2)
  ∧ (∀ v, scry_paths_slot (obj st) = Some v → length v = 2)
  ∧ (∀ v, labels_slot (obj st) = Some v → length v = 2).

(** [m] keeps the invariant [I] whenever it returns. *)
Definition preserves {A} (I : St → Prop) (m : M A) : Prop :=
  ∀ st a st', I st → m st = (Ok a, st') → I st'.

(** The image code of one entry: [os.path.basename(e["src"]).replace(".jpg", "")]. *)
Definition code_of (e : Img) : string :=
  Py.replace ".jpg" "" (Py.basename (default "" (src e))).

(** Three thumbnails of one card page. *)
Definition three_thumbs : list Img :=
  [img "pics/art_th/khm/114b.jpg"; img "pics/art_th/khm/114.jpg";
   img "pics/art_th/khm/114a.jpg"].

(** ** Card lists (core.py) *)

(** A decoded JSON value; the fields of an object in the order of
    [dict.items()].  No function below reads a number. *)
#[warnings="-register-all"] Inductive Json : Type :=
  | JNull
  | JBool (b : bool)
  | JNum (n : Z)
  | JStr (s : string)
  | JList (items : list Json)
  | JObj (fields : list (string * Json)).

(** [find_key_values(json_obj, target_key, results)]: the list [results] is
    extended in place, so it is threaded through the two loops. *)
Fixpoint find_key_values (json_obj : Json) (target_key : string)
    (results : list Json) {struct json_obj} : list Json :=
  match json_obj with
  | JObj fields =>
      (fix items (fs : list (string * Json)) (results : list Json)
         : list Json :=
         match fs with
         | [] => results
         | (key, value) :: rest =>
             let results :=
               if decide (key = target_key) then results ++ [value] else results in
             let results :=
               match value with
               | JObj _ | JList _ => find_key_values value target_key results
               | _ => results
               end in
             items rest results
         end) fields results
  | JList l =>
      (fix items (l : list Json) (results : list Json) : list Json :=
         match l with
         | [] => results
         | item :: rest =>
             let results :=
               match item with
               | JObj _ | JList _ => find_key_values item target_key results
               | _ => results
               end in
             items rest results
         end) l results
  | _ => results
  end.

(** Structural induction on JSON values, through lists and objects. *)
Fixpoint Json_nested_ind (P : Json → Prop)
    (Hnull : P JNull) (Hbool : ∀ b, P (JBool b)) (Hnum : ∀ n, P (JNum n))
    (Hstr : ∀ s, P (JStr s))
    (Hlist : ∀ l, Forall P l → P (JList l))
    (Hobj : ∀ fs, Forall (λ kv, P kv.2) fs → P (JObj fs))
    (j : Json) {struct j} : P j :=
  match j with
  | JNull => Hnull
  | JBool b => Hbool b
  | JNum n => Hnum n
  | JStr s => Hstr s
  | JList l =>
      Hlist l
        ((fix go (l : list Json) : Forall P l :=
            match l with
            | [] => @List.Forall_nil _ P
            | x :: r =>
                @List.Forall_cons _ P x r
                  (Json_nested_ind P Hnull Hbool Hnum Hstr Hlist Hobj x) (go r)
            end) l)
  | JObj fs =>
      Hobj fs
        ((fix go (fs : list (string * Json)) : Forall (λ kv, P kv.2) fs :=
            match fs with
            | [] => @List.Forall_nil _ (λ kv, P kv.2)
            | kv :: r =>
                @List.Forall_cons _ (λ kv, P kv.2) kv r
                  (Json_nested_ind P Hnull Hbool Hnum Hstr Hlist Hobj kv.2) (go r)
            end) fs)
  end.

(** [v] is the value of the key [k] in an object somewhere inside [j]. *)
Inductive at_key (k : string) (v : Json) : Json → Prop :=
  | at_key_here (fs : list (string * Json)) :
      (k, v) ∈ fs → at_key k v (JObj fs)
  | at_key_field (fs : list (string * Json)) (k' : string) (j : Json) :
      (k', j) ∈ fs → at_key k v j → at_key k v (JObj fs)
  | at_key_item (l : list Json) (j : Json) :
      j ∈ l → at_key k v j → at_key k v (JList l).

(** A deck answer with a card nested in a board and a card inside a card. *)
Definition deck_json : Json :=
  JObj [("name", JStr "Elves");
        ("mainboard",
         JObj [("Llanowar Elves",
                JObj [("quantity", JNum 4);
                      ("card", JObj [("name", JStr "Llanowar Elves");
                                     ("card", JStr "inner")])])]);
        ("tokens", JList [JObj [("card", JNull)]])].

(** *** Further string methods, on ASCII text *)

Module Text.

(** [ch.isspace()]: blank, tab to carriage return, and the four separators. *)
Definition is_space (ch : ascii) : bool :=
  let n := nat_of_ascii ch in
  (n =? 32) || ((9 <=? n) && (n <=? 13)) || ((28 <=? n) && (n <=? 31)).

(** [s.lstrip()], [s.rstrip()], [s.strip()] *)
Fixpoint lstrip (s : string) : string :=
  match s with
  | EmptyString => EmptyString
  | String ch s' => if is_space ch then lstrip s' else s
  end.

Fixpoint rstrip (s : string) : string :=
  match s with
  | EmptyString => EmptyString
  | String ch s' =>
      match rstrip s' with
      | EmptyString => if is_space ch then EmptyString else String ch EmptyString
      | r => String ch r
      end
  end.

Definition strip (s : string) : string := rstrip (lstrip s).

(** [s.split(sep)] for a separator of one character. *)
Fixpoint split (sep : ascii) (s : string) : list string :=
  match s with
  | EmptyString => [EmptyString]
  | String ch s' =>
      if decide (ch = sep) then EmptyString :: split sep s'
      else
        match split sep s' with
        | t :: ts => String ch t :: ts
        | [] => [String ch EmptyString]
        end
  end.

(** [sep.join(l)] *)
Fixpoint join (sep : string) (l : list string) : string :=
  match l with
  | [] => EmptyString
  | [x] => x
  | x :: rest => x +:+ sep +:+ join sep rest
  end.

Fixpoint all_digit_chars (s : string) : bool :=
  match s with
  | EmptyString => true
  | String ch s' => Py.isdigit ch && all_digit_chars s'
  end.

(** [s.isdigit()]: at least one character, and digits only. *)
Definition isdigit (s : string) : bool := Py.truthy s && all_digit_chars s.

Definition newline : string := String "010"%char EmptyString.
Definition blank : ascii := " "%char.

End Text.

(** An entry of a card list: a line of text or a card record. *)
Inductive CardEntry (D : Type) : Type :=
  | Line (s : string)
  | Dict (d : D).
Arguments Line {D} s.
Arguments Dict {D} d.

(** [blank in cards] *)
Fixpoint has_line {D} (blank : string) (cards : list (CardEntry D)) : bool :=
  match cards with
  | [] => false
  | Line s :: rest => bool_decide (s = blank) || has_line blank rest
  | Dict _ :: rest => has_line blank rest
  end.

(** [cards.remove(blank)]: the first equal entry goes, [ValueError] when
    there is none. *)
Fixpoint remove_line {D} (blank : string) (cards : list (CardEntry D))
  : result (list (CardEntry D)) :=
  match cards with
  | [] => Raise ValueError
  | Line s :: rest =>
      if bool_decide (s = blank) then Ok rest
      else let? rest' := remove_line blank rest in Ok (Line s :: rest')
  | Dict d :: rest =>
      let? rest' := remove_line blank rest in Ok (Dict d :: rest')
  end.

(** The body of the loop of [normalize_card_list] for a string [c]. *)
Definition normalize_line (c : string) : result string :=
  let c := Py.replace Text.newline "" (Text.strip c) in
  let terms := Text.split Text.blank c in
  let? t0 := index terms 0 in
  if (String.length t0 <? 4) && Text.isdigit t0
  then Ok (Text.join " " (drop 1 terms))
  else Ok c.

Fixpoint normalize_entries {D} (cards : list (CardEntry D))
  : result (list (CardEntry D)) :=
  match cards with
  | [] => Ok []
  | Line c :: rest =>
      let? c' := normalize_line c in
      let? rest' := normalize_entries rest in
      Ok (Line c' :: rest')
  | Dict d :: rest =>
      let? rest' := normalize_entries rest in
      Ok (Dict d :: rest')
  end.

(** [normalize_card_list]; the two removals also change the caller's list. *)
Definition normalize_card_list {D} (cards : list (CardEntry D))
  : result (list (CardEntry D)) :=
  let? cards := if has_line "" cards then remove_line "" cards else Ok cards in
  let? cards := if has_line " " cards then remove_line " " cards else Ok cards in
  normalize_entries cards.

(** The card records of a list, in order. *)
Definition dicts_of {D} (cards : list (CardEntry D)) : list D :=
  omap (λ c, match c with Dict d => Some d | Line _ => None end) cards.

(** How many entries the two removals take away. *)
Definition blanks_removed {D} (cards : list (CardEntry D)) : nat :=
  (if has_line "" cards then 1 else 0) + (if has_line " " cards then 1 else 0).

(** [d.get(k)] on the fields of an object, whose keys are distinct. *)
Fixpoint field (k : string) (fs : list (string * Json)) : option Json :=
  match fs with
  | [] => None
  | (k', v) :: rest => if decide (k' = k) then Some v else field k rest
  end.

(** A command of links.json: its ["url"], and its ["keys"] when given. *)
Record Command : Type := {
  cmd_url : option string;
  cmd_keys : option (list string);
}.

(** [for k in keys: cards = cards.get(k, {})]: only an object has [get]. *)
Fixpoint navigate (keys : list string) (cards : Json) : result Json :=
  match keys with
  | [] => Ok cards
  | k :: rest =>
      match cards with
      | JObj fs => navigate rest (default (JObj []) (field k fs))
      | _ => Raise AttributeError
      end
  end.

(** [get_list_from_link]; [fetch_json url] is [requests.get(url).json()],
    [None] when it raises [RequestException] or [JSONDecodeError]. *)
Definition get_list_from_link (fetch_json : string → option Json)
    (command : Command) : result (list Json) :=
  let? url := getitem (cmd_url command) in
  match fetch_json url with
  | None => Ok []
  | Some cards =>
      let? cards := navigate (default [] (cmd_keys command)) cards in
      Ok (match cards with JList l => l | _ => [] end)
  end.

Definition is_object (j : Json) : Prop :=
  match j with JObj _ => True | _ => False end.

(** An answer with its cards under ["data"]["cards"]. *)
Definition set_json : Json :=
  JObj [("data", JObj [("cards", JList [JStr "Forest"; JStr "Island"])])].

Definition set_command (keys : list string) : Command :=
  {| cmd_url := Some "https://example.org/set"; cmd_keys := Some keys |}.

(** *** The score as the claim words it *)

(** The text without the name, wherever the text contains it whatever the
    case: the occurrences that the test of [get_mtgp_code_pmo] finds. *)
Fixpoint remove_any_case (name : string) (skip : nat) (s : string) : string :=
  match s with
  | EmptyString => EmptyString
  | String ch s' =>
      match skip with
      | S k => remove_any_case name k s'
      | O =>
          if String.prefix (Py.lower name) (Py.lower s)
          then remove_any_case name (String.length name - 1) s'
          else String ch (remove_any_case name 0 s')
      end
  end.

(** The similarity the claim names: the name text of the row with the card
    name removed, against the display name of the set. *)
Definition claimed_score (E : Env) (name set_name : string) (row : Row) : Q :=
  ratio E (remove_any_case name 0 (text (name_cell row))) set_name.

(** Two prints of one card in the Judge Gift listing; the second row writes
    the name with a small letter. *)
Definition bolt_rows : list Row :=
  [ promo_row "Lightning Bolt (Judge Gift Cards 2010)" "jgc10" "Christopher Moeller";
    promo_row "Lightning bolt (Judge Gift Cards 2014)" "jgc14" "Christopher Moeller" ].

(** [SequenceMatcher(a=a, b="Judge Gift Cards 2014").ratio()] on the three
    texts that occur: twice the matched length over the two lengths. *)
Definition bolt_similarity (a b : string) : Q :=
  if decide (b = "Judge Gift Cards 2014") then
    if decide (a = " (Judge Gift Cards 2010)") then (40 # 45)%Q
    else if decide (a = " (Judge Gift Cards 2014)") then (42 # 45)%Q
    else if decide (a = "Lightning bolt (Judge Gift Cards 2014)") then (42 # 59)%Q
    else 0%Q
  else 0%Q.

Definition bolt_site : Env :=
  site (λ url, if decide (url = "https://mtgpics.com/set_checklist?set=18")
               then Some (listing bolt_rows) else None)
       bolt_similarity (λ _ _, false) (λ _ _, false).

(** *** The promotional path of [mtgp_code] *)

(** The promo flag once [mtgp_set] has been read in a state: the first read
    may set it, a later read leaves it. *)
Definition promo_after_set (E : Env) (self : Self) (st : St) : bool :=
  match mtgp_set_slot (obj st) with
  | Some _ => _promo (obj st)
  | None =>
      snd (resolve_set E (set_ self) (set_name self) (set_type self))
      || _promo (obj st)
  end.

(** [if self.mtgp_set and self.promo]: whether [mtgp_code] asks the
    promotional listing. *)
Definition takes_promo_path (E : Env) (self : Self) (st : St) : bool :=
  Py.truthy (current_mtgp_set E self st) && promo_after_set E self st.

(** The site of one set, with a default promotional listing that has a row
    of the same card and artist. *)
Definition m10_promo_site : Env :=
  site (λ url, if decide (url = "https://mtgpics.com/set_checklist?set=72")
               then Some (listing [promo_row "Llanowar Elves (Promo)" "pmo042" "Artist"])
               else m10_pages [img "pics/art_th/m10/181.jpg"] url)
       (λ _ _, 0%Q) (λ _ _, true) (λ _ _, true).

(** *** The turns of [MDFC.download] *)

(** The faces are handled in order: each turn starts in the state the turn
    before left, and the results are collected in that order. *)
Inductive faces_run (step : nat → string → M DownloadResult)
  : nat → list string → St → list DownloadResult → St → Prop :=
  | faces_done (i : nat) (st : St) : faces_run step i [] st [] st
  | faces_next (i : nat) (url : string) (rest : list string) (st st1 st' : St)
      (r : DownloadResult) (rs : list DownloadResult) :
      step i url st = (Ok r, st1) →
      faces_run step (S i) rest st1 rs st' →
      faces_run step i (url :: rest) st (r :: rs) st'.

(** The failure log and the console only grow. *)
Definition log_grows (w w' : World) : Prop :=
  failed_log w `prefix_of` failed_log w' ∧ console w `prefix_of` console w'.

Definition grows {A} (m : M A) : Prop :=
  ∀ st, log_grows (world st) (world (snd (m st))).

(** * Properties *)

(** ** The string and path operations on examples *)

Example Py_examples :
  Py.replace ".jpg" " (2).jpg" "a/Card.jpg" = "a/Card (2).jpg"
  ∧ Py.replace "//" "/" "Fire // Ice" = "Fire / Ice"
  ∧ Py.replace "aa" "b" "aaa" = "ba"
  ∧ Py.replace "" "-" "abc" = "-a-b-c-"
  ∧ Py.contains "Land" "Basic Land - Forest" = true
  ∧ Py.contains "" "" = true
  ∧ Py.upper "m21x" = "M21X"
  ∧ Py.int (Py.digits_of "012a") = Ok 12
  ∧ Py.int "" = Raise ValueError
  ∧ Py.str 120 = "120"
  ∧ Py.sorted ["052"; "050"; "101"] = ["050"; "052"; "101"]
  ∧ Py.dirname "pics/art_th/znr/050.jpg" = "pics/art_th/znr"
  ∧ Py.dirname "/050.jpg" = "/"
  ∧ Py.dirname "a//050.jpg" = "a"
  ∧ Py.dirname "050.jpg" = ""
  ∧ Py.basename "pics/art_th/znr/050.jpg" = "050.jpg"
  ∧ Py.join "out/mtgp" "normal" = "out/mtgp/normal"
  ∧ Py.join "" "x" = "x"
  ∧ Py.join "a/" "x" = "a/x"
  ∧ Py.join "a" "/x" = "/x"
  ∧ Py.splitext_root "Card [M21] {7}.jpg" = "Card [M21] {7}"
  ∧ Py.splitext_root ".hidden" = ".hidden"
  ∧ Py.splitext_root "a.b/c" = "a.b/c"
  ∧ Py.splitext_root "x.tar.gz" = "x.tar".
Proof. vm_compute. repeat split. Qed.

(** ** C1: classification *)

Lemma class_map_unknown (l : string) : l ∉ layout_tags → class_map !! l = None.
Proof.
  intros H. unfold class_map. apply not_elem_of_list_to_map_1. exact H.
Qed.

Lemma signals_dec (c : C.t) :
  (type_line_has "Planeswalker" c && no_card_faces c = true ↔ planeswalker_signal c)
  ∧ (type_line_has "Saga" c && no_card_faces c = true ↔ saga_signal c)
  ∧ (has_keyword "Mutate" c = true ↔ mutate_signal c)
  ∧ (type_line_has "Land" c && no_card_faces c = true ↔ land_signal c).
Proof.
  assert (Hf : no_card_faces c = true ↔ C.card_faces c = None).
  { unfold no_card_faces. destruct (C.card_faces c); split; congruence. }
  unfold planeswalker_signal, saga_signal, mutate_signal, land_signal,
    type_line_has.
  rewrite !andb_true_iff, !Hf.
  split; [tauto|]. split; [tauto|]. split; [|tauto].
  unfold has_keyword. split.
  - destruct (C.keywords c) as [l|]; [|discriminate].
    intros H. apply bool_decide_eq_true in H. eauto.
  - intros (l & -> & H). by apply bool_decide_eq_true.
Qed.

(** C1. [get_card_class] follows the priority order, first match winning:
    Planeswalker, then Saga (type line, no [card_faces]), then Mutate
    (keywords), then Land or BasicLand (type line, no [card_faces]); with
    none of these the layout tag selects the class, [Card] standing for
    "normal", also for an absent or unknown tag; and equal records get the
    same class. *)
Theorem C1_get_card_class_priority (c : C.t) :
  (planeswalker_signal c → get_card_class c = Planeswalker)
  ∧ (¬ planeswalker_signal c → saga_signal c → get_card_class c = Saga)
  ∧ (¬ planeswalker_signal c → ¬ saga_signal c → mutate_signal c →
     get_card_class c = Mutate)
  ∧ (¬ planeswalker_signal c → ¬ saga_signal c → ¬ mutate_signal c →
     land_signal c →
     get_card_class c =
       if Py.contains "Basic Land" (default "" (C.type_line c))
       then BasicLand else Land)
  ∧ (no_signal c →
     (C.layout c = None → get_card_class c = Card)
     ∧ (C.layout c = Some "normal" → get_card_class c = Card)
     ∧ (C.layout c = Some "transform" → get_card_class c = Transform)
     ∧ (C.layout c = Some "modal_dfc" → get_card_class c = MDFC)
     ∧ (C.layout c = Some "adventure" → get_card_class c = Adventure)
     ∧ (C.layout c = Some "leveler" → get_card_class c = Leveler)
     ∧ (C.layout c = Some "saga" → get_card_class c = Saga)
     ∧ (C.layout c = Some "planar" → get_card_class c = Planar)
     ∧ (C.layout c = Some "meld" → get_card_class c = Meld)
     ∧ (C.layout c = Some "class" → get_card_class c = Class_)
     ∧ (C.layout c = Some "split" → get_card_class c = Split)
     ∧ (C.layout c = Some "flip" → get_card_class c = Flip)
     ∧ (C.layout c = Some "token" → get_card_class c = Token)
     ∧ (C.layout c = Some "reversible_card" → get_card_class c = Reversible)
     ∧ (∀ l, C.layout c = Some l → l ∉ layout_tags → get_card_class c = Card))
  ∧ (∀ c', c' = c → get_card_class c' = get_card_class c).
Proof.
  destruct (signals_dec c) as (Hp & Hs & Hm & Hl).
  unfold no_signal. rewrite <- Hp, <- Hs, <- Hm, <- Hl.
  split_and!; [..| by intros ? ->];
    unfold get_card_class, type_line_has in *;
    destruct (Py.contains "Planeswalker" _ && no_card_faces c);
    destruct (Py.contains "Saga" _ && no_card_faces c);
    destruct (has_keyword "Mutate" c);
    destruct (Py.contains "Land" _ && no_card_faces c);
    try (intuition congruence).
  intros _. split_and!; try (by intros ->).
  intros l -> Hl'. simpl. by rewrite class_map_unknown.
Qed.

Ltac refute_signal :=
  let l := fresh "l" in
  let Hk := fresh "Hk" in
  let Hin := fresh "Hin" in
  match goal with
  | |- ¬ mutate_signal _ =>
      intros (l & Hk & Hin); vm_compute in Hk;
      first [ discriminate Hk
            | inversion Hk; subst; apply elem_of_nil in Hin; exact Hin ]
  | |- ¬ _ => intros [Hk _]; vm_compute in Hk; discriminate Hk
  end.

Lemma C1_get_card_class_priority_witness :
  get_card_class jace = Planeswalker
  ∧ get_card_class forest = BasicLand
  ∧ get_card_class fire_ice = Split
  ∧ get_card_class hologram = Card.
Proof.
  split; [| split; [| split]].
  - destruct (C1_get_card_class_priority jace) as (H & _).
    apply H. split; reflexivity.
  - destruct (C1_get_card_class_priority forest) as (_ & _ & _ & H & _).
    apply H; try refute_signal. split; reflexivity.
  - destruct (C1_get_card_class_priority fire_ice) as (_ & _ & _ & _ & H & _).
    destruct H as (_ & _ & _ & _ & _ & _ & _ & _ & _ & _ & H & _).
    + repeat split; refute_signal.
    + apply H. reflexivity.
  - destruct (C1_get_card_class_priority hologram) as (_ & _ & _ & _ & H & _).
    destruct H as (_ & _ & _ & _ & _ & _ & _ & _ & _ & _ & _ & _ & _ & _ & H).
    + repeat split; refute_signal.
    + apply (H "hologram"); [reflexivity|].
      unfold layout_tags. intros Hin.
      repeat (apply elem_of_cons in Hin as [Hin|Hin]; [discriminate Hin|]).
      apply elem_of_nil in Hin; exact Hin.
Defined.

(** ** C2: face selection *)

Lemma image_codes_ok (entries : list Img) :
  Forall has_src entries → image_codes entries = Ok (codes_of entries).
Proof.
  induction 1 as [|e es [s Hs] _ IH]; [reflexivity|].
  simpl. rewrite Hs, IH. reflexivity.
Qed.

Lemma sorted_spec (l : list string) :
  Sorted String.le (Py.sorted l) ∧ Py.sorted l ≡ₚ l.
Proof.
  split; [apply (Sorted_merge_sort String.le) | apply merge_sort_Permutation].
Qed.

Lemma sorted_length (l : list string) : length (Py.sorted l) = length l.
Proof. apply Permutation_length, merge_sort_Permutation. Qed.

(** C2, as the claim states it, fails on three candidates of which two have
    a code shorter than three characters: the code counts these in neither
    list; for the front it raises, and with one long code it returns the
    numeric-index code as back where the rules name the second suffix code. *)
Lemma C2_counterexample :
  let short := [img "pics/art_th/znr/050.jpg"; img "pics/art_th/znr/a.jpg";
                img "pics/art_th/znr/b.jpg"] in
  let mixed := [img "pics/art_th/znr/050.jpg"; img "pics/art_th/znr/0777.jpg";
                img "pics/art_th/znr/x.jpg"] in
  Forall has_src short ∧ Forall has_src mixed
  ∧ get_card_face short false = Raise IndexError
  ∧ face_by_count_rules short false = Some "https://mtgpics.com/pics/art/znr/a.jpg"
  ∧ get_card_face mixed true = Ok (Some "https://mtgpics.com/pics/art/znr/050.jpg")
  ∧ face_by_count_rules mixed true = Some "https://mtgpics.com/pics/art/znr/x.jpg"
  ∧ ¬ (∀ entries back, Forall has_src entries →
         get_card_face entries back = Ok (face_by_count_rules entries back)).
Proof.
  intros short mixed.
  assert (Hs : Forall has_src short) by (repeat constructor; by eexists).
  assert (Hm : Forall has_src mixed) by (repeat constructor; by eexists).
  split; [exact Hs|]. split; [exact Hm|].
  do 4 (split; [vm_compute; reflexivity|]).
  intros H. specialize (H mixed true Hm).
  assert (Hc : get_card_face mixed true
               = Ok (Some "https://mtgpics.com/pics/art/znr/050.jpg"))
    by (vm_compute; reflexivity).
  assert (Hr : face_by_count_rules mixed true
               = Some "https://mtgpics.com/pics/art/znr/x.jpg")
    by (vm_compute; reflexivity).
  rewrite Hc, Hr in H. discriminate H.
Qed.

(** C2, amended. With every candidate carrying a [src]: no candidate gives
    none for both faces; one gives its image as front and none as back; two
    give the smaller code as front and the larger as back; more than two are
    sorted and split into the codes of exactly three characters and the
    codes of more than three (shorter codes are in neither list), front and
    back being the first and second three-character code when there are
    two, else the first and second longer code when there are two, else the
    front is the only longer code and the back the only three-character
    code, where there is one. *)
Theorem C2_get_card_face_amended (entries : list Img) :
  Forall has_src entries →
  let url := image_url (image_folder entries) in
  let arr := Py.sorted (codes_of entries) in
  let numeric := filter (λ i, String.length i = 3) arr in
  let suffix := filter (λ i, 3 < String.length i) arr in
  let front := get_card_face entries false in
  let back := get_card_face entries true in
  (Sorted String.le arr ∧ arr ≡ₚ codes_of entries)
  ∧ (entries = [] → front = Ok None ∧ back = Ok None)
  ∧ (∀ a, codes_of entries = [a] → front = Ok (Some (url a)) ∧ back = Ok None)
  ∧ (length entries = 2 →
     ∃ a b, arr = [a; b] ∧ front = Ok (Some (url a)) ∧ back = Ok (Some (url b)))
  ∧ (2 < length entries →
     (∀ a b l, numeric = a :: b :: l →
        front = Ok (Some (url a)) ∧ back = Ok (Some (url b)))
     ∧ (length numeric ≤ 1 → ∀ a b l, suffix = a :: b :: l →
        front = Ok (Some (url a)) ∧ back = Ok (Some (url b)))
     ∧ (length numeric ≤ 1 → length suffix ≤ 1 →
        (∀ a, suffix = [a] → front = Ok (Some (url a)))
        ∧ (∀ a, numeric = [a] → back = Ok (Some (url a))))).
Proof.
  intros Hsrc url arr numeric suffix front back.
  split; [apply sorted_spec|].
  assert (Hlen : length (codes_of entries) = length entries)
    by (unfold codes_of; apply length_map).
  assert (Hlen' : length arr = length entries)
    by (unfold arr; rewrite sorted_length; exact Hlen).
  assert (Hget : ∀ bk, entries ≠ [] → get_card_face entries bk =
            choose_face (image_folder entries) (codes_of entries) bk).
  { intros bk Hne. destruct entries as [|e0 es]; [done|].
    pose proof (image_codes_ok _ Hsrc) as Hcodes.
    inversion Hsrc as [|? ? [s Hs] _]; subst.
    unfold get_card_face. rewrite Hcodes. unfold image_folder.
    rewrite Hs. reflexivity. }
  destruct entries as [|e0 es].
  { split; [by intros _|]. split; [intros a Ha; discriminate Ha|].
    split; [intros Hl; discriminate Hl|]. intros Hl. cbn [length] in Hl. lia. }
  split; [intros Hnil; discriminate Hnil|].
  unfold front, back. rewrite !Hget by done.
  clear Hget front back Hsrc.
  set (path := image_folder (e0 :: es)) in *.
  set (cs := codes_of (e0 :: es)) in *.
  assert (Hcs : length cs = S (length es)) by exact Hlen.
  assert (Harr : length arr = S (length es)) by exact Hlen'.
  clearbody cs path. clear Hlen Hlen'. cbn [length].
  unfold choose_face. cbv zeta. fold arr. fold numeric. fold suffix.
  split.
  { intros a ->. cbn. done. }
  split.
  { intros Hl.
    assert (Hex : ∃ a b, arr = [a; b]).
    { revert Harr. generalize arr. intros l Hl'.
      destruct l as [|a [|b [|]]]; cbn [length] in Hl'; try lia. eauto. }
    destruct Hex as (a & b & Hab). exists a, b. split; [exact Hab|].
    rewrite Hab. repeat (case_decide; try lia). done. }
  intros Hl. split; [|split].
  - intros a b l Hn. rewrite Hn. cbn [length].
    repeat (case_decide; try lia). done.
  - intros Hnum a b l Hsuf. rewrite Hsuf. cbn [length].
    repeat (case_decide; try lia). done.
  - intros Hnum Hsuf. split; intros a Ha; rewrite Ha;
      repeat (case_decide; try lia); try done.
    + rewrite Ha in *. cbn [length] in *. lia.
Qed.

Lemma C2_get_card_face_amended_witness :
  let cands := [img "pics/art_th/znr/101.jpg"; img "pics/art_th/znr/b.jpg";
                img "pics/art_th/znr/050.jpg"] in
  get_card_face cands false = Ok (Some "https://mtgpics.com/pics/art/znr/050.jpg")
  ∧ get_card_face cands true = Ok (Some "https://mtgpics.com/pics/art/znr/101.jpg").
Proof.
  intros cands.
  assert (Hs : Forall has_src cands).
  { repeat constructor; eexists; reflexivity. }
  destruct (C2_get_card_face_amended cands Hs) as (_ & _ & _ & _ & H).
  destruct H as (H & _); [cbn; lia|].
  apply (H "050" "101" []). vm_compute. reflexivity.
Defined.

(** The examples of the specification. *)
Example get_card_face_examples :
  get_card_face [] false = Ok None ∧ get_card_face [] true = Ok None
  ∧ get_card_face [img "pics/art_th/znr/050.jpg"] false
    = Ok (Some "https://mtgpics.com/pics/art/znr/050.jpg")
  ∧ get_card_face [img "pics/art_th/znr/050.jpg"] true = Ok None
  ∧ get_card_face [img "pics/art_th/znr/052.jpg"; img "pics/art_th/znr/050.jpg"] false
    = Ok (Some "https://mtgpics.com/pics/art/znr/050.jpg")
  ∧ get_card_face [img "pics/art_th/znr/052.jpg"; img "pics/art_th/znr/050.jpg"] true
    = Ok (Some "https://mtgpics.com/pics/art/znr/052.jpg").
Proof. vm_compute. repeat split. Qed.

(** ** C3: the set mapping and the promo flag *)

(** C3, as the claim states it, fails: on a fresh object of a card of an
    Alchemy set the promo flag reads [False]; reading [mtgp_set] returns
    ["a22"] and leaves the flag [True]. *)
Lemma C3_counterexample :
  let self := new offline Card alchemy_card in
  let after := snd (mtgp_set offline self fresh) in
  fst (promo fresh) = Ok false
  ∧ fst (mtgp_set offline self fresh) = Ok "a22"
  ∧ fst (promo after) = Ok true
  ∧ ¬ (∀ E self st, _promo (obj (snd (mtgp_set E self st))) = _promo (obj st)).
Proof.
  intros self after.
  assert (H : mtgp_set offline self fresh
              = (Ok "a22", {| obj := store_mtgp_set "a22" (set_promo true fresh_obj);
                              world := empty_world |}))
    by (vm_compute; reflexivity).
  unfold after. rewrite H.
  split; [reflexivity|]. split; [reflexivity|]. split; [reflexivity|].
  intros Hall. specialize (Hall offline self fresh).
  rewrite H in Hall. discriminate Hall.
Qed.

Lemma bool_decide_in_pair (x a b : string) :
  bool_decide (x ∈ [a; b]) = bool_decide (x = a) || bool_decide (x = b).
Proof.
  destruct (bool_decide_reflect (x = a)) as [->|Ha].
  { apply bool_decide_eq_true_2. apply elem_of_cons. by left. }
  destruct (bool_decide_reflect (x = b)) as [->|Hb].
  { apply bool_decide_eq_true_2. apply elem_of_cons. right.
    apply elem_of_cons. by left. }
  apply bool_decide_eq_false_2. intros H.
  apply elem_of_cons in H as [H|H]; [done|].
  apply elem_of_cons in H as [H|H]; [done|].
  by apply elem_of_nil in H.
Qed.

Lemma mtgp_set_first_read (E : Env) (self : Self) (st : St) :
  mtgp_set_slot (obj st) = None →
  mtgp_set E self st =
    let '(code, is_promo) := resolve_set E (set_ self) (set_name self) (set_type self) in
    (Ok code,
     {| obj := store_mtgp_set code
                 (if is_promo then set_promo true (obj st) else obj st);
        world := world st |}).
Proof.
  intros Hslot. destruct st as [o w]. cbn [obj world] in *.
  unfold mtgp_set, resolve_set, cached, bind, get_obj, promo_set, modify_obj, ret.
  cbn [obj world]. rewrite Hslot. rewrite !bool_decide_in_pair.
  destruct (Cfg.replace_sets (cfg E) !! set_ self) as [v|];
    cbn [from_option]; unfold id;
    (destruct (get_mtgp_page E _) as [pg|];
     [ rewrite (bool_decide_eq_true_2 (is_Some (Some pg))) by eauto
     | rewrite (bool_decide_eq_false_2 (is_Some (@None Soup)))
         by (intros [? ?]; discriminate) ]);
    repeat match goal with
           | |- context [if ?b then _ else _] => destruct b
           end;
    reflexivity.
Qed.

Lemma mtgp_set_later_read (E : Env) (self : Self) (st : St) (v : string) :
  mtgp_set_slot (obj st) = Some v → mtgp_set E self st = (Ok v, st).
Proof.
  intros Hv. unfold mtgp_set, cached, bind, get_obj, ret. by rewrite Hv.
Qed.

(** C3, amended. The first read of [mtgp_set] returns the code of the
    explicit mapping [resolve_set]; it sets the promo flag when the mapping
    is promotional and leaves it as it is otherwise, stores the code in its
    own slot and changes nothing else (the record [c] is not part of the
    mutable state at all). A later read returns the stored code and writes
    nothing, and reading [promo] writes nothing. *)
Theorem C3_mtgp_set_writes_promo_only (E : Env) (self : Self) (st : St) :
  (mtgp_set_slot (obj st) = None →
   mtgp_set E self st =
     let '(code, is_promo) :=
       resolve_set E (set_ self) (set_name self) (set_type self) in
     (Ok code,
      {| obj := store_mtgp_set code
                  (if is_promo then set_promo true (obj st) else obj st);
         world := world st |}))
  ∧ (∀ v, mtgp_set_slot (obj st) = Some v → mtgp_set E self st = (Ok v, st))
  ∧ promo st = (Ok (_promo (obj st)), st).
Proof.
  split; [apply mtgp_set_first_read|]. split; [|reflexivity].
  intros v. apply mtgp_set_later_read.
Qed.

Lemma C3_mtgp_set_writes_promo_only_witness :
  mtgp_set offline (new offline Card alchemy_card) fresh
  = (Ok "a22", {| obj := store_mtgp_set "a22" (set_promo true fresh_obj);
                  world := empty_world |})
  ∧ mtgp_set offline (new offline Card grizzly_bears) fresh
  = (Ok "m10", {| obj := store_mtgp_set "m10" fresh_obj; world := empty_world |})
  ∧ mtgp_set offline (new offline Card grizzly_bears)
      {| obj := store_mtgp_set "m10" fresh_obj; world := empty_world |}
  = (Ok "m10", {| obj := store_mtgp_set "m10" fresh_obj; world := empty_world |}).
Proof.
  split; [| split].
  - apply (proj1 (C3_mtgp_set_writes_promo_only offline
                    (new offline Card alchemy_card) fresh)).
    reflexivity.
  - apply (proj1 (C3_mtgp_set_writes_promo_only offline
                    (new offline Card grizzly_bears) fresh)).
    reflexivity.
  - apply (proj1 (proj2 (C3_mtgp_set_writes_promo_only offline
                    (new offline Card grizzly_bears)
                    {| obj := store_mtgp_set "m10" fresh_obj; world := empty_world |}))).
    reflexivity.
Defined.

(** ** C4: failures of the page fetch *)

Lemma only_caught_bind {A B} (r : result A) (k : A → result B) :
  only_caught r → (∀ a, only_caught (k a)) → only_caught (res_bind r k).
Proof. destruct r; simpl; auto. Qed.

Lemma only_caught_index {A} (l : list A) (i : nat) : only_caught (index l i).
Proof. unfold index. by destruct (l !! i). Qed.

Lemma only_caught_getitem {A} (f : option A) : only_caught (getitem f).
Proof. by destruct f. Qed.

Lemma only_caught_method_of {A} (f : option A) : only_caught (method_of f).
Proof. by destruct f. Qed.

Lemma only_caught_subscript_of {A} (f : option A) : only_caught (subscript_of f).
Proof. by destruct f. Qed.

Lemma only_caught_BeautifulSoup (r : option Soup) : only_caught (BeautifulSoup r).
Proof. by destruct r. Qed.

Create HintDb caught.

Local Hint Resolve only_caught_index only_caught_getitem only_caught_method_of
  only_caught_subscript_of only_caught_BeautifulSoup : caught.

Ltac caught_step :=
  repeat first
    [ apply only_caught_bind; [ solve [auto with caught] | intros ? ]
    | match goal with |- only_caught (if ?b then _ else _) => destruct b end
    | match goal with |- only_caught (match ?o with Some _ => _ | None => _ end) =>
        destruct o end
    | exact I ].

Lemma only_caught_link_code (cell : Td) : only_caught (link_code cell).
Proof. unfold link_code. caught_step. Qed.

Local Hint Resolve only_caught_link_code : caught.

Lemma only_caught_scan_number_and_name (num name : string) (rows : list Row) :
  only_caught (scan_number_and_name num name rows).
Proof. induction rows as [|row rest IH]; simpl; caught_step; auto. Qed.

Lemma only_caught_scan_name (name : string) (rows : list Row) :
  only_caught (scan_name name rows).
Proof. induction rows as [|row rest IH]; simpl; caught_step; auto. Qed.

Lemma only_caught_collect_matches (E : Env) (name artist set_name : string)
    (rows : list Row) :
  only_caught (collect_matches E name artist set_name rows).
Proof.
  induction rows as [|row rest IH]; simpl; caught_step; auto.
Qed.

Local Hint Resolve only_caught_scan_number_and_name only_caught_scan_name
  only_caught_collect_matches : caught.

Lemma try_except_total {A} (body : result (option A)) :
  only_caught body → ∃ v, try_except body = Ok v.
Proof.
  destruct body as [v|e]; simpl; [eauto|]. intros ->. eauto.
Qed.

(** [get_mtgp_code] and [get_mtgp_code_pmo] return, with a code or with
    none, whatever the pages are. *)
Lemma get_mtgp_code_total (E : Env) (set_code num name : string) :
  ∃ v, get_mtgp_code E set_code num name = Ok v.
Proof.
  apply try_except_total. caught_step. auto with caught.
Qed.

Lemma get_mtgp_code_pmo_total (E : Env) (name artist set_name promo : string) :
  ∃ v, get_mtgp_code_pmo E name artist set_name promo = Ok v.
Proof.
  apply try_except_total. cbv zeta. caught_step.
Qed.

(** Whatever [requests.get] raises leaves [mtgp_urls]; nothing is stored. *)
Lemma mtgp_urls_raises (E : Env) (self : Self) (st st' : St) (ref : string)
    (e : exn) :
  mtgp_urls_slot (obj st) = None →
  mtgp_code E self st = (Ok ref, st') →
  requests_get E (card_page ref) = Raise e →
  mtgp_urls E self st = (Raise e, st').
Proof.
  intros Hslot Hcode Hget.
  unfold mtgp_urls, cached, bind at 1, get_obj. rewrite Hslot.
  unfold bind at 1. unfold bind at 1. rewrite Hcode.
  unfold bind at 1, lift. rewrite Hget. reflexivity.
Qed.

(** The sibling [Card.mtgp_url] asks [get_mtgp_page] and returns none when
    the page is missing. *)
Lemma mtgp_url_page_missing (E : Env) (self : Self) (st st' : St) (ref : string) :
  mtgp_url_slot (obj st) = None →
  mtgp_code E self st = (Ok ref, st') →
  get_mtgp_page E (card_page ref) = None →
  fst (mtgp_url E self st) = Ok None.
Proof.
  intros Hslot Hcode Hget.
  unfold mtgp_url, cached, bind at 1, get_obj. rewrite Hslot.
  unfold bind at 1. unfold bind at 1. rewrite Hcode, Hget. reflexivity.
Qed.

(** C4 (code). With the network down, the image URLs of a modal
    double-faced card are not resolved to none: [requests.get] raises in
    [MDFC.mtgp_urls], outside any handler, and the exception leaves
    [download]. For a single-faced card in the same situation [mtgp_url]
    is none. *)
Theorem C4_mtgp_urls_propagates :
  let self := new offline (get_card_class valki) valki in
  get_card_class valki = MDFC
  ∧ fst (mtgp_code offline self fresh) = Ok "khm114"
  ∧ fst (mtgp_urls offline self fresh) = Raise RequestException
  ∧ fst (download offline self true fresh) = Raise RequestException
  ∧ fst (mtgp_url offline (new offline Card grizzly_bears) fresh) = Ok None.
Proof. vm_compute. repeat split. Qed.

(** ** C5: the path template *)

Lemma find_first_match_sound (E : Env) (array1 array2 : list string) :
  set_iter_ok E →
  match find_first_match E array1 array2 with
  | Some x => x ∈ array1 ∧ x ∈ array2
  | None => ∀ x, x ∈ array1 → x ∉ array2
  end.
Proof.
  intros Hok. unfold find_first_match.
  set (m := list_to_set array1 ∩ list_to_set array2 : gset string).
  pose proof (Hok m) as Hperm.
  destruct (set_iter E m) as [|x l] eqn:Hit; cbn [head].
  - intros x H1 H2.
    assert (Hx : x ∈ elements m).
    { apply elem_of_elements. unfold m. set_solver. }
    rewrite <- Hperm in Hx. by apply elem_of_nil in Hx.
  - assert (Hx : x ∈ m).
    { apply elem_of_elements. rewrite <- Hperm. apply elem_of_cons. by left. }
    unfold m in Hx. set_solver.
Qed.

(** The three earlier checks come first, in their order. *)
Lemma get_template_precedence (E : Env) (c : C.t) :
  (C.layout c = Some "token" → get_template E c = "token")
  ∧ (default "" (C.layout c) ≠ "token" → C.border_color c = Some "borderless" →
     get_template E c = "borderless")
  ∧ (default "" (C.layout c) ≠ "token" →
     default "" (C.border_color c) ≠ "borderless" →
     C.frame c = Some "1993" ∨ C.frame c = Some "1995" →
     get_template E c = "classic").
Proof.
  unfold get_template. split_and!.
  - intros ->. reflexivity.
  - intros Hl ->. by rewrite decide_False.
  - intros Hl Hb Hf. rewrite !decide_False by done.
    rewrite bool_decide_eq_true_2; [done|].
    destruct Hf as [-> | ->]; cbn [default]; set_solver.
Qed.

(** Past the three earlier checks the template is some tag common to the
    frame effects and [template_effects], and "normal" when there is none. *)
Lemma get_template_effect (E : Env) (c : C.t) :
  set_iter_ok E →
  default "" (C.layout c) ≠ "token" →
  default "" (C.border_color c) ≠ "borderless" →
  default "" (C.frame c) ∉ ["1993"; "1995"] →
  let effects := default [] (C.frame_effects c) in
  (get_template E c ∈ effects ∧ get_template E c ∈ template_effects)
  ∨ (get_template E c = "normal" ∧ ∀ x, x ∈ effects → x ∉ template_effects).
Proof.
  intros Hok Hl Hb Hf effects. unfold get_template.
  rewrite !decide_False by done. rewrite bool_decide_eq_false_2 by done.
  pose proof (find_first_match_sound E effects template_effects Hok) as H.
  fold effects.
  destruct (find_first_match E effects template_effects) as [x|]; [|by right].
  destruct H as [H1 H2]. left.
  assert (Ht : Py.truthy x = true).
  { unfold template_effects in H2.
    repeat (apply elem_of_cons in H2 as [-> | H2]; [reflexivity|]).
    by apply elem_of_nil in H2. }
  rewrite Ht. done.
Qed.

(** C5 (code). A borderless-free, modern-frame card whose frame effects are
    [extendedart] then [etched]: the first listed tag of the fixed set is
    [extendedart], yet the template is the tag that the iteration of the
    intersection set yields first, which is [etched] under one order and
    [extendedart] under the reverse order. *)
Theorem C5_template_follows_set_order :
  let c := record_of_frame "normal" "black" "2015" ["extendedart"; "etched"] in
  let E1 := with_set_iter offline (λ s, merge_sort String.le (elements s)) in
  let E2 := with_set_iter offline (λ s, reverse (merge_sort String.le (elements s))) in
  set_iter_ok E1 ∧ set_iter_ok E2
  ∧ first_listed_match (default [] (C.frame_effects c)) template_effects
    = Some "extendedart"
  ∧ get_template E1 c = "etched"
  ∧ get_template E2 c = "extendedart".
Proof.
  intros c E1 E2. split_and!.
  - intros s. apply merge_sort_Permutation.
  - intros s. cbn [set_iter E2 with_set_iter].
    rewrite reverse_Permutation. apply merge_sort_Permutation.
  - vm_compute. reflexivity.
  - vm_compute. reflexivity.
  - vm_compute. reflexivity.
Qed.

(** ** C6: promotional resolution *)

Lemma insert_desc_not_nil (m : Match) (l : list Match) : insert_desc m l ≠ [].
Proof. destruct l as [|x l]; simpl; [done|]. by destruct (Qle_bool _ _). Qed.

Lemma sorted_by_score_desc_nil (l : list Match) :
  sorted_by_score_desc l = [] → l = [].
Proof.
  destruct l as [|m l]; [done|]. simpl. intros H.
  by apply insert_desc_not_nil in H.
Qed.

(** The head of the stable descending sort: the first entry of maximal
    score. *)
Lemma sorted_by_score_desc_head (l : list Match) (b : Match) (t : list Match) :
  sorted_by_score_desc l = b :: t →
  ∃ l1 l2, l = l1 ++ b :: l2
    ∧ Forall (λ x, (score x < score b)%Q) l1
    ∧ Forall (λ x, (score x <= score b)%Q) l2.
Proof.
  revert b t. induction l as [|m l IH]; intros b t Hs; [discriminate Hs|].
  cbn [sorted_by_score_desc foldr] in Hs.
  fold (sorted_by_score_desc l) in Hs.
  destruct (sorted_by_score_desc l) as [|b' t'] eqn:Hl.
  - apply sorted_by_score_desc_nil in Hl as ->.
    cbn in Hs. injection Hs as <- <-. exists [], []. split; [done|].
    split; constructor.
  - destruct (IH b' t' eq_refl) as (l1 & l2 & -> & H1 & H2).
    cbn [insert_desc] in Hs.
    destruct (Qle_bool (score b') (score m)) eqn:Hle.
    + injection Hs as <- <-. apply Qle_bool_iff in Hle.
      exists [], (l1 ++ b' :: l2). split; [done|]. split; [constructor|].
      apply Forall_app. split; [|constructor].
      * eapply Forall_impl; [exact H1|]. intros x Hx. cbn in Hx.
        apply Qlt_le_weak. eapply Qlt_le_trans; eauto.
      * exact Hle.
      * eapply Forall_impl; [exact H2|]. intros x Hx. cbn in Hx.
        eapply Qle_trans; eauto.
    + injection Hs as <- <-.
      assert (Hlt : (score m < score b')%Q).
      { apply Qnot_le_lt. intros Hc. apply Qle_bool_iff in Hc. congruence. }
      exists (m :: l1), l2. split; [done|]. split; [|done].
      constructor; done.
Qed.

(** When the loop of [get_mtgp_code_pmo] ends without an error, its matches
    are those of the qualifying rows, in their order. *)
Lemma collect_matches_ok (E : Env) (name artist set_name : string)
    (rows : list Row) (ms : list Match) :
  collect_matches E name artist set_name rows = Ok ms →
  ms = map (row_match E name set_name)
         (filter (λ r, row_qualifies E name artist r) rows).
Proof.
  revert ms. induction rows as [|row rest IH]; intros ms H.
  { injection H as <-. reflexivity. }
  cbn [collect_matches] in H.
  unfold index in H.
  destruct (find_all_td row !! 6) as [c6|] eqn:H6; [|discriminate H].
  cbn [res_bind] in H.
  assert (Hlen : 6 < length (find_all_td row)).
  { apply lookup_lt_is_Some. eauto. }
  assert (Hq : row_qualifies E name artist row
               = Py.contains artist (unidecode E (text c6))
                 && Py.contains (Py.lower name) (Py.lower (text (name_cell row)))).
  { unfold row_qualifies, artist_cell. rewrite H6.
    rewrite bool_decide_eq_true_2 by done. reflexivity. }
  destruct (Py.contains artist (unidecode E (text c6))) eqn:Ha.
  - destruct (find_all_td row !! 2) as [c2|] eqn:H2; [|discriminate H].
    cbn [res_bind] in H.
    assert (Hn : name_cell row = c2) by (unfold name_cell; by rewrite H2).
    rewrite Hn in Hq.
    destruct (Py.contains (Py.lower name) (Py.lower (text c2))) eqn:Hc.
    + destruct (find_a c2) as [a|] eqn:Hfa; [|discriminate H].
      cbn [method_of res_bind] in H.
      destruct (collect_matches E name artist set_name rest) as [ms'|]
        eqn:Hrest; [|discriminate H].
      cbn [res_bind] in H. injection H as <-.
      rewrite filter_cons_True by (rewrite Hq; simpl; tauto).
      cbn [map]. f_equal; [|by apply IH].
      unfold row_match, row_code, row_score, cell_href.
      rewrite Hn, Hfa. reflexivity.
    + rewrite filter_cons_False by (rewrite Hq; simpl; tauto). by apply IH.
  - rewrite filter_cons_False by (rewrite Hq; simpl; tauto). by apply IH.
Qed.

(** On well-formed rows the loop ends without an error. *)
Lemma collect_matches_wf (E : Env) (name artist set_name : string)
    (rows : list Row) :
  Forall promo_row_ok rows →
  ∃ ms, collect_matches E name artist set_name rows = Ok ms.
Proof.
  induction 1 as [|row rest [Hlen [a Ha]] _ [ms IH]]; [by eexists|].
  cbn [collect_matches]. unfold index.
  destruct (lookup_lt_is_Some_2 (find_all_td row) 6 Hlen) as [c6 H6].
  assert (H2len : 2 < length (find_all_td row)) by lia.
  destruct (lookup_lt_is_Some_2 (find_all_td row) 2 H2len) as [c2 H2].
  rewrite H6, H2. cbn [res_bind].
  assert (Hn : name_cell row = c2) by (unfold name_cell; by rewrite H2).
  rewrite Hn in Ha. rewrite Ha, IH. cbn [method_of res_bind].
  destruct (Py.contains _ _); [|by eexists].
  destruct (Py.contains _ _); by eexists.
Qed.

Lemma Forall_map_inv {A B} (f : A → B) (P : B → Prop) (l : list A) :
  Forall P (map f l) → Forall (λ x, P (f x)) l.
Proof. induction l; inversion 1; constructor; auto. Qed.

(** In [get_mtgp_code_pmo] a returned code is the code of a qualifying row
    whose score, as the code computes it, no qualifying row exceeds and no
    earlier qualifying row equals: the maximum, ties going to the first row
    met. Without qualifying rows the result is none, and on a listing whose
    rows have their cells and links a qualifying row gives a code. *)
Lemma get_mtgp_code_pmo_first_max (E : Env) (name artist set_name promo : string) :
  let rows :=
    match get_mtgp_page E (promo_listing promo) with
    | Some soup => find_all_rows soup
    | None => []
    end in
  let qualifying := filter (λ r, row_qualifies E name artist r) rows in
  let result := get_mtgp_code_pmo E name artist set_name promo in
  (∀ code, result = Ok (Some code) →
     ∃ before row after,
       qualifying = before ++ row :: after
       ∧ code = row_code row
       ∧ Forall (λ r, (row_score E name set_name r
                       < row_score E name set_name row)%Q) before
       ∧ Forall (λ r, (row_score E name set_name r
                       <= row_score E name set_name row)%Q) after)
  ∧ (qualifying = [] → result = Ok None)
  ∧ (Forall promo_row_ok rows → qualifying ≠ [] →
     ∃ code, result = Ok (Some code)).
Proof.
  intros rows qualifying result.
  assert (Hres : result =
    match get_mtgp_page E (promo_listing promo) with
    | None => Ok None
    | Some _ =>
        try_except
          (let? matches := collect_matches E name artist set_name rows in
           let? best := index (sorted_by_score_desc matches) 0 in
           Ok (Some (code best)))
    end).
  { unfold result, get_mtgp_code_pmo, rows.
    destruct (get_mtgp_page E (promo_listing promo)); reflexivity. }
  rewrite Hres. clear Hres.
  destruct (get_mtgp_page E (promo_listing promo)) as [soup|] eqn:Hpage.
  2:{ split; [intros code H; discriminate H|]. split; [done|].
      intros _ Hq. by destruct Hq. }
  pose proof (collect_matches_ok E name artist set_name rows) as Hok.
  destruct (collect_matches E name artist set_name rows) as [ms|e] eqn:Hcol.
  - specialize (Hok ms eq_refl). fold qualifying in Hok.
    cbn [res_bind]. unfold index.
    destruct (sorted_by_score_desc ms) as [|b t] eqn:Hsort.
    + apply sorted_by_score_desc_nil in Hsort. rewrite Hsort in Hok.
      symmetry in Hok. apply map_eq_nil in Hok.
      split; [intros code H; discriminate H|]. split; [done|].
      intros _ Hq. by destruct Hq.
    + cbn. split; [|split; [| by eauto]].
      * intros cd Hcd. injection Hcd as <-.
        destruct (sorted_by_score_desc_head _ _ _ Hsort)
          as (l1 & l2 & Hms & H1 & H2).
        rewrite Hok in Hms. apply map_eq_app in Hms.
        destruct Hms as (before & rest & Hq & Hb & Hrest).
        apply map_eq_cons in Hrest.
        destruct Hrest as (row & after & -> & Hrow & Ha).
        exists before, row, after. subst l1 l2 b.
        split; [exact Hq|]. split; [reflexivity|].
        split; [exact (Forall_map_inv _ _ _ H1) | exact (Forall_map_inv _ _ _ H2)].
      * intros Hq. rewrite Hq in Hok. subst ms. discriminate Hsort.
  - cbn [res_bind]. split; [|split].
    + intros code H. unfold try_except in H. destruct (caught e); discriminate H.
    + intros _.
      pose proof (only_caught_collect_matches E name artist set_name rows) as Hc.
      rewrite Hcol in Hc. cbn in Hc. unfold try_except. by rewrite Hc.
    + intros Hwf _.
      destruct (collect_matches_wf E name artist set_name rows Hwf) as [ms Hms].
      congruence.
Qed.

Example get_mtgp_code_pmo_first_max_judge :
  ∃ before row after,
    filter (λ r, row_qualifies judge_site "Lightning Bolt" "Christopher Moeller" r)
      judge_rows = before ++ row :: after
    ∧ "jgc011" = row_code row
    ∧ Forall (λ r, (row_score judge_site "Lightning Bolt" "Judge Gift Cards 2011" r
                    < row_score judge_site "Lightning Bolt" "Judge Gift Cards 2011" row)%Q)
        before
    ∧ Forall (λ r, (row_score judge_site "Lightning Bolt" "Judge Gift Cards 2011" r
                    <= row_score judge_site "Lightning Bolt" "Judge Gift Cards 2011" row)%Q)
        after.
Proof.
  apply (proj1 (get_mtgp_code_pmo_first_max judge_site "Lightning Bolt"
                  "Christopher Moeller" "Judge Gift Cards 2011" "dci") "jgc011").
  vm_compute. reflexivity.
Qed.

(** C6. The rows of a promotional listing qualify whatever the case of the
    name, but the name is taken out of the name text by exact case only. On
    a listing with the 2010 print first and the 2014 print, written with a
    small letter, second, both rows qualify; with the name removed the second
    row is the more similar to "Judge Gift Cards 2014"; the code scores the
    second row on its whole text and returns the 2010 print. *)
Theorem C6_name_removed_by_exact_case :
  let name := "Lightning Bolt" in
  let artist := "Christopher Moeller" in
  let set_name := "Judge Gift Cards 2014" in
  Forall (λ r, row_qualifies bolt_site name artist r = true) bolt_rows
  ∧ map row_code bolt_rows = ["jgc10"; "jgc14"]
  ∧ map (claimed_score bolt_site name set_name) bolt_rows
    = [(40 # 45)%Q; (42 # 45)%Q]
  ∧ map (row_score bolt_site name set_name) bolt_rows
    = [(40 # 45)%Q; (42 # 59)%Q]
  ∧ (40 # 45 < 42 # 45)%Q
  ∧ get_mtgp_code_pmo bolt_site name artist set_name "dci" = Ok (Some "jgc10").
Proof.
  cbn zeta. split_and!.
  - repeat constructor.
  - reflexivity.
  - vm_compute. reflexivity.
  - vm_compute. reflexivity.
  - reflexivity.
  - vm_compute. reflexivity.
Qed.

(** ** C7: set listing passes and the naive code *)

Lemma set_row_ok_inv (row : Row) :
  set_row_ok row →
  ∃ c0 c2, find_all_td row !! 0 = Some c0 ∧ find_all_td row !! 2 = Some c2
    ∧ number_cell row = c0 ∧ name_cell row = c2
    ∧ link_code c2 = Ok (row_code row).
Proof.
  intros [Hlen [h Hh]].
  assert (H0len : 0 < length (find_all_td row)) by lia.
  destruct (lookup_lt_is_Some_2 _ 0 H0len) as [c0 H0].
  destruct (lookup_lt_is_Some_2 _ 2 Hlen) as [c2 H2].
  exists c0, c2.
  assert (Hn : name_cell row = c2) by (unfold name_cell; by rewrite H2).
  split_and!; try done.
  - unfold number_cell. by rewrite H0.
  - unfold link_code, row_code. rewrite Hn. rewrite Hn in Hh.
    unfold cell_href in *. destruct (find_a c2) as [a|]; [|discriminate Hh].
    cbn [subscript_of res_bind]. rewrite Hh. reflexivity.
Qed.

Lemma scan_number_and_name_cons (num name : string) (row : Row) (rest : list Row) :
  set_row_ok row →
  scan_number_and_name num name (row :: rest) =
    if number_and_name_match num name row then Ok (Some (row_code row))
    else scan_number_and_name num name rest.
Proof.
  intros Hok.
  destruct (set_row_ok_inv row Hok) as (c0 & c2 & H0 & H2 & Hc0 & Hc2 & Hlink).
  cbn [scan_number_and_name]. unfold index, number_and_name_match.
  rewrite H0, H2, Hc0, Hc2. cbn [res_bind].
  destruct (bool_decide (text c0 = num)); cbn [andb]; [|reflexivity].
  destruct (Py.contains name (text c2)); [|reflexivity].
  rewrite Hlink. reflexivity.
Qed.

Lemma scan_name_cons (name : string) (row : Row) (rest : list Row) :
  set_row_ok row →
  scan_name name (row :: rest) =
    if name_match name row then Ok (Some (row_code row))
    else scan_name name rest.
Proof.
  intros Hok.
  destruct (set_row_ok_inv row Hok) as (c0 & c2 & H0 & H2 & Hc0 & Hc2 & Hlink).
  cbn [scan_name]. unfold index, name_match.
  rewrite H2, Hc2. cbn [res_bind].
  destruct (Py.contains name (text c2)); [|reflexivity].
  rewrite Hlink. reflexivity.
Qed.

(** A loop that returns at the first row passing [test]. *)
Lemma first_hit (scan : list Row → result (option string)) (test : Row → bool) :
  scan [] = Ok None →
  (∀ row rest, set_row_ok row →
     scan (row :: rest) = if test row then Ok (Some (row_code row)) else scan rest) →
  ∀ rows, Forall set_row_ok rows →
    (∀ before row after, rows = before ++ row :: after →
       Forall (λ r, test r = false) before → test row = true →
       scan rows = Ok (Some (row_code row)))
    ∧ (Forall (λ r, test r = false) rows → scan rows = Ok None).
Proof.
  intros Hnil Hcons rows Hok. split.
  - intros before. revert rows Hok.
    induction before as [|b before IH]; intros rows Hok row after -> Hb Hr.
    + cbn [app]. inversion Hok; subst. rewrite Hcons by done. by rewrite Hr.
    + cbn [app]. inversion Hok; subst. inversion Hb; subst.
      rewrite Hcons by done.
      match goal with H : test b = false |- _ => rewrite H end.
      by eapply IH.
  - induction Hok as [|row rest Hrow _ IH]; [done|].
    intros Hall. inversion Hall; subst. rewrite Hcons by done.
    match goal with H : test row = false |- _ => rewrite H end.
    by apply IH.
Qed.

(** [get_mtgp_code] once the two pages are there. *)
Lemma get_mtgp_code_pages (E : Env) (set_code num name : string)
    (soup0 : Soup) (td : Td) (a : Anchor) (soup : Soup) :
  get_mtgp_page E (card_page (set_code +:+ "001")) = Some soup0 →
  find_td_170 soup0 = Some td →
  find_a td = Some a →
  get_mtgp_page E ("https://mtgpics.com/" +:+
                   Py.replace "set?" "set_checklist?" (default "" (href a)))
    = Some soup →
  get_mtgp_code E set_code num name =
    try_except
      (let? hit := scan_number_and_name num name (find_all_rows soup) in
       match hit with
       | Some code => Ok (Some code)
       | None => scan_name name (find_all_rows soup)
       end).
Proof.
  intros H1 H2 H3 H4. unfold get_mtgp_code.
  rewrite H1. cbn [BeautifulSoup res_bind]. rewrite H2.
  cbn [method_of res_bind]. rewrite H3. cbn [method_of res_bind].
  rewrite H4. reflexivity.
Qed.

Lemma mtgp_set_result (E : Env) (self : Self) (st : St) :
  ∃ st1, mtgp_set E self st = (Ok (current_mtgp_set E self st), st1)
    ∧ mtgp_set E self st1 = (Ok (current_mtgp_set E self st), st1)
    ∧ mtgp_code_slot (obj st1) = mtgp_code_slot (obj st).
Proof.
  pose proof (mtgp_set_first_read E self st) as Hfirst.
  pose proof (mtgp_set_later_read E self st) as Hlater.
  unfold current_mtgp_set.
  destruct (mtgp_set_slot (obj st)) as [v|] eqn:Hslot.
  - exists st. rewrite (Hlater v eq_refl). done.
  - specialize (Hfirst eq_refl).
    destruct (resolve_set E (set_ self) (set_name self) (set_type self))
      as [code is_promo].
    eexists. split; [exact Hfirst|]. cbn [fst]. split.
    + unfold mtgp_set, cached, bind, get_obj, ret. reflexivity.
    + by destruct is_promo.
Qed.

Lemma mtgp_set_promo_flag (E : Env) (self : Self) (st : St) :
  ∃ st1, mtgp_set E self st = (Ok (current_mtgp_set E self st), st1)
    ∧ mtgp_set E self st1 = (Ok (current_mtgp_set E self st), st1)
    ∧ mtgp_code_slot (obj st1) = mtgp_code_slot (obj st)
    ∧ _promo (obj st1) = promo_after_set E self st.
Proof.
  pose proof (mtgp_set_first_read E self st) as Hfirst.
  pose proof (mtgp_set_later_read E self st) as Hlater.
  unfold current_mtgp_set, promo_after_set.
  destruct (mtgp_set_slot (obj st)) as [v|] eqn:Hslot.
  - exists st. rewrite (Hlater v eq_refl). done.
  - specialize (Hfirst eq_refl).
    destruct (resolve_set E (set_ self) (set_name self) (set_type self))
      as [code is_promo].
    eexists. split; [exact Hfirst|]. cbn [fst snd]. split_and!.
    + unfold mtgp_set, cached, bind, get_obj, ret. reflexivity.
    + by destruct is_promo.
    + by destruct is_promo.
Qed.

(** What [mtgp_code] computes: the code of the promotional listing when that
    path is taken and yields one, else the code of the set listing, else the
    set code and the number. *)
Lemma mtgp_code_resolution (E : Env) (self : Self) (st : St) (nm : string)
    (by_promo : option string) :
  mtgp_code_slot (obj st) = None →
  mtgp_name self = Ok nm →
  (if takes_promo_path E self st
   then ∃ ar, artist E self = Ok ar
          ∧ by_promo = yields (get_mtgp_code_pmo E nm ar (set_name self)
                                 (current_mtgp_set E self st))
   else by_promo = None) →
  fst (mtgp_code E self st)
  = Ok (match by_promo with
        | Some code => code
        | None =>
            match yields (get_mtgp_code E (current_mtgp_set E self st)
                            (number self) nm) with
            | Some code => code
            | None => set_ self +:+ number self
            end
        end).
Proof.
  intros Hslot Hnm Hpromo.
  destruct (mtgp_set_promo_flag E self st) as (st1 & H1 & H2 & H3 & H4).
  unfold takes_promo_path in Hpromo. rewrite <- H4 in Hpromo.
  set (ms := current_mtgp_set E self st) in *.
  unfold mtgp_code, cached. unfold bind at 1, get_obj. rewrite Hslot.
  unfold bind at 1. unfold bind at 1. rewrite H1.
  assert (Hp : (if Py.truthy ms then promo else ret false) st1
               = (Ok (Py.truthy ms && _promo (obj st1)), st1)).
  { destruct (Py.truthy ms); reflexivity. }
  unfold bind at 1. rewrite Hp.
  assert (Hby : (if Py.truthy ms && _promo (obj st1)
                 then
                   let* nm0 := lift (mtgp_name self) in
                   let* ar0 := lift (artist E self) in
                   let* ms0 := mtgp_set E self in
                   let* r0 := lift (get_mtgp_code_pmo E nm0 ar0 (set_name self) ms0) in
                   ret (nonempty r0)
                 else ret None) st1 = (Ok by_promo, st1)).
  { destruct (Py.truthy ms && _promo (obj st1)); [|by rewrite Hpromo].
    destruct Hpromo as (ar & Har & ->).
    unfold bind, lift, ret. rewrite Hnm, Har, H2.
    destruct (get_mtgp_code_pmo_total E nm ar (set_name self) ms) as [v ->].
    reflexivity. }
  unfold bind at 1. rewrite Hby.
  destruct by_promo as [code|]; [reflexivity|].
  unfold bind, lift, ret. rewrite H2, Hnm.
  destruct (get_mtgp_code_total E ms (number self) nm) as [v ->].
  cbn [yields]. by destruct (nonempty v).
Qed.

(** C7. With the card page and the listing of the set there, and rows that
    have their cells and links: [get_mtgp_code] returns the code of the first
    row whose number equals the collector number and whose name text
    contains the name; when no row passes both tests, the code of the first
    row whose name text contains the name; and none when no row does. And
    when neither path yields a code, [mtgp_code] is the canonical set code
    followed by the collector number; the promotional path counts only where
    the code takes it, so for a card that is not promotional the set listing
    alone decides. *)
Theorem C7_two_passes_then_naive_code (E : Env) :
  (∀ set_code num name soup0 td a soup,
     get_mtgp_page E (card_page (set_code +:+ "001")) = Some soup0 →
     find_td_170 soup0 = Some td →
     find_a td = Some a →
     get_mtgp_page E ("https://mtgpics.com/" +:+
                      Py.replace "set?" "set_checklist?" (default "" (href a)))
       = Some soup →
     Forall set_row_ok (find_all_rows soup) →
     let rows := find_all_rows soup in
     let result := get_mtgp_code E set_code num name in
     (∀ before row after, rows = before ++ row :: after →
        Forall (λ r, number_and_name_match num name r = false) before →
        number_and_name_match num name row = true →
        result = Ok (Some (row_code row)))
     ∧ (Forall (λ r, number_and_name_match num name r = false) rows →
        ∀ before row after, rows = before ++ row :: after →
          Forall (λ r, name_match name r = false) before →
          name_match name row = true →
          result = Ok (Some (row_code row)))
     ∧ (Forall (λ r, name_match name r = false) rows → result = Ok None))
  ∧ (∀ self st nm,
       mtgp_code_slot (obj st) = None →
       mtgp_name self = Ok nm →
       (takes_promo_path E self st = true →
        ∃ ar, artist E self = Ok ar
          ∧ yields (get_mtgp_code_pmo E nm ar (set_name self)
                      (current_mtgp_set E self st)) = None) →
       yields (get_mtgp_code E (current_mtgp_set E self st) (number self) nm)
         = None →
       fst (mtgp_code E self st) = Ok (set_ self +:+ number self))
  ∧ (∀ self st nm,
       mtgp_code_slot (obj st) = None →
       mtgp_name self = Ok nm →
       takes_promo_path E self st = false →
       fst (mtgp_code E self st)
       = Ok (default (set_ self +:+ number self)
               (yields (get_mtgp_code E (current_mtgp_set E self st)
                          (number self) nm)))).
Proof.
  split_and!.
  - intros set_code num name soup0 td a soup H1 H2 H3 H4 Hok rows result.
    unfold result. rewrite (get_mtgp_code_pages _ _ _ _ _ _ _ _ H1 H2 H3 H4).
    fold rows.
    destruct (first_hit (scan_number_and_name num name)
                (number_and_name_match num name) eq_refl
                (scan_number_and_name_cons num name) rows Hok) as [Hhit1 Hmiss1].
    destruct (first_hit (scan_name name) (name_match name) eq_refl
                (scan_name_cons name) rows Hok) as [Hhit2 Hmiss2].
    split_and!.
    + intros before row after Hrows Hb Hr.
      by rewrite (Hhit1 before row after Hrows Hb Hr).
    + intros Hnone before row after Hrows Hb Hr.
      rewrite (Hmiss1 Hnone). cbn [res_bind try_except].
      by rewrite (Hhit2 before row after Hrows Hb Hr).
    + intros Hnone.
      assert (Hnone1 : Forall (λ r, number_and_name_match num name r = false) rows).
      { eapply Forall_impl; [exact Hnone|]. intros r Hr. cbn in Hr.
        unfold number_and_name_match, name_match in *. rewrite Hr.
        apply andb_false_r. }
      rewrite (Hmiss1 Hnone1). cbn [res_bind try_except].
      by rewrite (Hmiss2 Hnone).
  - intros self st nm Hslot Hnm Hpromo Hcode.
    rewrite (mtgp_code_resolution E self st nm None Hslot Hnm).
    + by rewrite Hcode.
    + destruct (takes_promo_path E self st); [|done].
      destruct (Hpromo eq_refl) as (ar & Har & Hy). exists ar. by rewrite Hy.
  - intros self st nm Hslot Hnm Hpromo.
    rewrite (mtgp_code_resolution E self st nm None Hslot Hnm).
    + by destruct (yields _).
    + by rewrite Hpromo.
Qed.

Lemma C7_two_passes_then_naive_code_witness :
  get_mtgp_code m10_site "m10" "181" "Grizzly Bears" = Ok (Some "m10181")
  ∧ get_mtgp_code m10_site "m10" "200" "Grizzly Bears" = Ok (Some "m10181")
  ∧ get_mtgp_code m10_site "m10" "189" "Llanowar Elves" = Ok None
  ∧ fst (mtgp_code m10_site (new m10_site Card llanowar_elves) fresh) = Ok "m10189"
  ∧ (yields (get_mtgp_code_pmo m10_promo_site "Llanowar Elves" "Artist"
               "Magic 2010" "m10") = Some "pmo042"
     ∧ fst (mtgp_code m10_promo_site (new m10_promo_site Card llanowar_elves) fresh)
       = Ok "m10189").
Proof.
  destruct (C7_two_passes_then_naive_code m10_site) as (Hpass & Hnaive & _).
  destruct (C7_two_passes_then_naive_code m10_promo_site) as (_ & Hnaive' & _).
  assert (Hrows : Forall set_row_ok m10_rows).
  { repeat constructor; cbn; try lia; eexists; reflexivity. }
  split_and!.
  - destruct (Hpass "m10" "181" "Grizzly Bears" _ _ _ (listing m10_rows)
                eq_refl eq_refl eq_refl eq_refl Hrows) as (H & _ & _).
    apply (H [set_row "180" "Giant Spider" "m10180"]
             (set_row "181" "Grizzly Bears" "m10181")
             [set_row "181a" "Grizzly Bears (foil)" "m10181a"]).
    + reflexivity.
    + repeat constructor.
    + reflexivity.
  - destruct (Hpass "m10" "200" "Grizzly Bears" _ _ _ (listing m10_rows)
                eq_refl eq_refl eq_refl eq_refl Hrows) as (_ & H & _).
    apply (H ltac:(repeat constructor)
             [set_row "180" "Giant Spider" "m10180"]
             (set_row "181" "Grizzly Bears" "m10181")
             [set_row "181a" "Grizzly Bears (foil)" "m10181a"]).
    + reflexivity.
    + repeat constructor.
    + reflexivity.
  - destruct (Hpass "m10" "189" "Llanowar Elves" _ _ _ (listing m10_rows)
                eq_refl eq_refl eq_refl eq_refl Hrows) as (_ & _ & H).
    apply H. repeat constructor.
  - apply (Hnaive (new m10_site Card llanowar_elves) fresh "Llanowar Elves");
      [reflexivity | reflexivity | intros H; discriminate H | reflexivity].
  - reflexivity.
  - apply (Hnaive' (new m10_promo_site Card llanowar_elves) fresh "Llanowar Elves");
      [reflexivity | reflexivity | intros H; discriminate H | reflexivity].
Defined.

(** ** C8: the download sequence *)

Section Frame.
Context {X : Type} (f : St → X).

Lemma keeps_ret {A} (a : A) : keeps f (ret a).
Proof. by intros st. Qed.
Lemma keeps_raise {A} (e : exn) : keeps f (@raise A e).
Proof. by intros st. Qed.
Lemma keeps_lift {A} (r : result A) : keeps f (lift r).
Proof. by intros st. Qed.
Lemma keeps_get_obj : keeps f get_obj.
Proof. by intros st. Qed.
Lemma keeps_get_world : keeps f get_world.
Proof. by intros st. Qed.

Lemma keeps_modify_obj (g : Obj → Obj) :
  (∀ o w, f {| obj := g o; world := w |} = f {| obj := o; world := w |}) →
  keeps f (modify_obj g).
Proof. intros H [o w]. apply H. Qed.

Lemma keeps_bind {A B} (m : M A) (k : A → M B) :
  keeps f m → (∀ a, keeps f (k a)) → keeps f (bind m k).
Proof.
  intros Hm Hk st. unfold bind. specialize (Hm st).
  destruct (m st) as [[a|e] st1]; cbn [snd] in *; [|done].
  by rewrite Hk.
Qed.

Lemma keeps_cached {A} (slot : Obj → option A) (store : A → Obj → Obj)
    (compute : M A) :
  (∀ v o w, f {| obj := store v o; world := w |} = f {| obj := o; world := w |}) →
  keeps f compute → keeps f (cached slot store compute).
Proof.
  intros Hs Hc. unfold cached.
  apply keeps_bind; [apply keeps_get_obj|]. intros o.
  destruct (slot o); [apply keeps_ret|].
  apply keeps_bind; [exact Hc|]. intros v.
  apply keeps_bind; [apply keeps_modify_obj, Hs|]. intros _.
  apply keeps_ret.
Qed.
End Frame.

Create HintDb frame.
Local Hint Resolve keeps_ret keeps_raise keeps_lift keeps_get_obj
  keeps_get_world : frame.

Ltac frame_step :=
  repeat first
    [ solve [auto with frame]
    | apply keeps_cached; [ reflexivity | ]
    | apply keeps_modify_obj; reflexivity
    | apply keeps_bind; [| intros ? ]
    | match goal with
      | |- keeps _ (if ?b then _ else _) => destruct b
      | |- keeps _ (match ?x with _ => _ end) => destruct x
      end ].

Lemma keeps_world_promo : keeps world promo.
Proof. unfold promo. frame_step. Qed.

Lemma keeps_world_mtgp_set (E : Env) (self : Self) : keeps world (mtgp_set E self).
Proof. unfold mtgp_set, promo_set. frame_step. Qed.

Local Hint Resolve keeps_world_promo keeps_world_mtgp_set : frame.

Lemma keeps_world_mtgp_code (E : Env) (self : Self) : keeps world (mtgp_code E self).
Proof. unfold mtgp_code. frame_step. Qed.

Local Hint Resolve keeps_world_mtgp_code : frame.

Lemma keeps_world_mtgp_url (E : Env) (self : Self) : keeps world (mtgp_url E self).
Proof. unfold mtgp_url. frame_step. Qed.

Lemma keeps_world_mtgp_urls (E : Env) (self : Self) : keeps world (mtgp_urls E self).
Proof. unfold mtgp_urls. frame_step. Qed.

Lemma keeps_generate_path {X} (f : St → X) (E : Env) (self : Self)
    (path name artist : string) :
  keeps f (generate_path E self path name artist).
Proof. unfold generate_path, check_path. frame_step. Qed.

Local Hint Resolve keeps_world_mtgp_url keeps_world_mtgp_urls
  keeps_generate_path : frame.

Lemma keeps_single_path {X} (f : St → X) (E : Env) (self : Self) (root : string) :
  keeps f (single_path E self root).
Proof. unfold single_path. frame_step. Qed.

Lemma keeps_double_paths {X} (f : St → X) (E : Env) (self : Self) (root : string) :
  keeps f (double_paths E self root).
Proof. unfold double_paths. frame_step. Qed.

Local Hint Resolve keeps_single_path keeps_double_paths : frame.

Lemma keeps_world_paths (E : Env) (self : Self) :
  keeps world (mtgp_path E self) ∧ keeps world (scry_path E self)
  ∧ keeps world (mtgp_paths E self) ∧ keeps world (scry_paths E self)
  ∧ keeps world (labels self).
Proof.
  unfold mtgp_path, scry_path, mtgp_paths, scry_paths, labels.
  split_and!; frame_step.
Qed.

Lemma cached_hit {A} (slot : Obj → option A) (store : A → Obj → Obj)
    (compute : M A) (st : St) (v : A) :
  slot (obj st) = Some v → cached slot store compute st = (Ok v, st).
Proof. intros H. unfold cached, bind, get_obj. by rewrite H. Qed.

Lemma cached_stores {A} (slot : Obj → option A) (store : A → Obj → Obj)
    (compute : M A) (st st' : St) (v : A) :
  (∀ v o, slot (store v o) = Some v) →
  cached slot store compute st = (Ok v, st') →
  slot (obj st') = Some v.
Proof.
  intros Hs. unfold cached, bind at 1, get_obj.
  destruct (slot (obj st)) as [v0|] eqn:Hslot.
  - intros H. injection H as <- <-. exact Hslot.
  - unfold bind, modify_obj, ret.
    destruct (compute st) as [[a|e] st1]; intros H; [|discriminate H].
    injection H as <- <-. apply Hs.
Qed.

Lemma download_mtgp_fails (E : Env) (url : option string) (path label : string)
    (st : St) :
  primary_ok E url path = false →
  download_mtgp E url path label st = (Ok false, st).
Proof.
  unfold primary_ok, download_mtgp. destruct url as [u|]; [|done].
  destruct (usable (Some u) path); [|done].
  cbn [andb]. by intros ->.
Qed.

Lemma download_scryfall_succeeds (E : Env) (url path label : string) (st : St) :
  fallback_ok E url path = true →
  download_scryfall E (Some url) path label st
  = (Ok true, {| obj := obj st;
                 world := print (Scryfall label) (save_file path (world st)) |}).
Proof.
  unfold fallback_ok, download_scryfall. intros [Hu Hg]%andb_true_iff.
  rewrite Hu, Hg. reflexivity.
Qed.

Lemma Card_download_fallback (E : Env) (self : Self) (st st1 st2 st3 : St)
    (u : option string) (p l sp : string) :
  Cfg.only_scryfall (cfg E) = false →
  Cfg.download_scryfall (cfg E) = true →
  mtgp_url E self st = (Ok u, st1) →
  mtgp_path E self st1 = (Ok p, st2) →
  label self = Ok l →
  primary_ok E u p = false →
  scry_path E self st2 = (Ok sp, st3) →
  fallback_ok E (scry_url E self) sp = true →
  Card_download E self true st
  = (Ok [(false, l, sp)],
     {| obj := obj st3; world := after_fallback l sp (world st) |}).
Proof.
  intros Honly Hfb Hurl Hpath Hl Hprim Hspath Hscry.
  assert (Hw : world st3 = world st).
  { destruct (keeps_world_paths E self) as (Hmp & Hsp & _).
    pose proof (Hsp st2) as H3. rewrite Hspath in H3.
    pose proof (Hmp st1) as H2. rewrite Hpath in H2.
    pose proof (keeps_world_mtgp_url E self st) as H1. rewrite Hurl in H1.
    cbn [snd] in *. congruence. }
  assert (Hslot : scry_path_slot (obj st3) = Some sp).
  { eapply (cached_stores scry_path_slot store_scry_path); [done|exact Hspath]. }
  unfold Card_download. rewrite Honly, Hfb.
  unfold bind at 1. rewrite Hurl.
  unfold bind at 1. rewrite Hpath.
  unfold bind at 1, lift at 1. rewrite Hl.
  unfold bind at 1. rewrite (download_mtgp_fails _ _ _ _ _ Hprim).
  cbn [negb].
  unfold bind at 1. unfold bind at 1. rewrite Hspath.
  unfold bind at 1, lift at 1.
  rewrite (download_scryfall_succeeds _ _ _ _ _ Hscry).
  cbn [andb]. unfold bind at 1. unfold bind at 1, lift at 1.
  unfold log_failed, bind at 1, modify_world at 1. cbn [obj world].
  unfold ret at 1. unfold bind at 1, lift at 1.
  unfold bind at 1, scry_path.
  rewrite (cached_hit _ _ _ _ sp) by exact Hslot.
  unfold ret, after_fallback. rewrite Hw. reflexivity.
Qed.

Lemma keeps_scry_paths {X} (f : St → X) (E : Env) (self : Self) :
  (∀ v o w, f {| obj := store_scry_paths v o; world := w |}
            = f {| obj := o; world := w |}) →
  keeps f (scry_paths E self).
Proof. intros H. unfold scry_paths. apply keeps_cached; [exact H|]. frame_step. Qed.

Lemma keeps_labels {X} (f : St → X) (self : Self) :
  (∀ v o w, f {| obj := store_labels v o; world := w |}
            = f {| obj := o; world := w |}) →
  keeps f (labels self).
Proof. intros H. unfold labels. apply keeps_cached; [exact H|]. frame_step. Qed.

Lemma MDFC_step_fallback (E : Env) (self : Self) (logging : bool) (i : nat)
    (scry_url : string) (st st1 st2 st3 st4 : St)
    (us : list (option string)) (ps ls sps : list string)
    (u : option string) (p l sp : string) :
  Cfg.download_scryfall (cfg E) = true →
  mtgp_urls E self st = (Ok us, st1) → us !! i = Some u →
  mtgp_paths E self st1 = (Ok ps, st2) → ps !! i = Some p →
  labels self st2 = (Ok ls, st3) → ls !! i = Some l →
  primary_ok E u p = false →
  scry_paths E self st3 = (Ok sps, st4) → sps !! i = Some sp →
  fallback_ok E scry_url sp = true →
  MDFC_step E self logging i scry_url st
  = (Ok (false, l, p),
     {| obj := obj st4; world := after_fallback l sp (world st) |}).
Proof.
  intros Hfb Hus Hu Hps Hp Hls Hl Hprim Hsps Hsp Hscry.
  destruct (keeps_world_paths E self) as (_ & _ & Hk2 & Hk4 & Hk3).
  assert (Hw : world st4 = world st).
  { pose proof (Hk4 st3) as H4. rewrite Hsps in H4.
    pose proof (Hk3 st2) as H3. rewrite Hls in H3.
    pose proof (Hk2 st1) as H2. rewrite Hps in H2.
    pose proof (keeps_world_mtgp_urls E self st) as H1. rewrite Hus in H1.
    cbn [snd] in *. congruence. }
  assert (Hls3 : labels_slot (obj st3) = Some ls).
  { eapply (cached_stores labels_slot store_labels); [done|exact Hls]. }
  assert (Hls4 : labels_slot (obj st4) = Some ls).
  { pose proof (keeps_scry_paths (λ s, labels_slot (obj s)) E self
                  ltac:(reflexivity) st3) as H.
    rewrite Hsps in H. cbn [snd] in H. congruence. }
  assert (Hps2 : mtgp_paths_slot (obj st2) = Some ps).
  { eapply (cached_stores mtgp_paths_slot store_mtgp_paths); [done|exact Hps]. }
  assert (Hps4 : mtgp_paths_slot (obj st4) = Some ps).
  { pose proof (keeps_scry_paths (λ s, mtgp_paths_slot (obj s)) E self
                  ltac:(reflexivity) st3) as H4.
    pose proof (keeps_labels (λ s, mtgp_paths_slot (obj s)) self
                  ltac:(reflexivity) st2) as H3.
    rewrite Hsps in H4. rewrite Hls in H3. cbn [snd] in *. congruence. }
  assert (Hidx : ∀ {A} (xs : list A) x, xs !! i = Some x → index xs i = Ok x).
  { intros A xs x Hx. unfold index. by rewrite Hx. }
  unfold MDFC_step. rewrite Hfb.
  unfold bind at 1. rewrite Hus.
  unfold bind at 1, lift at 1. rewrite (Hidx _ _ _ Hu).
  unfold bind at 1. rewrite Hps.
  unfold bind at 1, lift at 1. rewrite (Hidx _ _ _ Hp).
  unfold bind at 1. rewrite Hls.
  unfold bind at 1, lift at 1. rewrite (Hidx _ _ _ Hl).
  unfold bind at 1. rewrite (download_mtgp_fails _ _ _ _ _ Hprim).
  cbn [negb].
  assert (Hlabels : ∀ w, labels self {| obj := obj st4; world := w |}
                         = (Ok ls, {| obj := obj st4; world := w |})).
  { intros w. unfold labels. by apply cached_hit. }
  assert (Hpaths : ∀ w, mtgp_paths E self {| obj := obj st4; world := w |}
                        = (Ok ps, {| obj := obj st4; world := w |})).
  { intros w. unfold mtgp_paths. by apply cached_hit. }
  assert (Hlabels3 : labels self st3 = (Ok ls, st3)).
  { unfold labels. by apply cached_hit. }
  assert (Hlabels4 : labels self st4 = (Ok ls, st4)).
  { unfold labels. by apply cached_hit. }
  unfold bind at 1. unfold bind at 1. unfold bind at 1. rewrite Hsps.
  unfold bind at 1, lift at 1. rewrite (Hidx _ _ _ Hsp).
  unfold bind at 1. rewrite Hlabels4.
  unfold bind at 1, lift at 1. rewrite (Hidx _ _ _ Hl).
  rewrite (download_scryfall_succeeds _ _ _ _ _ Hscry).
  unfold bind at 1. rewrite Hlabels.
  unfold bind at 1, lift at 1. rewrite (Hidx _ _ _ Hl).
  unfold log_failed, bind at 1, modify_world at 1. cbn [obj world].
  unfold ret at 1.
  unfold bind at 1. rewrite Hlabels.
  unfold bind at 1, lift at 1. rewrite (Hidx _ _ _ Hl).
  unfold bind at 1. rewrite Hpaths.
  unfold bind at 1, lift at 1. rewrite (Hidx _ _ _ Hp).
  unfold ret, after_fallback. rewrite Hw. reflexivity.
Qed.

Lemma bind_ok_inv {A B} (m : M A) (k : A → M B) (st st' : St) (b : B) :
  bind m k st = (Ok b, st') →
  ∃ a st1, m st = (Ok a, st1) ∧ k a st1 = (Ok b, st').
Proof.
  unfold bind. destruct (m st) as [[a|e] st1]; [|discriminate].
  intros H. by exists a, st1.
Qed.

Lemma MDFC_loop_faces_run (step : nat → string → M DownloadResult)
    (urls : list string) :
  ∀ i acc st rs st',
    MDFC_loop step i urls acc st = (Ok rs, st')
    ↔ ∃ rs', rs = acc ++ rs' ∧ faces_run step i urls st rs' st'.
Proof.
  induction urls as [|url rest IH]; intros i acc st rs st'; cbn [MDFC_loop].
  - unfold ret. split.
    + intros [= <- <-]. exists []. split; [by rewrite app_nil_r | constructor].
    + intros (rs' & -> & Hrun). inversion Hrun; subst. by rewrite app_nil_r.
  - split.
    + intros (r & st1 & Hstep & Hloop)%bind_ok_inv.
      apply IH in Hloop as (rs' & -> & Hrun). exists (r :: rs').
      split; [by rewrite <- app_assoc | by econstructor].
    + intros (rs' & -> & Hrun). inversion Hrun as [|? ? ? ? st1 ? r rs0 Hstep Hrest]; subst.
      unfold bind. rewrite Hstep. apply IH. exists rs0.
      split; [by rewrite <- app_assoc | done].
Qed.

(** The turn of the face at index [i]: the state it starts in is the one the
    earlier faces left, and its result is the entry at index [i]. *)
Lemma faces_run_nth (step : nat → string → M DownloadResult) (i0 : nat)
    (urls : list string) (st st' : St) (rs : list DownloadResult) :
  faces_run step i0 urls st rs st' →
  length rs = length urls
  ∧ ∀ i url, urls !! i = Some url →
      ∃ si si' r,
        faces_run step i0 (take i urls) st (take i rs) si
        ∧ step (i0 + i) url si = (Ok r, si')
        ∧ rs !! i = Some r
        ∧ faces_run step (S (i0 + i)) (drop (S i) urls) si' (drop (S i) rs) st'.
Proof.
  induction 1 as [i0 st|i0 u rest st st1 st' r rs Hstep Hrun [IHlen IH]].
  - split; [done|]. intros i url H. by rewrite lookup_nil in H.
  - split; [cbn; by rewrite IHlen|]. intros [|i] url Hurl.
    + injection Hurl as ->. exists st, st1, r. rewrite Nat.add_0_r.
      split_and!; [constructor | done | done | done].
    + destruct (IH i url Hurl) as (si & si' & r' & Hpre & Hs & Hnth & Hpost).
      exists si, si', r'. replace (i0 + S i) with (S i0 + i) by lia.
      split_and!; [by econstructor | done | done | done].
Qed.

Lemma log_grows_refl (w : World) : log_grows w w.
Proof. by split. Qed.

Lemma log_grows_trans (w1 w2 w3 : World) :
  log_grows w1 w2 → log_grows w2 w3 → log_grows w1 w3.
Proof. intros [? ?] [? ?]. split; by etrans. Qed.

Lemma grows_keeps {A} (m : M A) : keeps world m → grows m.
Proof. intros H st. rewrite H. apply log_grows_refl. Qed.

Lemma grows_bind {A B} (m : M A) (k : A → M B) :
  grows m → (∀ a, grows (k a)) → grows (bind m k).
Proof.
  intros Hm Hk st. unfold bind. specialize (Hm st).
  destruct (m st) as [[a|e] st1]; cbn [snd] in *; [|done].
  eapply log_grows_trans; [exact Hm | apply Hk].
Qed.

Lemma grows_modify_world (g : World → World) :
  (∀ w, log_grows w (g w)) → grows (modify_world g).
Proof. intros H st. apply H. Qed.

Lemma log_grows_print (line : ConsoleLine) (w : World) : log_grows w (print line w).
Proof. split; [done | by apply prefix_app_r]. Qed.
Lemma log_grows_write_failed (l : string) (w : World) :
  log_grows w (write_failed l w).
Proof. split; [by apply prefix_app_r | done]. Qed.
Lemma log_grows_save_file (p : string) (w : World) : log_grows w (save_file p w).
Proof. by split. Qed.

Ltac grows_step :=
  repeat first
    [ apply grows_keeps; solve [auto with frame]
    | apply grows_modify_world;
      first [ apply log_grows_print | apply log_grows_write_failed
            | apply log_grows_save_file ]
    | apply grows_bind; [| intros ? ]
    | match goal with
      | |- grows (if ?b then _ else _) => destruct b
      | |- grows (match ?x with _ => _ end) => destruct x
      end ].

Lemma grows_download_mtgp (E : Env) (u : option string) (p l : string) :
  grows (download_mtgp E u p l).
Proof. unfold download_mtgp, log_mtgp. grows_step. Qed.

Lemma grows_download_scryfall (E : Env) (u : option string) (p l : string) :
  grows (download_scryfall E u p l).
Proof. unfold download_scryfall, log_scryfall. grows_step. Qed.

Lemma grows_log_failed (l : string) (po wl : bool) (action : string) :
  grows (log_failed l po wl action).
Proof. unfold log_failed. grows_step. Qed.

Lemma grows_MDFC_step (E : Env) (self : Self) (logging : bool) (i : nat)
    (url : string) :
  grows (MDFC_step E self logging i url).
Proof.
  destruct (keeps_world_paths E self) as (_ & _ & Hk2 & Hk4 & Hk3).
  pose proof (keeps_world_mtgp_urls E self) as Hk1.
  unfold MDFC_step.
  repeat first
    [ apply grows_keeps; first [ assumption | solve [auto with frame] ]
    | apply grows_download_mtgp | apply grows_download_scryfall
    | apply grows_log_failed
    | apply grows_bind; [| intros ? ]
    | match goal with
      | |- grows (if ?b then _ else _) => destruct b
      end ].
Qed.

Lemma faces_run_grows (E : Env) (self : Self) (logging : bool) (i0 : nat)
    (urls : list string) (st st' : St) (rs : list DownloadResult) :
  faces_run (MDFC_step E self logging) i0 urls st rs st' →
  log_grows (world st) (world st').
Proof.
  induction 1 as [|i0 u rest st st1 st' r rs Hstep _ IH]; [apply log_grows_refl|].
  eapply log_grows_trans; [|exact IH].
  pose proof (grows_MDFC_step E self logging i0 u st) as H.
  by rewrite Hstep in H.
Qed.

(** C8. With the fallback source enabled and the run not restricted to it:
    when the primary download of a face fails and the Scryfall download
    then succeeds, the label of the face is appended to the failure log and
    the console gets the line of the Scryfall download and no failure line;
    the result of the face has success [false], with the Scryfall path for
    a single-faced card (logging on) and with the MTGP path of the face for
    a multi-faced card. For a multi-faced card the returned list holds, at
    the index of each face, the result of the turn of that face, run in the
    state the earlier faces left; the log of that turn stays in the log of
    the whole download. *)
Theorem C8_primary_failure_logged_quietly (E : Env) (self : Self) :
  Cfg.only_scryfall (cfg E) = false →
  Cfg.download_scryfall (cfg E) = true →
  (is_mdfc (cls self) = false →
   ∀ st st1 st2 st3 u p l sp,
     mtgp_url E self st = (Ok u, st1) →
     mtgp_path E self st1 = (Ok p, st2) →
     label self = Ok l →
     primary_ok E u p = false →
     scry_path E self st2 = (Ok sp, st3) →
     fallback_ok E (scry_url E self) sp = true →
     download E self true st
     = (Ok [(false, l, sp)],
        {| obj := obj st3; world := after_fallback l sp (world st) |}))
  ∧ (is_mdfc (cls self) = true →
     ∀ logging st rs st',
       (download E self logging st = (Ok rs, st')
        ↔ faces_run (MDFC_step E self logging) 0 (scry_urls E self) st rs st')
       ∧ (download E self logging st = (Ok rs, st') →
          length rs = length (scry_urls E self)
          ∧ ∀ i url, scry_urls E self !! i = Some url →
              ∃ si si' r,
                faces_run (MDFC_step E self logging) 0
                  (take i (scry_urls E self)) st (take i rs) si
                ∧ MDFC_step E self logging i url si = (Ok r, si')
                ∧ rs !! i = Some r
                ∧ log_grows (world si') (world st')
                ∧ ∀ s1 s2 s3 s4 us ps ls sps u p l sp,
                    mtgp_urls E self si = (Ok us, s1) → us !! i = Some u →
                    mtgp_paths E self s1 = (Ok ps, s2) → ps !! i = Some p →
                    labels self s2 = (Ok ls, s3) → ls !! i = Some l →
                    primary_ok E u p = false →
                    scry_paths E self s3 = (Ok sps, s4) → sps !! i = Some sp →
                    fallback_ok E url sp = true →
                    r = (false, l, p)
                    ∧ world si' = after_fallback l sp (world si)
                    ∧ l ∈ failed_log (world st')))
  ∧ (∀ logging i scry_url st st1 st2 st3 st4 us ps ls sps u p l sp,
       mtgp_urls E self st = (Ok us, st1) → us !! i = Some u →
       mtgp_paths E self st1 = (Ok ps, st2) → ps !! i = Some p →
       labels self st2 = (Ok ls, st3) → ls !! i = Some l →
       primary_ok E u p = false →
       scry_paths E self st3 = (Ok sps, st4) → sps !! i = Some sp →
       fallback_ok E scry_url sp = true →
       MDFC_step E self logging i scry_url st
       = (Ok (false, l, p),
          {| obj := obj st4; world := after_fallback l sp (world st) |}))
  ∧ (∀ l sp w,
       failed_log (after_fallback l sp w) = failed_log w ++ [l]
       ∧ console (after_fallback l sp w) = console w ++ [Scryfall l]).
Proof.
  intros Honly Hfb. split_and!.
  - intros Hcls st st1 st2 st3 u p l sp H1 H2 H3 H4 H5 H6.
    unfold download. rewrite Hcls.
    by eapply Card_download_fallback.
  - intros Hcls logging st rs st'.
    assert (Hrun : download E self logging st = (Ok rs, st')
                   ↔ faces_run (MDFC_step E self logging) 0 (scry_urls E self)
                       st rs st').
    { unfold download, MDFC_download. rewrite Hcls, Honly.
      rewrite MDFC_loop_faces_run. split.
      - by intros (rs' & -> & H).
      - intros H. by exists rs. }
    split; [exact Hrun|]. intros Hd. apply Hrun in Hd.
    destruct (faces_run_nth _ _ _ _ _ _ Hd) as [Hlen Hnth].
    split; [exact Hlen|]. intros i url Hurl.
    destruct (Hnth i url Hurl) as (si & si' & r & Hpre & Hstep & Hr & Hpost).
    exists si, si', r. cbn [Nat.add] in Hstep.
    pose proof (faces_run_grows _ _ _ _ _ _ _ _ Hpost) as Hgrow.
    split_and!; [done..|].
    intros s1 s2 s3 s4 us ps ls sps u p l sp Hus Hu Hps Hp Hls Hl Hprim Hsps Hsp Hscry.
    pose proof (MDFC_step_fallback E self logging i url si s1 s2 s3 s4
                  us ps ls sps u p l sp Hfb Hus Hu Hps Hp Hls Hl Hprim
                  Hsps Hsp Hscry) as Heq.
    rewrite Hstep in Heq. injection Heq as -> ->. cbn [world].
    split_and!; [done | done |].
    destruct Hgrow as [Hlog _]. cbn [world] in Hlog.
    eapply elem_of_prefix; [|exact Hlog].
    unfold after_fallback, write_failed. cbn [failed_log].
    apply elem_of_app. right. by apply list_elem_of_singleton.
  - intros. by eapply MDFC_step_fallback.
  - intros l sp w. split; reflexivity.
Qed.

Lemma C8_primary_failure_logged_quietly_witness :
  (∃ o, download scryfall_only_site (new scryfall_only_site Card bears_with_art)
          true fresh
        = (Ok [(false, "Grizzly Bears (M10) 181",
                "out/scry/normal/Grizzly Bears (Jeff A. Menges) [M10].jpg")],
           {| obj := o;
              world := after_fallback "Grizzly Bears (M10) 181"
                         "out/scry/normal/Grizzly Bears (Jeff A. Menges) [M10].jpg"
                         empty_world |}))
  ∧ (∃ rs st',
       download scryfall_only_site (new scryfall_only_site MDFC valki_with_art)
         true fresh = (Ok rs, st')
       ∧ rs !! 1
         = Some (false, "Tibalt, Cosmic Impostor (KHM) 114",
                 "out/mtgp/normal/Tibalt, Cosmic Impostor (Yongjae Choi) [KHM].jpg")
       ∧ "Tibalt, Cosmic Impostor (KHM) 114" ∈ failed_log (world st')).
Proof.
  pose proof (C8_primary_failure_logged_quietly scryfall_only_site
                (new scryfall_only_site Card bears_with_art) eq_refl eq_refl)
    as (Hsingle & _).
  pose proof (C8_primary_failure_logged_quietly scryfall_only_site
                (new scryfall_only_site MDFC valki_with_art) eq_refl eq_refl)
    as (_ & Hmulti & _).
  split.
  - eexists. eapply (Hsingle eq_refl fresh); try (vm_compute; reflexivity).
  - destruct (download scryfall_only_site
                (new scryfall_only_site MDFC valki_with_art) true fresh)
      as [[rs|e] st'] eqn:Hd; [|vm_compute in Hd; discriminate Hd].
    exists rs, st'. split; [reflexivity|].
    destruct (Hmulti eq_refl true fresh rs st') as [_ Hfaces].
    destruct (Hfaces Hd) as [_ Hnth].
    destruct (Hnth 1 "https://cards.scryfall.io/khm/114b/art_crop.jpg" eq_refl)
      as (si & si' & r & Hpre & Hstep & Hr & Hgrow & Hcase).
    assert (Hsi : MDFC_loop
                    (MDFC_step scryfall_only_site
                       (new scryfall_only_site MDFC valki_with_art) true) 0
                    (take 1 (scry_urls scryfall_only_site
                               (new scryfall_only_site MDFC valki_with_art)))
                    [] fresh
                  = (Ok (take 1 rs), si)).
    { apply MDFC_loop_faces_run. exists (take 1 rs). by split. }
    vm_compute in Hsi. injection Hsi as _ <-.
    edestruct Hcase as (Heq & _ & Hin); [vm_compute; reflexivity..|].
    rewrite Heq in Hr. split; [exact Hr | exact Hin].
Defined.

(** ** C9: numbered paths *)

Lemma append_cons (ch : ascii) (a b : string) :
  String ch a +:+ b = String ch (a +:+ b).
Proof. reflexivity. Qed.

Lemma append_nil_l (b : string) : "" +:+ b = b.
Proof. reflexivity. Qed.

Lemma append_assoc (a b c : string) : (a +:+ b) +:+ c = a +:+ (b +:+ c).
Proof.
  induction a as [|ch a IH]; [reflexivity|].
  rewrite !append_cons. by rewrite IH.
Qed.

Lemma prefix_split (old s : string) :
  String.prefix old s = true → ∃ rest, s = old +:+ rest.
Proof.
  revert s. induction old as [|a old IH]; intros s H.
  { exists s. reflexivity. }
  destruct s as [|b s]; [discriminate H|]. cbn in H.
  destruct (ascii_dec a b) as [->|]; [|discriminate H].
  destruct (IH s H) as [rest ->]. by exists rest.
Qed.

Lemma replace_go_skip (old new t rest : string) :
  Py.replace_go old new (String.length t) (t +:+ rest)
  = Py.replace_go old new 0 rest.
Proof.
  induction t as [|ch t IH]; [reflexivity|].
  rewrite append_cons. cbn [String.length Py.replace_go]. exact IH.
Qed.

(** The first occurrence of a non-empty [old] is where the replacement
    starts. *)
Lemma replace_first (a : ascii) (o s : string) :
  Py.contains (String a o) s = true →
  ∃ pre rest, s = pre +:+ String a o +:+ rest
    ∧ ∀ new, Py.replace (String a o) new s
             = pre +:+ new +:+ Py.replace (String a o) new rest.
Proof.
  unfold Py.replace. induction s as [|ch s IH]; intros H.
  { cbn in H. discriminate H. }
  cbn [Py.contains] in H.
  destruct (String.prefix (String a o) (String ch s)) eqn:Hpre.
  - destruct (prefix_split _ _ Hpre) as [rest Hrest].
    rewrite append_cons in Hrest. injection Hrest as -> ->.
    exists "", rest. split; [reflexivity|]. intros new.
    cbn [Py.replace_go]. rewrite Hpre.
    cbn [String.length].
    replace (S (String.length o) - 1) with (String.length o) by lia.
    by rewrite replace_go_skip.
  - cbn [orb] in H. destruct (IH H) as (pre & rest & -> & Hrep).
    exists (String ch pre), rest. split; [reflexivity|]. intros new.
    cbn [Py.replace_go]. rewrite Hpre. by rewrite Hrep.
Qed.

Lemma digits_of_length (t : string) :
  String.length (Py.digits_of t) ≤ String.length t.
Proof.
  induction t as [|c t IHt]; cbn; [lia|]. destruct (Py.isdigit c); cbn; lia.
Qed.

Lemma all_digits_cons (ch : ascii) (s : string) :
  all_digits (String ch s) → Py.isdigit ch = true ∧ all_digits s.
Proof.
  unfold all_digits. cbn. destruct (Py.isdigit ch).
  - intros H. by injection H.
  - intros H. apply (f_equal String.length) in H.
    pose proof (digits_of_length s). cbn in H. lia.
Qed.

Lemma str_uint_digits (d : Decimal.uint) :
  all_digits (NilEmpty.string_of_uint d).
Proof.
  unfold all_digits. induction d; cbn; [reflexivity|..]; by rewrite IHd.
Qed.

Lemma str_digits (n : nat) : all_digits (Py.str n).
Proof. apply str_uint_digits. Qed.

Lemma str_inj (i j : nat) : Py.str i = Py.str j → i = j.
Proof.
  unfold Py.str. intros H.
  assert (Hu : Nat.to_uint i = Nat.to_uint j).
  { apply (f_equal NilEmpty.uint_of_string) in H.
    rewrite !NilEmpty.usu in H. by injection H. }
  apply (f_equal Nat.of_uint) in Hu.
  by rewrite !DecimalNat.Unsigned.of_to in Hu.
Qed.

(** Two runs of digits closed by the same non-digit are equal. *)
Lemma digits_then_paren (d1 d2 x y : string) :
  all_digits d1 → all_digits d2 →
  d1 +:+ String ")" x = d2 +:+ String ")" y → d1 = d2.
Proof.
  revert d2.
  induction d1 as [|a d1 IH]; intros [|b d2] H1 H2 H; try reflexivity.
  - rewrite append_nil_l, append_cons in H. injection H as <- _.
    apply all_digits_cons in H2 as [H2 _]. discriminate H2.
  - rewrite append_nil_l, append_cons in H. injection H as -> _.
    apply all_digits_cons in H1 as [H1 _]. discriminate H1.
  - rewrite !append_cons in H. injection H as -> H.
    apply all_digits_cons in H1 as [_ H1].
    apply all_digits_cons in H2 as [_ H2].
    f_equal. by apply IH.
Qed.

(** The names [check_path] tries are pairwise distinct when the path has a
    [".jpg"] in it. *)
Lemma candidate_inj (path : string) (i j : nat) :
  Py.contains ".jpg" path = true →
  candidate path i = candidate path j → i = j.
Proof.
  intros Hc.
  destruct (replace_first "." "jpg" path Hc) as (pre & rest & Hpath & Hrep).
  assert (Hnum : ∀ k, numbered path k
            = pre +:+ String " " (String "(" (Py.str k +:+
                String ")" (".jpg" +:+ Py.replace ".jpg"
                  (" (" +:+ Py.str k +:+ ").jpg") rest)))).
  { intros k. unfold numbered. rewrite Hrep. f_equal.
    rewrite !append_assoc. reflexivity. }
  assert (Hne : ∀ k, path ≠ numbered path k).
  { intros k H. rewrite Hnum in H. rewrite Hpath in H at 1.
    apply String.app_inj in H. rewrite append_cons in H. discriminate H. }
  destruct i as [|i], j as [|j]; cbn [candidate]; intros H.
  - reflexivity.
  - by apply Hne in H.
  - symmetry in H. by apply Hne in H.
  - rewrite !Hnum in H. apply String.app_inj in H.
    injection H as H. apply digits_then_paren in H; [| apply str_digits ..].
    by apply str_inj.
Qed.

Lemma check_path_loop_spec (fuel : nat) (fs : gset string) (path : string) (i : nat) :
  match check_path_loop fuel fs path i (candidate path i) with
  | Some p =>
      ∃ k, i ≤ k ∧ p = candidate path k ∧ (candidate path k ∉ fs)
           ∧ ∀ j, i ≤ j < k → candidate path j ∈ fs
  | None => ∀ j, i ≤ j < i + fuel → candidate path j ∈ fs
  end.
Proof.
  revert i. induction fuel as [|n IH]; intros i; cbn [check_path_loop].
  { intros j Hj. lia. }
  destruct (bool_decide_reflect (candidate path i ∈ fs)) as [Hin|Hout].
  - change (numbered path (S i)) with (candidate path (S i)).
    specialize (IH (S i)).
    destruct (check_path_loop n fs path (S i) (candidate path (S i))) as [p|].
    + destruct IH as (k & Hk & -> & Hfree & Hbusy).
      exists k. split; [lia|]. split; [done|]. split; [done|].
      intros j Hj. destruct (decide (j = i)) as [->|]; [done|]. apply Hbusy. lia.
    + intros j Hj. destruct (decide (j = i)) as [->|]; [done|]. apply IH. lia.
  - exists i. split; [lia|]. split; [done|]. split; [done|]. intros j Hj. lia.
Qed.

(** More distinct names than files cannot all be taken. *)
Lemma some_candidate_free (fs : gset string) (path : string) :
  Py.contains ".jpg" path = true →
  ¬ ∀ j, 0 ≤ j < 0 + S (size fs) → candidate path j ∈ fs.
Proof.
  intros Hc Hall.
  set (l := candidate path <$> seq 0 (S (size fs))).
  assert (Hnd : NoDup l).
  { apply NoDup_fmap_2_strong; [|apply NoDup_seq].
    intros x y _ _ Hxy. by eapply candidate_inj. }
  assert (Hsub : l ⊆+ elements fs).
  { apply NoDup_submseteq; [exact Hnd|]. intros x Hx.
    apply list_elem_of_fmap in Hx as (j & -> & Hj).
    apply elem_of_seq in Hj. apply elem_of_elements, Hall. lia. }
  apply submseteq_length in Hsub.
  unfold l in Hsub. rewrite length_fmap, length_seq in Hsub.
  unfold size, set_size in Hsub. cbn in Hsub. lia.
Qed.

(** [check_path] ends on the first free name, whatever the files are. *)
Lemma check_path_least (path : string) (st : St) :
  Py.contains ".jpg" path = true →
  ∃ k, check_path path st = (Ok (candidate path k), st)
    ∧ (candidate path k ∉ files (world st))
    ∧ ∀ j, j < k → candidate path j ∈ files (world st).
Proof.
  intros Hc. unfold check_path, bind, get_world.
  pose proof (check_path_loop_spec (S (size (files (world st))))
                (files (world st)) path 0) as H.
  change (candidate path 0) with path in H.
  destruct (check_path_loop _ _ path 0 path) as [p|].
  - destruct H as (k & _ & -> & Hfree & Hbusy).
    exists k. split; [reflexivity|]. split; [done|].
    intros j Hj. apply Hbusy. lia.
  - by apply some_candidate_free in H.
Qed.

Lemma contains_app_r (sub x y : string) :
  Py.contains sub y = true → Py.contains sub (x +:+ y) = true.
Proof.
  intros H. induction x as [|ch x IH]; [exact H|].
  rewrite append_cons. cbn [Py.contains]. rewrite IH. apply orb_true_r.
Qed.

Lemma contains_join (sub a b : string) :
  Py.contains sub b = true → Py.contains sub (Py.join a b) = true.
Proof.
  intros H. unfold Py.join.
  destruct (String.prefix "/" b); [exact H|].
  destruct (negb (Py.truthy a) || Py.ends_with_slash a).
  - by apply contains_app_r.
  - apply contains_app_r. by apply (contains_app_r sub "/").
Qed.

Lemma append_nil_r (a : string) : a +:+ "" = a.
Proof. induction a as [|ch a IH]; [reflexivity|]. rewrite append_cons. by rewrite IH. Qed.

Lemma prefix_jpg_boundary (ch : ascii) (s : string) :
  String.prefix ".jpg" (String ch s) = false →
  String.prefix ".jpg" (String ch (s +:+ ".jpg")) = false.
Proof.
  destruct s as [|a [|b [|d s]]];
    rewrite ?append_cons, ?append_nil_l; cbn [String.prefix];
    repeat (destruct (ascii_dec _ _); try done).
  intros H. destruct s; discriminate H.
Qed.

(** When [".jpg"] is nowhere but at the end, replacing it replaces the end. *)
Lemma replace_extension (stem new : string) :
  Py.contains ".jpg" stem = false →
  Py.replace ".jpg" new (stem +:+ ".jpg") = stem +:+ new.
Proof.
  unfold Py.replace. induction stem as [|ch stem IH]; intros H.
  { rewrite !append_nil_l. cbn. apply append_nil_r. }
  cbn [Py.contains] in H. apply orb_false_iff in H as [Hp Hc].
  rewrite !append_cons. cbn [Py.replace_go].
  rewrite (prefix_jpg_boundary _ _ Hp). by rewrite IH.
Qed.

(** C9. Without the overwrite flag [generate_path] returns the first of the
    names "intended path, numbered 1, numbered 2, ..." at which there is no
    file, every earlier name being taken; with the flag it returns the
    intended path. The number is written [" (i)"] before the extension of a
    path that has [".jpg"] only as its extension. With a file [Card.jpg]
    the first request gives [Card (1).jpg] and, once that file exists, the
    second gives [Card (2).jpg]. *)
Theorem C9_generate_path_first_free (E : Env) (self : Self)
    (dir name artist : string) (st : St) :
  let intended := intended_path E self dir name artist in
  (Cfg.overwrite (cfg E) = false →
   ∃ k, generate_path E self dir name artist st = (Ok (candidate intended k), st)
     ∧ (candidate intended k ∉ files (world st))
     ∧ ∀ j, j < k → candidate intended j ∈ files (world st))
  ∧ (Cfg.overwrite (cfg E) = true →
     generate_path E self dir name artist st = (Ok intended, st))
  ∧ (∀ stem i, Py.contains ".jpg" stem = false →
       candidate (stem +:+ ".jpg") (S i)
       = stem +:+ " (" +:+ Py.str (S i) +:+ ").jpg")
  ∧ (let E0 := with_naming "NAME" false in
     let card := new E0 Card plain_card in
     generate_path E0 card "" "Card" "Artist" (world_with_files ["Card.jpg"])
     = (Ok "Card (1).jpg", world_with_files ["Card.jpg"])
     ∧ generate_path E0 card "" "Card" "Artist"
         (world_with_files ["Card.jpg"; "Card (1).jpg"])
       = (Ok "Card (2).jpg", world_with_files ["Card.jpg"; "Card (1).jpg"])).
Proof.
  intros intended. split_and!.
  - intros Hov. unfold generate_path. rewrite Hov.
    apply check_path_least. apply contains_join. by apply contains_app_r.
  - intros Hov. unfold generate_path. by rewrite Hov.
  - intros stem i Hc. cbn [candidate]. unfold numbered.
    by apply replace_extension.
  - vm_compute. split; reflexivity.
Qed.

Lemma C9_generate_path_first_free_witness :
  ∃ k, generate_path (with_naming "NAME" false)
         (new (with_naming "NAME" false) Card plain_card) "" "Card" "Artist"
         (world_with_files ["Card.jpg"; "Card (1).jpg"])
       = (Ok (candidate "Card.jpg" k),
          world_with_files ["Card.jpg"; "Card (1).jpg"])
    ∧ (candidate "Card.jpg" k ∉ files (world (world_with_files ["Card.jpg"; "Card (1).jpg"])))
    ∧ ∀ j, j < k →
        candidate "Card.jpg" j
        ∈ files (world (world_with_files ["Card.jpg"; "Card (1).jpg"])).
Proof.
  apply (proj1 (C9_generate_path_first_free (with_naming "NAME" false)
                  (new (with_naming "NAME" false) Card plain_card)
                  "" "Card" "Artist"
                  (world_with_files ["Card.jpg"; "Card (1).jpg"]))).
  reflexivity.
Defined.

(** ** C10: the archive filter *)

Lemma all_renders_in_zip_ok (renders : list string) (card : C.t)
    (basenames : gset string) (num set_code : string) (n : nat) :
  card_number card = Some num →
  C.set card = Some set_code →
  Py.int (Py.digits_of num) = Ok n →
  all_renders_in_zip renders card basenames
  = Ok (forallb (λ f, bool_decide (f ∈ basenames))
          (map (λ render, constructed_name render set_code n) renders)).
Proof.
  intros Hnum Hset Hint.
  induction renders as [|r rs IH]; [reflexivity|].
  cbn [all_renders_in_zip map forallb]. unfold is_render_in_zip.
  rewrite Hnum, Hset. cbn [subscript_of getitem res_bind]. rewrite Hint.
  cbn [res_bind].
  destruct (bool_decide (constructed_name r set_code n ∈ basenames));
    [exact IH | reflexivity].
Qed.

Lemma is_card_in_zip_ok (E : Env) (card : C.t) (basenames : gset string) :
  is_Some (expected_names E card) →
  is_card_in_zip E card basenames = Ok (in_archive E basenames card).
Proof.
  intros [names Hn]. unfold in_archive, is_card_in_zip. rewrite Hn.
  unfold expected_names in Hn.
  destruct (renders_of E card) as [renders|]; [|discriminate Hn].
  destruct (card_number card) as [num|] eqn:Hnum; [|discriminate Hn].
  destruct (C.set card) as [set_code|] eqn:Hset; [|discriminate Hn].
  destruct (Py.int (Py.digits_of num)) as [n|] eqn:Hint; [|discriminate Hn].
  injection Hn as <-. cbn [res_bind].
  by eapply all_renders_in_zip_ok.
Qed.

Lemma keep_missing_ok (E : Env) (cards : list C.t) (basenames : gset string) :
  Forall (λ card, is_Some (expected_names E card)) cards →
  keep_missing E cards basenames
  = Ok (filter (λ card, in_archive E basenames card = false) cards).
Proof.
  induction 1 as [|card rest Hc _ IH]; [reflexivity|].
  cbn [keep_missing]. rewrite (is_card_in_zip_ok _ _ _ Hc), IH.
  cbn [res_bind].
  destruct (in_archive E basenames card) eqn:Hin.
  - by rewrite filter_cons_False by (rewrite Hin; done).
  - by rewrite filter_cons_True by (rewrite Hin; done).
Qed.

(** The faces the filter requires, by class. *)
Lemma renders_of_classes (E : Env) (card : C.t) :
  let k := get_card_class card in
  (is_mdfc k = false → k ≠ Adventure → k ≠ Flip →
   renders_of E card = Ok [default "" (C.name card)])
  ∧ (k = Adventure ∨ k = Flip →
     ∀ front, face_name card 0 = Ok front → front ≠ "" →
       renders_of E card = Ok [front])
  ∧ (is_mdfc k = true →
     ∀ front back layout,
       face_name card 0 = Ok front → face_name card 1 = Ok back → back ≠ "" →
       C.layout card = Some layout → layout ≠ "adventure" →
       renders_of E card = Ok [front; back]).
Proof.
  intros k. unfold renders_of. fold k.
  unfold getattr_name_saved, getattr_name_back, has_name_saved, name, name_saved,
    name_back, new. cbn [cls c].
  split_and!.
  - intros Hm Ha Hf. rewrite Hm. by destruct k.
  - intros Hk front Hfront Hne. rewrite Hfront.
    assert (Ht : Py.truthy front = true) by (by destruct front).
    destruct Hk as [-> | ->]; cbn; by rewrite Ht.
  - intros Hm front back layout Hfront Hback Hne Hlay Hnl.
    rewrite Hm, Hfront, Hback, Hlay.
    assert (Ht : Py.truthy back = true) by (by destruct back).
    destruct k; try discriminate Hm; cbn; rewrite Ht; cbn;
      by rewrite decide_True.
Qed.

(** C10. [filter_files_from_zip] raises [FileNotFoundError] when nothing
    exists at the archive path. On an archive it returns, in their order,
    the records of which some expected name, "face name [SET] {number}"
    with the digits of the collector number read as an integer, is not the
    basename of an entry: the records whose required faces are all there
    are excluded, and no other. The required faces are the name of a
    single-faced card, the first face name of an adventure or flip card,
    and both face names of the double-faced classes. *)
Theorem C10_filter_files_from_zip (E : Env) (zip_path : string) (cards : list C.t) :
  (zip_archive E zip_path = None →
   filter_files_from_zip E zip_path cards = Raise FileNotFoundError)
  ∧ (∀ namelist,
       zip_archive E zip_path = Some (Ok namelist) →
       Forall (λ card, is_Some (expected_names E card)) cards →
       filter_files_from_zip E zip_path cards
       = Ok (filter (λ card, in_archive E (basenames_of namelist) card = false)
               cards))
  ∧ (∀ card,
       let k := get_card_class card in
       (is_mdfc k = false → k ≠ Adventure → k ≠ Flip →
        renders_of E card = Ok [default "" (C.name card)])
       ∧ (k = Adventure ∨ k = Flip →
          ∀ front, face_name card 0 = Ok front → front ≠ "" →
            renders_of E card = Ok [front])
       ∧ (is_mdfc k = true →
          ∀ front back layout,
            face_name card 0 = Ok front → face_name card 1 = Ok back →
            back ≠ "" → C.layout card = Some layout → layout ≠ "adventure" →
            renders_of E card = Ok [front; back])).
Proof.
  split_and!.
  - intros H. unfold filter_files_from_zip. by rewrite H.
  - intros namelist H Hok. unfold filter_files_from_zip. rewrite H.
    cbn [res_bind]. by apply keep_missing_ok.
  - intros card. apply renders_of_classes.
Qed.

Lemma C10_filter_files_from_zip_witness :
  filter_files_from_zip collection "cards.zip"
    [bears_with_art; valki_with_art; llanowar_elves]
  = Ok [valki_with_art; llanowar_elves]
  ∧ filter_files_from_zip collection "elsewhere.zip"
      [bears_with_art; valki_with_art; llanowar_elves]
    = Raise FileNotFoundError.
Proof.
  split.
  - etrans.
    + apply (proj1 (proj2 (C10_filter_files_from_zip collection "cards.zip"
                [bears_with_art; valki_with_art; llanowar_elves]))
               [ "art/Grizzly Bears [M10] {181}.jpg";
                 "art/Valki, God of Lies [KHM] {114}.png";
                 "art/notes.txt" ]).
      * reflexivity.
      * repeat constructor; vm_compute; eexists; reflexivity.
    + vm_compute. reflexivity.
  - apply (proj1 (C10_filter_files_from_zip collection "elsewhere.zip"
              [bears_with_art; valki_with_art; llanowar_elves])).
    reflexivity.
Defined.

(** * Further properties of the code *)

(** ** The scraping functions return or give none *)

(** X1. [get_mtgp_code] and [get_mtgp_code_pmo] never raise: whatever the
    pages hold, a missing page, a missing cell or a missing link ends in a
    result, and without the first page [get_mtgp_code] gives none. *)
Theorem scrapers_never_raise (E : Env) (set_code num name artist set_name promo : string) :
  (∃ v, get_mtgp_code E set_code num name = Ok v)
  ∧ (∃ v, get_mtgp_code_pmo E name artist set_name promo = Ok v)
  ∧ (get_mtgp_page E (card_page (set_code +:+ "001")) = None →
     get_mtgp_code E set_code num name = Ok None)
  ∧ (get_mtgp_page E (promo_listing promo) = None →
     get_mtgp_code_pmo E name artist set_name promo = Ok None).
Proof.
  split; [apply get_mtgp_code_total|]. split; [apply get_mtgp_code_pmo_total|].
  split.
  - intros H. unfold get_mtgp_code. by rewrite H.
  - intros H. unfold get_mtgp_code_pmo. by rewrite H.
Qed.

Lemma scrapers_never_raise_witness :
  get_mtgp_code offline "m10" "181" "Grizzly Bears" = Ok None
  ∧ get_mtgp_code_pmo offline "Lightning Bolt" "Christopher Moeller"
      "Judge Gift Cards 2011" "dci" = Ok None.
Proof.
  split.
  - apply (proj1 (proj2 (proj2 (scrapers_never_raise offline "m10" "181"
              "Grizzly Bears" "" "" "")))). reflexivity.
  - apply (proj2 (proj2 (proj2 (scrapers_never_raise offline "" ""
              "Lightning Bolt" "Christopher Moeller" "Judge Gift Cards 2011" "dci")))).
    reflexivity.
Defined.

(** ** The path template *)

Ltac in_list :=
  repeat (apply elem_of_cons; first [ left; reflexivity | right ]).

Lemma set_iter_ok_offline : set_iter_ok offline.
Proof. intros s. reflexivity. Qed.

(** X2. Whatever the record, [get_template] gives one of ten folder names:
    token, borderless, classic, normal or one of the six frame effects. *)
Theorem get_template_range (E : Env) (c : C.t) :
  set_iter_ok E → get_template E c ∈ template_names.
Proof.
  intros Hok. unfold get_template, template_names.
  assert (Hin : ∀ x, x ∈ ["token"; "borderless"; "classic"; "normal"] →
                     x ∈ ["token"; "borderless"; "classic"; "normal"] ++ template_effects).
  { intros x Hx. apply elem_of_app. by left. }
  destruct (decide (default "" (C.layout c) = "token")); [apply Hin; in_list|].
  destruct (decide (default "" (C.border_color c) = "borderless")); [apply Hin; in_list|].
  destruct (bool_decide (default "" (C.frame c) ∈ ["1993"; "1995"])); [apply Hin; in_list|].
  pose proof (find_first_match_sound E (default [] (C.frame_effects c))
                template_effects Hok) as H.
  destruct (find_first_match E _ template_effects) as [x|]; [|apply Hin; in_list].
  destruct H as [_ H].
  destruct (Py.truthy x); [|apply Hin; in_list].
  apply elem_of_app. by right.
Qed.

Lemma get_template_range_witness :
  get_template offline (record_of_frame "normal" "black" "2015" ["snow"; "legendary"])
  ∈ template_names.
Proof. apply get_template_range, set_iter_ok_offline. Defined.

(** ** Lazily computed values *)

(** X3. When the card page is missing, [Card.mtgp_url] is none, and the none
    is what later reads return. *)
Theorem mtgp_url_none_when_page_missing (E : Env) (self : Self) (st st' : St)
    (ref : string) :
  mtgp_url_slot (obj st) = None →
  mtgp_code E self st = (Ok ref, st') →
  get_mtgp_page E (card_page ref) = None →
  mtgp_url E self st
  = (Ok None, {| obj := store_mtgp_url None (obj st'); world := world st' |})
  ∧ ∀ w, mtgp_url E self {| obj := store_mtgp_url None (obj st'); world := w |}
         = (Ok None, {| obj := store_mtgp_url None (obj st'); world := w |}).
Proof.
  intros Hslot Hcode Hget. split.
  - unfold mtgp_url, cached, bind at 1, get_obj. rewrite Hslot.
    unfold bind at 1. unfold bind at 1. rewrite Hcode, Hget. reflexivity.
  - intros w. unfold mtgp_url. by apply cached_hit.
Qed.

Lemma mtgp_url_none_when_page_missing_witness :
  fst (mtgp_url offline (new offline Card grizzly_bears) fresh) = Ok None.
Proof.
  destruct (mtgp_url_none_when_page_missing offline
              (new offline Card grizzly_bears) fresh
              (snd (mtgp_code offline (new offline Card grizzly_bears) fresh))
              "m10181" eq_refl eq_refl eq_refl) as [H _].
  rewrite H. reflexivity.
Defined.

(** X4. The cached properties are computed once: after a read that returned
    a value, every later read returns that value and changes nothing, also
    when files have appeared or gone in between. *)
Theorem cached_properties_are_memoized (E : Env) (self : Self) (st st' : St) :
  (∀ v, mtgp_set E self st = (Ok v, st') →
     ∀ w, mtgp_set E self {| obj := obj st'; world := w |}
          = (Ok v, {| obj := obj st'; world := w |}))
  ∧ (∀ v, mtgp_code E self st = (Ok v, st') →
     ∀ w, mtgp_code E self {| obj := obj st'; world := w |}
          = (Ok v, {| obj := obj st'; world := w |}))
  ∧ (∀ v, mtgp_url E self st = (Ok v, st') →
     ∀ w, mtgp_url E self {| obj := obj st'; world := w |}
          = (Ok v, {| obj := obj st'; world := w |}))
  ∧ (∀ v, mtgp_path E self st = (Ok v, st') →
     ∀ w, mtgp_path E self {| obj := obj st'; world := w |}
          = (Ok v, {| obj := obj st'; world := w |}))
  ∧ (∀ v, scry_path E self st = (Ok v, st') →
     ∀ w, scry_path E self {| obj := obj st'; world := w |}
          = (Ok v, {| obj := obj st'; world := w |})).
Proof.
  split_and!; intros v H w.
  - unfold mtgp_set in *. apply cached_hit. cbn [obj].
    eapply (cached_stores mtgp_set_slot store_mtgp_set); [reflexivity | exact H].
  - unfold mtgp_code in *. apply cached_hit. cbn [obj].
    eapply (cached_stores mtgp_code_slot store_mtgp_code); [reflexivity | exact H].
  - unfold mtgp_url in *. apply cached_hit. cbn [obj].
    eapply (cached_stores mtgp_url_slot store_mtgp_url); [reflexivity | exact H].
  - unfold mtgp_path in *. apply cached_hit. cbn [obj].
    eapply (cached_stores mtgp_path_slot store_mtgp_path); [reflexivity | exact H].
  - unfold scry_path in *. apply cached_hit. cbn [obj].
    eapply (cached_stores scry_path_slot store_scry_path); [reflexivity | exact H].
Qed.

Lemma cached_properties_are_memoized_witness :
  let E := with_naming "NAME" false in
  let self := new E Card plain_card in
  let st' := snd (mtgp_path E self fresh) in
  mtgp_path E self fresh = (Ok "out/mtgp/normal/Card.jpg", st')
  ∧ mtgp_path E self
      {| obj := obj st';
         world := save_file "out/mtgp/normal/Card.jpg" empty_world |}
    = (Ok "out/mtgp/normal/Card.jpg",
       {| obj := obj st';
          world := save_file "out/mtgp/normal/Card.jpg" empty_world |}).
Proof.
  intros E self st'.
  assert (H : mtgp_path E self fresh = (Ok "out/mtgp/normal/Card.jpg", st'))
    by (vm_compute; reflexivity).
  split; [exact H|].
  apply (proj1 (proj2 (proj2 (proj2 (cached_properties_are_memoized E self fresh st'))))
           _ H).
Defined.

(** ** [check_path] on a path without the extension *)

Lemma replace_absent (a : ascii) (o new s : string) :
  Py.contains (String a o) s = false → Py.replace (String a o) new s = s.
Proof.
  unfold Py.replace. induction s as [|ch s IH]; intros H; [reflexivity|].
  cbn [Py.contains] in H. apply orb_false_iff in H as [Hp Hc].
  cbn [Py.replace_go]. rewrite Hp. by rewrite IH.
Qed.

(** X5. [check_path] on a path that exists and has no [".jpg"] in it never
    ends: every numbered name is the path itself, and every test of the
    loop finds the file. *)
Theorem check_path_diverges_without_extension (path : string) (st : St) :
  Py.contains ".jpg" path = false →
  path ∈ files (world st) →
  (∀ i, numbered path i = path)
  ∧ (∀ fuel i, check_path_loop fuel (files (world st)) path i path = None)
  ∧ check_path path st = (Raise Diverges, st).
Proof.
  intros Hc Hin.
  assert (Hnum : ∀ i, numbered path i = path).
  { intros i. unfold numbered. by apply replace_absent. }
  assert (Hloop : ∀ fuel i,
            check_path_loop fuel (files (world st)) path i path = None).
  { induction fuel as [|n IH]; intros i; [reflexivity|].
    cbn [check_path_loop]. rewrite bool_decide_eq_true_2 by done.
    rewrite Hnum. apply IH. }
  split; [exact Hnum|]. split; [exact Hloop|].
  unfold check_path, bind, get_world. by rewrite Hloop.
Qed.

Lemma check_path_diverges_without_extension_witness :
  check_path "out/Card.png" (world_with_files ["out/Card.png"])
  = (Raise Diverges, world_with_files ["out/Card.png"]).
Proof.
  apply (check_path_diverges_without_extension "out/Card.png"
           (world_with_files ["out/Card.png"])).
  - reflexivity.
  - vm_compute. reflexivity.
Defined.

(** ** More on the archive filter *)

Lemma renders_of_nonempty (E : Env) (card : C.t) (renders : list string) :
  renders_of E card = Ok renders → renders ≠ [].
Proof.
  unfold renders_of.
  destruct (getattr_name_saved _) as [saved|]; [|discriminate].
  cbn [res_bind].
  destruct (match nonempty saved with Some s => Ok s | None => _ end) as [nm|];
    [|discriminate].
  cbn [res_bind].
  destruct (getattr_name_back _) as [nb|]; [|discriminate].
  cbn [res_bind].
  destruct (nonempty nb) as [b|].
  - destruct (getitem (C.layout card)) as [l|]; [|discriminate].
    cbn [res_bind]. destruct (decide (l ≠ "adventure")); intros H;
      injection H as <-; discriminate.
  - intros H. injection H as <-. discriminate.
Qed.

Lemma filter_twice {A} (P : A → Prop) `{∀ x, Decision (P x)} (l : list A) :
  filter P (filter P l) = filter P l.
Proof.
  induction l as [|x l IH]; [reflexivity|].
  destruct (decide (P x)) as [Hx|Hx].
  - rewrite (filter_cons_True P x l Hx).
    rewrite (filter_cons_True P x _ Hx). by rewrite IH.
  - by rewrite (filter_cons_False P x l Hx).
Qed.

(** X6. Filtering is idempotent: the records the filter keeps are kept again
    when they are filtered against the same archive, and they are a
    sublist of the input. *)
Theorem filter_files_from_zip_idempotent (E : Env) (zip_path : string)
    (namelist : list string) (cards : list C.t) :
  zip_archive E zip_path = Some (Ok namelist) →
  Forall (λ card, is_Some (expected_names E card)) cards →
  ∃ kept, filter_files_from_zip E zip_path cards = Ok kept
    ∧ filter_files_from_zip E zip_path kept = Ok kept
    ∧ sublist kept cards.
Proof.
  intros Hzip Hok.
  exists (filter (λ card, in_archive E (basenames_of namelist) card = false) cards).
  unfold filter_files_from_zip. rewrite Hzip. cbn [res_bind].
  split; [by apply keep_missing_ok|]. split.
  - rewrite keep_missing_ok.
    + by rewrite filter_twice.
    + apply Forall_forall. intros card Hin.
      apply list_elem_of_filter in Hin as [_ Hin].
      by eapply Forall_forall in Hok.
  - apply sublist_filter.
Qed.

Lemma filter_files_from_zip_idempotent_witness :
  ∃ kept,
    filter_files_from_zip collection "cards.zip"
      [bears_with_art; valki_with_art; llanowar_elves] = Ok kept
    ∧ filter_files_from_zip collection "cards.zip" kept = Ok kept
    ∧ sublist kept [bears_with_art; valki_with_art; llanowar_elves].
Proof.
  apply (filter_files_from_zip_idempotent collection "cards.zip"
           [ "art/Grizzly Bears [M10] {181}.jpg";
             "art/Valki, God of Lies [KHM] {114}.png";
             "art/notes.txt" ]).
  - reflexivity.
  - repeat constructor; vm_compute; eexists; reflexivity.
Defined.

(** X7. Against an archive without entries the filter keeps every record. *)
Theorem filter_files_from_empty_zip (E : Env) (zip_path : string) (cards : list C.t) :
  zip_archive E zip_path = Some (Ok []) →
  Forall (λ card, is_Some (expected_names E card)) cards →
  filter_files_from_zip E zip_path cards = Ok cards.
Proof.
  intros Hzip Hok. unfold filter_files_from_zip. rewrite Hzip. cbn [res_bind].
  rewrite keep_missing_ok by done. f_equal.
  induction Hok as [|card rest [names Hn] _ IH]; [reflexivity|].
  rewrite filter_cons_True; [by rewrite IH|].
  unfold in_archive. rewrite Hn. unfold expected_names in Hn.
  destruct (renders_of E card) as [renders|] eqn:Hr; [|discriminate Hn].
  apply renders_of_nonempty in Hr.
  destruct (card_number card); [|discriminate Hn].
  destruct (C.set card); [|discriminate Hn].
  destruct (Py.int _); [|discriminate Hn].
  injection Hn as <-. destruct renders as [|r rs]; [done|].
  cbn [map forallb]. rewrite bool_decide_eq_false_2; [reflexivity|].
  unfold basenames_of. cbn. apply not_elem_of_empty.
Qed.

Lemma filter_files_from_empty_zip_witness :
  filter_files_from_zip (with_archive "empty.zip" []) "empty.zip"
    [bears_with_art; valki_with_art]
  = Ok [bears_with_art; valki_with_art].
Proof.
  apply filter_files_from_empty_zip.
  - reflexivity.
  - repeat constructor; vm_compute; eexists; reflexivity.
Defined.

Lemma keep_missing_raises (E : Env) (basenames : gset string)
    (before after : list C.t) (card : C.t) (e : exn) :
  Forall (λ card, is_Some (expected_names E card)) before →
  is_card_in_zip E card basenames = Raise e →
  keep_missing E (before ++ card :: after) basenames = Raise e.
Proof.
  intros Hok Hraise. induction Hok as [|c rest Hc _ IH].
  - cbn [app keep_missing]. by rewrite Hraise.
  - cbn [app keep_missing]. rewrite (is_card_in_zip_ok _ _ _ Hc).
    cbn [res_bind]. by rewrite IH.
Qed.

(** X8. The filter stops at the first record from which no file name can be
    built, with the error of that record: [TypeError] without a collector
    number, [KeyError] without a set code, [ValueError] when the collector
    number has no digit. *)
Theorem filter_files_from_zip_bad_record (E : Env) (zip_path : string)
    (namelist : list string) (before after : list C.t) (card : C.t)
    (renders : list string) :
  zip_archive E zip_path = Some (Ok namelist) →
  Forall (λ card, is_Some (expected_names E card)) before →
  renders_of E card = Ok renders →
  let result := filter_files_from_zip E zip_path (before ++ card :: after) in
  (card_number card = None → result = Raise TypeError)
  ∧ (is_Some (card_number card) → C.set card = None → result = Raise KeyError)
  ∧ (∀ num, card_number card = Some num → is_Some (C.set card) →
       Py.digits_of num = "" → result = Raise ValueError).
Proof.
  intros Hzip Hok Hr result. unfold result, filter_files_from_zip.
  rewrite Hzip. cbn [res_bind].
  pose proof (renders_of_nonempty _ _ _ Hr) as Hne.
  destruct renders as [|r rs]; [done|].
  split_and!.
  - intros Hn. apply keep_missing_raises; [done|].
    unfold is_card_in_zip. rewrite Hr. cbn [res_bind all_renders_in_zip].
    unfold is_render_in_zip. by rewrite Hn.
  - intros [num Hn] Hs. apply keep_missing_raises; [done|].
    unfold is_card_in_zip. rewrite Hr. cbn [res_bind all_renders_in_zip].
    unfold is_render_in_zip. by rewrite Hn, Hs.
  - intros num Hn [s Hs] Hd. apply keep_missing_raises; [done|].
    unfold is_card_in_zip. rewrite Hr. cbn [res_bind all_renders_in_zip].
    unfold is_render_in_zip. rewrite Hn, Hs. cbn [subscript_of getitem res_bind].
    by rewrite Hd.
Qed.

Lemma filter_files_from_zip_bad_record_witness :
  filter_files_from_zip collection "cards.zip"
    [bears_with_art; star_token; llanowar_elves]
  = Raise ValueError.
Proof.
  destruct (filter_files_from_zip_bad_record collection "cards.zip"
              [ "art/Grizzly Bears [M10] {181}.jpg";
                "art/Valki, God of Lies [KHM] {114}.png";
                "art/notes.txt" ]
              [bears_with_art] [llanowar_elves] star_token ["Goblin"]
              eq_refl) as (_ & _ & H).
  - repeat constructor; vm_compute; eexists; reflexivity.
  - reflexivity.
  - apply (H "*"); [reflexivity | eexists; reflexivity | reflexivity].
Defined.

(** ** The branches of [Card.download] *)

Lemma download_mtgp_succeeds (E : Env) (url : option string) (path label : string)
    (st : St) :
  primary_ok E url path = true →
  download_mtgp E url path label st
  = (Ok true, {| obj := obj st; world := after_mtgp label path (world st) |}).
Proof.
  unfold primary_ok, download_mtgp. destruct url as [u|]; [|discriminate].
  intros [Hu Hg]%andb_true_iff. rewrite Hu, Hg. reflexivity.
Qed.

Lemma download_scryfall_fails (E : Env) (url path label : string) (st : St) :
  fallback_ok E url path = false →
  download_scryfall E (Some url) path label st = (Ok false, st).
Proof.
  unfold fallback_ok, download_scryfall.
  destruct (usable (Some url) path); [|done].
  cbn [andb]. by intros ->.
Qed.

Lemma log_failed_loud (label action : string) (st : St) :
  log_failed label true true action st
  = (Ok tt, {| obj := obj st; world := after_failure action label (world st) |}).
Proof. reflexivity. Qed.

Ltac run H := unfold bind at 1; rewrite H.
Ltac run_lift H := unfold bind at 1, lift at 1; rewrite ?H.

(** X9. When the primary download succeeds, [Card.download] reports success
    with the MTGP path, prints the MTGP line, writes nothing to the failure
    log and never asks for the Scryfall path or image. *)
Theorem Card_download_primary_success (E : Env) (self : Self) (logging : bool)
    (st st1 st2 : St) (u : option string) (p l : string) :
  is_mdfc (cls self) = false →
  Cfg.only_scryfall (cfg E) = false →
  mtgp_url E self st = (Ok u, st1) →
  mtgp_path E self st1 = (Ok p, st2) →
  label self = Ok l →
  primary_ok E u p = true →
  download E self logging st
  = (Ok [(true, l, p)],
     {| obj := obj st2; world := after_mtgp l p (world st) |})
  ∧ scry_path_slot (obj st2) = scry_path_slot (obj st)
  ∧ failed_log (after_mtgp l p (world st)) = failed_log (world st).
Proof.
  intros Hcls Honly Hurl Hpath Hl Hprim.
  destruct (keeps_world_paths E self) as (Hmp & _).
  assert (Hw : world st2 = world st).
  { pose proof (Hmp st1) as H2. rewrite Hpath in H2.
    pose proof (keeps_world_mtgp_url E self st) as H1. rewrite Hurl in H1.
    cbn [snd] in *. congruence. }
  assert (Hslot : mtgp_path_slot (obj st2) = Some p).
  { unfold mtgp_path in Hpath.
    eapply (cached_stores mtgp_path_slot store_mtgp_path); [reflexivity|exact Hpath]. }
  split; [|split; [|reflexivity]].
  - unfold download, Card_download. rewrite Hcls, Honly.
    run Hurl. run Hpath. run_lift Hl.
    run (download_mtgp_succeeds _ _ _ l st2 Hprim). cbn [negb].
    run_lift Hl. unfold bind at 1, mtgp_path.
    rewrite (cached_hit _ _ _ _ p) by exact Hslot.
    unfold ret. by rewrite Hw.
  - assert (K1 : keeps (λ s, scry_path_slot (obj s)) (mtgp_url E self)).
    { unfold mtgp_url, mtgp_code, mtgp_set, promo_set, promo. frame_step. }
    assert (K2 : keeps (λ s, scry_path_slot (obj s)) (mtgp_path E self)).
    { unfold mtgp_path. frame_step. }
    pose proof (K1 st) as H1. rewrite Hurl in H1.
    pose proof (K2 st1) as H2. rewrite Hpath in H2.
    cbn [snd] in *. congruence.
Qed.

(** X10. When the primary download fails and the enabled fallback fails
    too, [Card.download] reports failure with the Scryfall path; with
    logging it writes the label to the failure log and prints the failure,
    without logging it leaves files, log and console alone. *)
Theorem Card_download_both_fail (E : Env) (self : Self) (logging : bool)
    (st st1 st2 st3 : St) (u : option string) (p l sp : string) :
  is_mdfc (cls self) = false →
  Cfg.only_scryfall (cfg E) = false →
  Cfg.download_scryfall (cfg E) = true →
  mtgp_url E self st = (Ok u, st1) →
  mtgp_path E self st1 = (Ok p, st2) →
  label self = Ok l →
  primary_ok E u p = false →
  scry_path E self st2 = (Ok sp, st3) →
  fallback_ok E (scry_url E self) sp = false →
  download E self logging st
  = (Ok [(false, l, sp)],
     {| obj := obj st3;
        world := if logging then after_failure "MTGP" l (world st)
                 else world st |}).
Proof.
  intros Hcls Honly Hcfg Hurl Hpath Hl Hprim Hspath Hfb.
  assert (Hw : world st3 = world st).
  { destruct (keeps_world_paths E self) as (Hmp & Hsp & _).
    pose proof (Hsp st2) as H3. rewrite Hspath in H3.
    pose proof (Hmp st1) as H2. rewrite Hpath in H2.
    pose proof (keeps_world_mtgp_url E self st) as H1. rewrite Hurl in H1.
    cbn [snd] in *. congruence. }
  assert (Hslot : scry_path_slot (obj st3) = Some sp).
  { unfold scry_path in Hspath.
    eapply (cached_stores scry_path_slot store_scry_path); [reflexivity|exact Hspath]. }
  assert (Hre : ∀ w, scry_path E self {| obj := obj st3; world := w |}
                     = (Ok sp, {| obj := obj st3; world := w |})).
  { intros w. unfold scry_path. by apply cached_hit. }
  assert (Hre3 : scry_path E self st3 = (Ok sp, st3)).
  { unfold scry_path. by apply cached_hit. }
  unfold download, Card_download. rewrite Hcls, Honly, Hcfg.
  run Hurl. run Hpath. run_lift Hl.
  run (download_mtgp_fails _ _ _ l st2 Hprim). cbn [negb].
  unfold bind at 1. unfold bind at 1. run Hspath. run_lift Hl.
  rewrite (download_scryfall_fails _ _ _ l st3 Hfb). cbn [andb].
  destruct logging.
  - unfold bind at 1. run_lift Hl.
    unfold log_failed, bind at 1, modify_world at 1. cbn [obj world].
    unfold modify_world at 1, lift at 1. cbn [obj world].
    unfold bind at 1. rewrite Hre.
    unfold ret, after_failure. by rewrite Hw.
  - unfold bind at 1, ret at 1. unfold lift at 1. run Hre3.
    unfold ret. destruct st3. cbn [obj world] in *. by rewrite Hw.
Qed.

Lemma Card_download_primary_success_witness :
  ∃ o, download both_sources_site (new both_sources_site Card bears_with_art)
         true fresh
       = (Ok [(true, "Grizzly Bears (M10) 181",
               "out/mtgp/normal/Grizzly Bears (Jeff A. Menges) [M10].jpg")],
          {| obj := o;
             world := after_mtgp "Grizzly Bears (M10) 181"
                        "out/mtgp/normal/Grizzly Bears (Jeff A. Menges) [M10].jpg"
                        empty_world |}).
Proof.
  edestruct (Card_download_primary_success both_sources_site
               (new both_sources_site Card bears_with_art) true fresh)
    as [H _];
    [ reflexivity | reflexivity | vm_compute; reflexivity
    | vm_compute; reflexivity | vm_compute; reflexivity
    | vm_compute; reflexivity | ].
  eexists. exact H.
Defined.

Lemma Card_download_both_fail_witness :
  ∃ o, download offline (new offline Card bears_with_art) true fresh
       = (Ok [(false, "Grizzly Bears (M10) 181",
               "out/scry/normal/Grizzly Bears (Jeff A. Menges) [M10].jpg")],
          {| obj := o;
             world := after_failure "MTGP" "Grizzly Bears (M10) 181" empty_world |}).
Proof.
  eexists.
  eapply (Card_download_both_fail offline (new offline Card bears_with_art)
            true fresh);
    first [ reflexivity | vm_compute; reflexivity ].
Defined.

(** X11. In a run restricted to Scryfall, [Card.download] never asks the
    secondary source: it reports the outcome of the Scryfall download with
    the Scryfall path, and on failure it writes and prints the failure as
    a "SCRY" failure whatever the logging argument is. *)
Theorem Card_download_scryfall_only (E : Env) (self : Self) (logging : bool)
    (st st1 : St) (l sp : string) :
  is_mdfc (cls self) = false →
  Cfg.only_scryfall (cfg E) = true →
  scry_path E self st = (Ok sp, st1) →
  label self = Ok l →
  (fallback_ok E (scry_url E self) sp = true →
   download E self logging st
   = (Ok [(true, l, sp)],
      {| obj := obj st1; world := after_scryfall l sp (world st) |}))
  ∧ (fallback_ok E (scry_url E self) sp = false →
     download E self logging st
     = (Ok [(false, l, sp)],
        {| obj := obj st1; world := after_failure "SCRY" l (world st) |}))
  ∧ mtgp_url_slot (obj st1) = mtgp_url_slot (obj st)
  ∧ mtgp_code_slot (obj st1) = mtgp_code_slot (obj st).
Proof.
  intros Hcls Honly Hspath Hl.
  assert (Hw : world st1 = world st).
  { destruct (keeps_world_paths E self) as (_ & Hsp & _).
    pose proof (Hsp st) as H. rewrite Hspath in H. exact H. }
  assert (Hslot : scry_path_slot (obj st1) = Some sp).
  { unfold scry_path in Hspath.
    eapply (cached_stores scry_path_slot store_scry_path); [reflexivity|exact Hspath]. }
  assert (Hre : ∀ w, scry_path E self {| obj := obj st1; world := w |}
                     = (Ok sp, {| obj := obj st1; world := w |})).
  { intros w. unfold scry_path. by apply cached_hit. }
  split_and!.
  - intros Hok. unfold download, Card_download. rewrite Hcls, Honly.
    run Hspath. run_lift Hl.
    run (download_scryfall_succeeds _ _ _ l st1 Hok).
    run_lift Hl. unfold bind at 1. rewrite Hre.
    unfold ret, after_scryfall. by rewrite Hw.
  - intros Hfail. unfold download, Card_download. rewrite Hcls, Honly.
    run Hspath. run_lift Hl.
    run (download_scryfall_fails _ _ _ l st1 Hfail).
    run_lift Hl. run (log_failed_loud l "SCRY" st1).
    run_lift Hl. unfold bind at 1. rewrite Hre.
    unfold ret. by rewrite Hw.
  - assert (K : keeps (λ s, mtgp_url_slot (obj s)) (scry_path E self)).
    { unfold scry_path. frame_step. }
    pose proof (K st) as H. by rewrite Hspath in H.
  - assert (K : keeps (λ s, mtgp_code_slot (obj s)) (scry_path E self)).
    { unfold scry_path. frame_step. }
    pose proof (K st) as H. by rewrite Hspath in H.
Qed.

Lemma Card_download_scryfall_only_witness :
  (∃ o, download (scryfall_mode true) (new (scryfall_mode true) Card bears_with_art)
          false fresh
        = (Ok [(true, "Grizzly Bears (M10) 181",
                "out/scry/normal/Grizzly Bears (Jeff A. Menges) [M10].jpg")],
           {| obj := o;
              world := after_scryfall "Grizzly Bears (M10) 181"
                         "out/scry/normal/Grizzly Bears (Jeff A. Menges) [M10].jpg"
                         empty_world |}))
  ∧ (∃ o, download (scryfall_mode false) (new (scryfall_mode false) Card bears_with_art)
            false fresh
          = (Ok [(false, "Grizzly Bears (M10) 181",
                  "out/scry/normal/Grizzly Bears (Jeff A. Menges) [M10].jpg")],
             {| obj := o;
                world := after_failure "SCRY" "Grizzly Bears (M10) 181" empty_world |})).
Proof.
  split.
  - edestruct (Card_download_scryfall_only (scryfall_mode true)
                 (new (scryfall_mode true) Card bears_with_art) false fresh)
      as (H & _);
      [ reflexivity | reflexivity | vm_compute; reflexivity
      | vm_compute; reflexivity | ].
    eexists. apply H. vm_compute. reflexivity.
  - edestruct (Card_download_scryfall_only (scryfall_mode false)
                 (new (scryfall_mode false) Card bears_with_art) false fresh)
      as (_ & H & _);
      [ reflexivity | reflexivity | vm_compute; reflexivity
      | vm_compute; reflexivity | ].
    eexists. apply H. vm_compute. reflexivity.
Defined.

(** ** The results of [MDFC.download] *)

Lemma pairs_only_slots (st st' : St) :
  list_slots st' = list_slots st → pairs_only st → pairs_only st'.
Proof.
  unfold list_slots, pairs_only. intros H. injection H as -> -> -> ->. done.
Qed.

Lemma keeps_list_slots_mtgp_code (E : Env) (self : Self) :
  keeps list_slots (mtgp_code E self).
Proof. unfold mtgp_code, mtgp_set, promo_set, promo. frame_step. Qed.

Lemma mtgp_urls_pair (E : Env) (self : Self) (st st' : St)
    (us : list (option string)) :
  pairs_only st →
  mtgp_urls E self st = (Ok us, st') →
  length us = 2 ∧ pairs_only st'
  ∧ mtgp_paths_slot (obj st') = mtgp_paths_slot (obj st)
  ∧ scry_paths_slot (obj st') = scry_paths_slot (obj st).
Proof.
  intros Hinv. unfold mtgp_urls, cached, bind at 1, get_obj.
  destruct (mtgp_urls_slot (obj st)) as [us0|] eqn:Hslot.
  - intros H. injection H as <- <-. split; [by apply Hinv|]. done.
  - unfold bind at 1. unfold bind at 1.
    pose proof (keeps_list_slots_mtgp_code E self st) as Hk.
    destruct (mtgp_code E self st) as [[ref|e] s1]; [|discriminate].
    cbn [snd] in Hk.
    unfold bind, lift, ret, modify_obj.
    destruct (requests_get E (card_page ref)) as [soup|]; [|discriminate].
    destruct (get_card_face (find_all_img soup) false) as [f|]; [|discriminate].
    destruct (get_card_face (find_all_img soup) true) as [b|]; [|discriminate].
    intros H. injection H as <- <-. split; [reflexivity|].
    unfold list_slots in Hk. injection Hk as Hk1 Hk2 Hk3 Hk4.
    destruct Hinv as (I1 & I2 & I3 & I4).
    split; [|split]; cbn [obj store_mtgp_urls mtgp_paths_slot scry_paths_slot]; try done.
    unfold pairs_only. cbn. rewrite Hk2, Hk3, Hk4.
    split_and!; try done. intros v Hv. by injection Hv as <-.
Qed.

(** [double_paths] returns two paths, and only when there is a back name. *)
Lemma double_paths_pair (E : Env) (self : Self) (root : string) (st st' : St)
    (ps : list string) :
  double_paths E self root st = (Ok ps, st') →
  length ps = 2 ∧ obj st' = obj st ∧ ∃ nb, name_back self = Ok nb.
Proof.
  unfold double_paths, bind at 1, lift at 1.
  destruct (name self) as [nm|]; [|discriminate].
  unfold bind at 1, lift at 1.
  destruct (artist E self) as [ar|]; [|discriminate].
  unfold bind at 1.
  pose proof (keeps_generate_path obj E self (Py.join root (path self)) nm ar st) as K0.
  destruct (generate_path E self _ nm ar st) as [[p0|] s1]; [|discriminate].
  cbn [snd] in K0.
  unfold bind at 1, lift at 1.
  destruct (name_back self) as [nb|]; [|discriminate].
  unfold bind at 1, lift at 1.
  destruct (artist_back self) as [ab|]; [|discriminate].
  unfold bind at 1.
  pose proof (keeps_generate_path obj E self (Py.join root (path_back self)) nb ab s1) as K1.
  destruct (generate_path E self _ nb ab s1) as [[p1|] s2]; [|discriminate].
  cbn [snd] in K1. unfold ret. intros H. injection H as <- <-.
  split; [reflexivity|]. split; [congruence|]. by eexists.
Qed.

Lemma preserves_bind {A B} (I : St → Prop) (m : M A) (k : A → M B) :
  preserves I m → (∀ a, preserves I (k a)) → preserves I (bind m k).
Proof.
  intros Hm Hk st b st' Hi H.
  apply bind_ok_inv in H as (a & st1 & H1 & H2).
  eapply Hk; [|exact H2]. by eapply Hm.
Qed.

Lemma preserves_keeps {A X} (f : St → X) (I : St → Prop) (m : M A) :
  (∀ st st', f st' = f st → I st → I st') → keeps f m → preserves I m.
Proof.
  intros Hf Hk st a st' Hi H. apply (Hf st); [|done].
  pose proof (Hk st) as K. by rewrite H in K.
Qed.

Lemma keeps_obj_modify_world {X} (f : St → X) (g : World → World) :
  (∀ o w, f {| obj := o; world := g w |} = f {| obj := o; world := w |}) →
  keeps f (modify_world g).
Proof. intros H [o w]. apply H. Qed.

Lemma keeps_list_slots_download_mtgp (E : Env) (u : option string) (p l : string) :
  keeps list_slots (download_mtgp E u p l).
Proof.
  unfold download_mtgp, log_mtgp.
  destruct u; [|apply keeps_ret].
  destruct (usable _ _); [|apply keeps_ret].
  destruct (get_mtgp_image _ _ _); [|apply keeps_ret].
  repeat (apply keeps_bind; [|intros ?]);
    first [ apply keeps_ret | by apply keeps_obj_modify_world ].
Qed.

Lemma keeps_list_slots_download_scryfall (E : Env) (u : option string) (p l : string) :
  keeps list_slots (download_scryfall E u p l).
Proof.
  unfold download_scryfall, log_scryfall.
  destruct u; [|apply keeps_ret].
  destruct (usable _ _); [|apply keeps_ret].
  destruct (get_scryfall_image _ _ _); [|apply keeps_ret].
  repeat (apply keeps_bind; [|intros ?]);
    first [ apply keeps_ret | by apply keeps_obj_modify_world ].
Qed.

Lemma keeps_list_slots_log_failed (l : string) (po wl : bool) (action : string) :
  keeps list_slots (log_failed l po wl action).
Proof.
  unfold log_failed. destruct po, wl;
    repeat (apply keeps_bind; [|intros ?]);
    first [ apply keeps_ret | by apply keeps_obj_modify_world ].
Qed.

Lemma cached_paths_pair (slot : Obj → option (list string))
    (store : list string → Obj → Obj) (E : Env) (self : Self) (root : string)
    (st st' : St) (ps : list string) :
  (∀ v, slot (obj st) = Some v → length v = 2) →
  cached slot store (double_paths E self root) st = (Ok ps, st') →
  length ps = 2
  ∧ obj st' = match slot (obj st) with
              | Some _ => obj st
              | None => store ps (obj st)
              end
  ∧ (slot (obj st) = None → ∃ nb, name_back self = Ok nb).
Proof.
  intros Hinv. unfold cached, bind at 1, get_obj.
  destruct (slot (obj st)) as [v|] eqn:Hslot.
  - intros H. injection H as <- <-. split; [by apply Hinv|]. done.
  - unfold bind at 1.
    destruct (double_paths E self root st) as [[v|] s1] eqn:Hd; [|discriminate].
    apply double_paths_pair in Hd as (Hlen & Hobj & Hnb).
    unfold bind, modify_obj, ret. intros H. injection H as <- <-.
    split; [done|]. split; [cbn; by rewrite Hobj | done].
Qed.

Lemma mtgp_paths_pair (E : Env) (self : Self) (st st' : St) (ps : list string) :
  pairs_only st →
  mtgp_paths E self st = (Ok ps, st') →
  length ps = 2 ∧ pairs_only st'
  ∧ (mtgp_paths_slot (obj st) = None → ∃ nb, name_back self = Ok nb).
Proof.
  intros Hinv H. pose proof Hinv as (I1 & I2 & I3 & I4).
  apply cached_paths_pair in H as (Hlen & Hobj & Hnb); [|exact I2].
  split; [done|]. split; [|done].
  unfold pairs_only. rewrite Hobj.
  destruct (mtgp_paths_slot (obj st)); [done|].
  cbn. split_and!; try done. intros v Hv. by injection Hv as <-.
Qed.

Lemma scry_paths_pair (E : Env) (self : Self) (st st' : St) (ps : list string) :
  pairs_only st →
  scry_paths E self st = (Ok ps, st') →
  length ps = 2 ∧ pairs_only st'
  ∧ (scry_paths_slot (obj st) = None → ∃ nb, name_back self = Ok nb).
Proof.
  intros Hinv H. pose proof Hinv as (I1 & I2 & I3 & I4).
  apply cached_paths_pair in H as (Hlen & Hobj & Hnb); [|exact I3].
  split; [done|]. split; [|done].
  unfold pairs_only. rewrite Hobj.
  destruct (scry_paths_slot (obj st)); [done|].
  cbn. split_and!; try done. intros v Hv. by injection Hv as <-.
Qed.

Lemma labels_pair (self : Self) (st st' : St) (ls : list string) :
  pairs_only st →
  labels self st = (Ok ls, st') →
  length ls = 2 ∧ pairs_only st'.
Proof.
  intros Hinv. pose proof Hinv as (I1 & I2 & I3 & I4).
  unfold labels, cached, bind at 1, get_obj.
  destruct (labels_slot (obj st)) as [v|] eqn:Hslot.
  - intros H. injection H as <- <-. split; [by apply I4|]. done.
  - unfold bind, lift, ret, modify_obj.
    destruct (name self); [|discriminate].
    destruct (name_back self); [|discriminate].
    intros H. injection H as <- <-. split; [reflexivity|].
    unfold pairs_only. cbn. split_and!; try done.
    intros v Hv. by injection Hv as <-.
Qed.

Lemma preserves_pairs_only_step (E : Env) (self : Self) (logging : bool)
    (i : nat) (url : string) :
  preserves pairs_only (MDFC_step E self logging i url)
  ∧ preserves pairs_only (MDFC_step_scryfall E self logging i url).
Proof.
  assert (P1 : preserves pairs_only (mtgp_urls E self)).
  { intros st a st' Hi H. by apply (mtgp_urls_pair _ _ _ _ _ Hi) in H as (_ & ? & _). }
  assert (P2 : preserves pairs_only (mtgp_paths E self)).
  { intros st a st' Hi H. by apply (mtgp_paths_pair _ _ _ _ _ Hi) in H as (_ & ? & _). }
  assert (P3 : preserves pairs_only (scry_paths E self)).
  { intros st a st' Hi H. by apply (scry_paths_pair _ _ _ _ _ Hi) in H as (_ & ? & _). }
  assert (P4 : preserves pairs_only (labels self)).
  { intros st a st' Hi H. by apply (labels_pair _ _ _ _ Hi) in H as (_ & ?). }
  assert (PK : ∀ A (m : M A), keeps list_slots m → preserves pairs_only m).
  { intros A m. apply preserves_keeps. intros st st'. apply pairs_only_slots. }
  assert (P5 : ∀ A (r : result A), preserves pairs_only (lift r)).
  { intros A r. apply PK, keeps_lift. }
  assert (P6 : ∀ A (a : A), preserves pairs_only (ret a)).
  { intros A a. apply PK, keeps_ret. }
  assert (P7 : ∀ u p l, preserves pairs_only (download_mtgp E u p l)).
  { intros. apply PK, keeps_list_slots_download_mtgp. }
  assert (P8 : ∀ u p l, preserves pairs_only (download_scryfall E u p l)).
  { intros. apply PK, keeps_list_slots_download_scryfall. }
  assert (P9 : ∀ l po wl ac, preserves pairs_only (log_failed l po wl ac)).
  { intros. apply PK, keeps_list_slots_log_failed. }
  split; unfold MDFC_step, MDFC_step_scryfall;
    repeat first
      [ assumption
      | apply P5 | apply P6 | apply P7 | apply P8 | apply P9
      | apply preserves_bind; [| intros ? ]
      | match goal with
        | |- preserves _ (if ?b then _ else _) => destruct b
        end ].
Qed.

Lemma lift_ok_inv {A} (r : result A) (st st' : St) (a : A) :
  lift r st = (Ok a, st') → r = Ok a ∧ st' = st.
Proof. unfold lift. destruct r; intros H; by inversion H. Qed.

Lemma index_ok_lt {A} (l : list A) (i : nat) (a : A) :
  index l i = Ok a → i < length l.
Proof.
  unfold index. destruct (l !! i) eqn:H; [|discriminate].
  intros _. by apply lookup_lt_Some in H.
Qed.

Lemma MDFC_step_index (E : Env) (self : Self) (logging : bool) (i : nat)
    (url : string) (st st' : St) (r : DownloadResult) :
  pairs_only st →
  MDFC_step E self logging i url st = (Ok r, st') →
  i < 2 ∧ (mtgp_paths_slot (obj st) = None → ∃ nb, name_back self = Ok nb).
Proof.
  intros Hi H. unfold MDFC_step in H.
  apply bind_ok_inv in H as (us & s1 & H1 & H).
  apply (mtgp_urls_pair _ _ _ _ _ Hi) in H1 as (Hlen & Hi1 & Hp & _).
  apply bind_ok_inv in H as (u & s2 & H2 & H).
  apply lift_ok_inv in H2 as [H2 ->]. apply index_ok_lt in H2.
  split; [lia|]. intros Hnone.
  apply bind_ok_inv in H as (ps & s3 & H3 & H).
  apply (mtgp_paths_pair _ _ _ _ _ Hi1) in H3 as (_ & _ & Hnb).
  apply Hnb. congruence.
Qed.

Lemma MDFC_step_scryfall_index (E : Env) (self : Self) (logging : bool) (i : nat)
    (url : string) (st st' : St) (r : DownloadResult) :
  pairs_only st →
  MDFC_step_scryfall E self logging i url st = (Ok r, st') →
  i < 2 ∧ (scry_paths_slot (obj st) = None → ∃ nb, name_back self = Ok nb).
Proof.
  intros Hi H. unfold MDFC_step_scryfall in H.
  apply bind_ok_inv in H as (ps & s1 & H1 & H).
  apply (scry_paths_pair _ _ _ _ _ Hi) in H1 as (Hlen & Hi1 & Hnb).
  apply bind_ok_inv in H as (u & s2 & H2 & H).
  apply lift_ok_inv in H2 as [H2 ->]. apply index_ok_lt in H2.
  split; [lia | exact Hnb].
Qed.

Lemma MDFC_loop_count (step : nat → string → M DownloadResult) :
  (∀ i url, preserves pairs_only (step i url)) →
  (∀ i url st r st', pairs_only st → step i url st = (Ok r, st') → i < 2) →
  ∀ urls i acc st rs st',
    pairs_only st →
    MDFC_loop step i urls acc st = (Ok rs, st') →
    length rs = length acc + length urls ∧ (urls ≠ [] → i + length urls ≤ 2).
Proof.
  intros Hpres Hlt. induction urls as [|u rest IH]; intros i acc st rs st' Hi H.
  - cbn in H. unfold ret in H. injection H as <- <-. cbn. split; [lia | done].
  - cbn [MDFC_loop] in H. apply bind_ok_inv in H as (r & s1 & H1 & H).
    pose proof (Hlt _ _ _ _ _ Hi H1) as Hi2.
    apply (Hpres _ _ _ _ _ Hi) in H1.
    apply (IH _ _ _ _ _ H1) in H as [Hlen Hrest].
    rewrite length_app in Hlen. cbn [length] in *. split; [lia|]. intros _.
    destruct rest as [|u' rest]; [cbn; lia|].
    assert (u' :: rest ≠ []) as Hne by done. apply Hrest in Hne. cbn [length] in *. lia.
Qed.

Lemma name_back_two_faces (self : Self) (nb : string) :
  name_back self = Ok nb → 2 ≤ length (default [] (C.card_faces (c self))).
Proof.
  unfold name_back, face_name, face, getitem, res_bind.
  destruct (C.card_faces (c self)) as [faces|]; [|discriminate].
  destruct (index faces 1) eqn:Hidx; [|discriminate].
  intros _. apply index_ok_lt in Hidx. cbn [from_option]. unfold id. lia.
Qed.



(** ** The outcomes of [get_card_face] *)

Lemma image_codes_inv (entries : list Img) (arr : list string) :
  image_codes entries = Ok arr →
  Forall has_src entries ∧ arr = map code_of entries.
Proof.
  revert arr. induction entries as [|e es IH]; intros arr H.
  - injection H as <-. by split.
  - cbn [image_codes] in H. destruct (src e) as [s|] eqn:Hs; [|discriminate].
    cbn [getitem res_bind] in H.
    destruct (image_codes es) as [rest|] eqn:Hr; [|discriminate].
    cbn [res_bind] in H. injection H as <-.
    destruct (IH rest eq_refl) as [Hall ->]. split.
    + constructor; [by exists s | done].
    + cbn [map]. unfold code_of at 2. by rewrite Hs.
Qed.

Lemma image_codes_raise (entries : list Img) (x : exn) :
  image_codes entries = Raise x →
  x = KeyError ∧ Exists (λ i, src i = None) entries.
Proof.
  induction entries as [|e es IH]; [discriminate|].
  cbn [image_codes]. destruct (src e) as [s|] eqn:Hs.
  - cbn [getitem res_bind]. destruct (image_codes es) as [rest|y]; [discriminate|].
    cbn [res_bind]. intros H. injection H as <-.
    destruct (IH eq_refl) as [-> Hex]. split; [done|]. by apply Exists_cons_tl.
  - cbn [getitem res_bind]. intros H. injection H as <-.
    split; [done|]. by apply Exists_cons_hd.
Qed.

Lemma image_codes_missing (entries : list Img) :
  Exists (λ i, src i = None) entries → image_codes entries = Raise KeyError.
Proof.
  induction 1 as [e es He|e es _ IH]; cbn [image_codes].
  - by rewrite He.
  - rewrite IH. by destruct (src e).
Qed.

Lemma index_ok_elem {A} (l : list A) (i : nat) (a : A) :
  index l i = Ok a → a ∈ l.
Proof.
  unfold index. destruct (l !! i) eqn:H; [|discriminate].
  intros E. injection E as <-. by eapply list_elem_of_lookup_2.
Qed.

Lemma index_raise {A} (l : list A) (i : nat) (x : exn) :
  index l i = Raise x → x = IndexError.
Proof. unfold index. destruct (l !! i); [discriminate|]. by intros [= <-]. Qed.

Lemma pick_ok (path : string) (l : list string) (i : nat) (url : string) :
  (let? a := index l i in Ok (Some (image_url path a))) = Ok (Some url) →
  ∃ a, a ∈ l ∧ url = image_url path a.
Proof.
  destruct (index l i) as [a|] eqn:H; [|discriminate].
  cbn [res_bind]. intros [= <-]. exists a. split; [|done]. by eapply index_ok_elem.
Qed.

Lemma pick_not_none (path : string) (l : list string) (i : nat) :
  (let? a := index l i in Ok (Some (image_url path a))) ≠ Ok None.
Proof. by destruct (index l i). Qed.

Lemma pick_raise (path : string) (l : list string) (i : nat) (x : exn) :
  (let? a := index l i in Ok (Some (image_url path a))) = Raise x →
  x = IndexError.
Proof.
  destruct (index l i) as [a|y] eqn:H; [discriminate|].
  cbn [res_bind]. intros [= <-]. by eapply index_raise.
Qed.

Lemma pick_in_range (path : string) (l : list string) (i : nat) (x : exn) :
  i < length l →
  (let? a := index l i in Ok (Some (image_url path a))) ≠ Raise x.
Proof.
  intros Hi. unfold index. destruct (lookup_lt_is_Some_2 l i Hi) as [a ->]. done.
Qed.

Lemma choose_face_some (path : string) (arr : list string) (back : bool)
    (url : string) :
  choose_face path arr back = Ok (Some url) →
  ∃ a, a ∈ arr ∧ url = image_url path a.
Proof.
  assert (Hs : ∀ a, a ∈ Py.sorted arr → a ∈ arr).
  { intros a. by rewrite (proj2 (sorted_spec arr)). }
  assert (Hf : ∀ (P : string → Prop) `{∀ x, Decision (P x)} a,
             a ∈ filter P (Py.sorted arr) → a ∈ arr).
  { intros P ? a Ha. apply list_elem_of_filter in Ha as [_ Ha]. by apply Hs. }
  unfold choose_face.
  repeat match goal with
         | |- context [decide ?P] => destruct (decide P)
         | |- context [if back then _ else _] => destruct back
         end;
    try discriminate; intros H; apply pick_ok in H as (a & Ha & ->);
    exists a; (split; [|done]); eauto.
Qed.

Lemma choose_face_none (path : string) (arr : list string) (back : bool) :
  choose_face path arr back = Ok None ↔
  arr = [] ∨ (back = true ∧ length arr = 1).
Proof.
  unfold choose_face. split.
  - repeat match goal with
           | |- context [decide ?P] => destruct (decide P)
           | |- context [if back then _ else _] => destruct back
           end;
      intros H; try (by apply pick_not_none in H); try (right; by split).
    all: left; destruct arr; [done | cbn [length] in *; lia].
  - intros [-> | [-> Hlen]]; [reflexivity|].
    destruct (decide (length arr = 1)); [reflexivity | done].
Qed.

Lemma choose_face_raise (path : string) (arr : list string) (back : bool)
    (x : exn) :
  choose_face path arr back = Raise x → x = IndexError ∧ 2 < length arr.
Proof.
  unfold choose_face.
  destruct (decide (length arr = 1)) as [H1|H1].
  { destruct back; [discriminate|]. intros H. exfalso.
    revert H. apply pick_in_range. lia. }
  destruct (decide (length arr = 2)) as [H2|H2].
  { destruct back; intros H; exfalso; revert H; apply pick_in_range;
      rewrite sorted_length; lia. }
  destruct (decide (2 < length arr)) as [H3|H3]; [|discriminate].
  repeat match goal with
         | |- context [decide ?P] => destruct (decide P)
         | |- context [if back then _ else _] => destruct back
         end;
    intros H; apply pick_raise in H; by split.
Qed.

(** X13. The only exceptions of [get_card_face] are [KeyError], raised
    exactly when some entry has no ["src"], and [IndexError], which needs
    more than two entries. *)
Theorem get_card_face_exceptions (entries : list Img) (back : bool) :
  (get_card_face entries back = Raise KeyError
   ↔ Exists (λ i, src i = None) entries)
  ∧ (∀ x, get_card_face entries back = Raise x →
       x = KeyError ∨ (x = IndexError ∧ 2 < length entries)).
Proof.
  destruct entries as [|e0 es]; [split; [split|]; [discriminate | by inversion 1 | discriminate]|].
  unfold get_card_face.
  destruct (image_codes (e0 :: es)) as [arr|y] eqn:Hc.
  - apply image_codes_inv in Hc as [Hall ->].
    pose proof (Forall_inv Hall) as [s0 Hs0]. rewrite Hs0. cbn [getitem res_bind].
    split; [split|].
    + intros H. apply choose_face_raise in H as [? _]. discriminate.
    + intros Hex. exfalso. apply Exists_exists in Hex as (i & Hi & Hn).
      rewrite Forall_forall in Hall. destruct (Hall i Hi) as [s Hs]. congruence.
    + intros x H. apply choose_face_raise in H as [-> Hlen]. right. split; [done|].
      by rewrite length_map in Hlen.
  - apply image_codes_raise in Hc as [-> Hex].
    destruct (src e0); cbn [getitem res_bind];
      (split; [split; [by intros _ | done] | intros x [= <-]; by left]).
Qed.

(** X14. An address returned by [get_card_face] is made of the folder of the
    first entry and the image code of one of the entries. *)
Theorem get_card_face_from_entries (entries : list Img) (back : bool)
    (url : string) :
  get_card_face entries back = Ok (Some url) →
  ∃ e, e ∈ entries ∧ url = image_url (image_folder entries) (code_of e).
Proof.
  destruct entries as [|e0 es]; [discriminate|].
  unfold get_card_face, image_folder.
  destruct (src e0) as [s0|] eqn:Hs0; [|discriminate].
  cbn [getitem res_bind from_option]. unfold id.
  destruct (image_codes (e0 :: es)) as [arr|y] eqn:Hc; [|discriminate].
  apply image_codes_inv in Hc as [_ ->]. cbn [res_bind].
  intros H. apply choose_face_some in H as (a & Ha & ->).
  apply list_elem_of_fmap in Ha as (e & -> & He). by exists e.
Qed.

Lemma get_card_face_from_entries_witness :
  ∃ url e,
    get_card_face three_thumbs true = Ok (Some url)
    ∧ e ∈ three_thumbs
    ∧ url = image_url (image_folder three_thumbs) (code_of e).
Proof.
  destruct (get_card_face three_thumbs true) as [[url|]|] eqn:H;
    [|vm_compute in H; discriminate H..].
  destruct (get_card_face_from_entries three_thumbs true url H) as (e & He & Hu).
  by exists url, e.
Defined.

(** X15. [get_card_face] answers [None] for the front exactly when there is
    no entry, and for the back exactly when there is at most one. *)
Theorem get_card_face_none (entries : list Img) (back : bool) :
  get_card_face entries back = Ok None ↔
  entries = [] ∨ (back = true ∧ ∃ e, entries = [e] ∧ has_src e).
Proof.
  destruct entries as [|e0 es].
  { split; [by left | done]. }
  unfold get_card_face. split.
  - destruct (src e0) as [s0|] eqn:Hs0; [|discriminate].
    cbn [getitem res_bind].
    destruct (image_codes (e0 :: es)) as [arr|y] eqn:Hc; [|discriminate].
    apply image_codes_inv in Hc as [_ ->]. cbn [res_bind].
    intros H. apply choose_face_none in H as [H | [-> H]]; [discriminate|].
    right. split; [done|]. exists e0. split; [|by exists s0].
    destruct es; [done | discriminate].
  - intros [H | [-> (e & [= -> ->] & [s Hs])]]; [discriminate|].
    cbn [image_codes]. rewrite Hs. reflexivity.
Qed.

(** ** [find_key_values] *)

Lemma find_key_values_obj_cons (key : string) (value : Json)
    (rest : list (string * Json)) (k : string) (acc : list Json) :
  find_key_values (JObj ((key, value) :: rest)) k acc
  = find_key_values (JObj rest) k
      (find_key_values value k
         (if decide (key = k) then acc ++ [value] else acc)).
Proof. destruct value; reflexivity. Qed.

Lemma find_key_values_list_cons (item : Json) (rest : list Json) (k : string)
    (acc : list Json) :
  find_key_values (JList (item :: rest)) k acc
  = find_key_values (JList rest) k (find_key_values item k acc).
Proof. destruct item; reflexivity. Qed.

Lemma find_key_values_acc (k : string) (j : Json) :
  ∀ acc, find_key_values j k acc = acc ++ find_key_values j k [].
Proof.
  induction j as [| | | |l IH|fs IH] using Json_nested_ind; intros acc;
    try (cbn; by rewrite app_nil_r).
  - revert acc. induction IH as [|x r Hx _ IHr]; intros acc.
    + cbn. by rewrite app_nil_r.
    + rewrite !find_key_values_list_cons.
      rewrite IHr, Hx, (IHr (find_key_values x k [])). by rewrite app_assoc.
  - revert acc. induction IH as [|[key value] r Hx _ IHr]; intros acc.
    + cbn. by rewrite app_nil_r.
    + rewrite !find_key_values_obj_cons. cbn [snd] in Hx.
      rewrite IHr, Hx.
      rewrite (IHr (find_key_values value k _)), (Hx (if decide _ then _ else _)).
      destruct (decide (key = k)); cbn [app]; by rewrite <- !app_assoc.
Qed.

Lemma find_key_values_obj_app (key : string) (value : Json)
    (rest : list (string * Json)) (k : string) :
  find_key_values (JObj ((key, value) :: rest)) k []
  = (if decide (key = k) then [value] else [])
    ++ find_key_values value k [] ++ find_key_values (JObj rest) k [].
Proof.
  rewrite find_key_values_obj_cons, find_key_values_acc.
  rewrite (find_key_values_acc k value).
  destruct (decide (key = k)); cbn [app]; by rewrite <- ?app_assoc.
Qed.

Lemma find_key_values_list_app (item : Json) (rest : list Json) (k : string) :
  find_key_values (JList (item :: rest)) k []
  = find_key_values item k [] ++ find_key_values (JList rest) k [].
Proof. by rewrite find_key_values_list_cons, find_key_values_acc. Qed.

Lemma at_key_obj_cons (k : string) (v : Json) (key : string) (value : Json)
    (rest : list (string * Json)) :
  at_key k v (JObj ((key, value) :: rest))
  ↔ (key = k ∧ value = v) ∨ at_key k v value ∨ at_key k v (JObj rest).
Proof.
  split.
  - inversion 1 as [fs Hin|fs k' j Hin Hj|]; subst.
    + apply elem_of_cons in Hin as [[= -> ->]|Hin]; [by left|].
      right; right. by apply at_key_here.
    + apply elem_of_cons in Hin as [[= -> ->]|Hin]; [right; by left|].
      right; right. by eapply at_key_field.
  - intros [[-> ->]|[H|H]].
    + apply at_key_here, elem_of_cons. by left.
    + eapply at_key_field; [|exact H]. apply elem_of_cons. by left.
    + inversion H as [fs Hin|fs k' j Hin Hj|]; subst.
      * apply at_key_here, elem_of_cons. by right.
      * eapply at_key_field; [|exact Hj]. apply elem_of_cons. by right.
Qed.

Lemma at_key_list_cons (k : string) (v : Json) (item : Json) (rest : list Json) :
  at_key k v (JList (item :: rest))
  ↔ at_key k v item ∨ at_key k v (JList rest).
Proof.
  split.
  - inversion 1 as [| |l j Hin Hj]; subst.
    apply elem_of_cons in Hin as [->|Hin]; [by left|].
    right. by eapply at_key_item.
  - intros [H|H].
    + eapply at_key_item; [|exact H]. apply elem_of_cons. by left.
    + inversion H as [| |l j Hin Hj]; subst.
      eapply at_key_item; [|exact Hj]. apply elem_of_cons. by right.
Qed.

(** X16. Called with a list of earlier results, [find_key_values] only
    appends to it: the earlier results stay first, in their order, followed
    by what a call with a new list finds.  So the search of a list of values
    is the concatenation of the searches of its parts. *)
Theorem find_key_values_appends (j : Json) (k : string) (results : list Json)
    (l1 l2 : list Json) :
  find_key_values j k results = results ++ find_key_values j k []
  ∧ find_key_values (JList (l1 ++ l2)) k results
    = find_key_values (JList l2) k (find_key_values (JList l1) k results).
Proof.
  split; [apply find_key_values_acc|].
  revert results. induction l1 as [|x l1 IH]; intros results; [reflexivity|].
  cbn [app]. rewrite !find_key_values_list_cons. apply IH.
Qed.

(** X17. [find_key_values] finds exactly the values stored under the key in
    the objects nested anywhere in the JSON value. *)
Theorem find_key_values_complete (j : Json) (k : string) (v : Json) :
  v ∈ find_key_values j k [] ↔ at_key k v j.
Proof.
  induction j as [| | | |l IH|fs IH] using Json_nested_ind;
    try (split; [by intros ?%elem_of_nil | inversion 1]).
  - induction IH as [|x r Hx _ IHr].
    + split; [by intros ?%elem_of_nil|].
      inversion 1 as [| |l j Hin Hj]. by apply elem_of_nil in Hin.
    + rewrite find_key_values_list_app, at_key_list_cons, elem_of_app.
      by rewrite Hx, IHr.
  - induction IH as [|[key value] r Hx _ IHr].
    + split; [by intros ?%elem_of_nil|].
      inversion 1 as [fs Hin|fs k' j Hin Hj|]; by apply elem_of_nil in Hin.
    + rewrite find_key_values_obj_app, at_key_obj_cons, !elem_of_app.
      cbn [snd] in Hx. rewrite Hx, IHr.
      destruct (decide (key = k)) as [->|Hne].
      * rewrite list_elem_of_singleton. intuition congruence.
      * rewrite elem_of_nil. intuition congruence.
Qed.

(** A value found under the key comes before the values found inside it. *)
Example find_key_values_deck :
  find_key_values deck_json "card" []
  = [JObj [("name", JStr "Llanowar Elves"); ("card", JStr "inner")];
     JStr "inner"; JNull].
Proof. reflexivity. Qed.

(** ** [normalize_card_list] *)

Lemma remove_line_ok {D} (blank : string) (cards : list (CardEntry D)) :
  has_line blank cards = true →
  ∃ out, remove_line blank cards = Ok out
    ∧ S (length out) = length cards
    ∧ dicts_of out = dicts_of cards
    ∧ ∀ other, other ≠ blank → has_line other out = has_line other cards.
Proof.
  induction cards as [|[s|d] rest IH]; [discriminate| |]; cbn [has_line remove_line].
  - case_bool_decide as Hs.
    + intros _. exists rest. split_and!; try done.
      intros other Ho. subst. cbn [has_line]. by rewrite bool_decide_eq_false_2.
    + cbn [orb]. intros (out & -> & Hlen & Hd & Hh)%IH. cbn [res_bind].
      exists (Line s :: out). split_and!; [done|cbn; lia|done|].
      intros other Ho. cbn [has_line]. by rewrite Hh.
  - intros (out & -> & Hlen & Hd & Hh)%IH. cbn [res_bind].
    exists (Dict d :: out). split_and!; [done|cbn; lia| |done].
    unfold dicts_of in *. cbn. by rewrite Hd.
Qed.

Lemma split_not_nil (sep : ascii) (s : string) : Text.split sep s ≠ [].
Proof.
  destruct s as [|ch s]; [done|]. cbn [Text.split].
  destruct (decide (ch = sep)); [done|]. by destruct (Text.split sep s).
Qed.

Lemma normalize_line_total (c : string) : ∃ c', normalize_line c = Ok c'.
Proof.
  unfold normalize_line.
  destruct (Text.split Text.blank _) as [|t0 ts] eqn:H;
    [by apply split_not_nil in H|].
  cbn [index lookup list_lookup res_bind]. destruct (_ && _); by eexists.
Qed.

Lemma normalize_entries_ok {D} (cards : list (CardEntry D)) :
  ∃ out, normalize_entries cards = Ok out
    ∧ length out = length cards ∧ dicts_of out = dicts_of cards.
Proof.
  induction cards as [|[s|d] rest (out & IH & Hlen & Hd)]; cbn [normalize_entries].
  - by exists [].
  - destruct (normalize_line_total s) as [c' ->]. rewrite IH. cbn [res_bind].
    exists (Line c' :: out). split_and!; [done|cbn; lia|done].
  - rewrite IH. cbn [res_bind].
    exists (Dict d :: out). split_and!; [done|cbn; lia|].
    unfold dicts_of in *. cbn. by rewrite Hd.
Qed.

(** X18. [normalize_card_list] never raises; it takes away at most the
    first [""] and the first [" "] entry, keeps one entry for every other
    one, and keeps the card records as they are and in their order. *)
Theorem normalize_card_list_shape {D} (cards : list (CardEntry D)) :
  ∃ out, normalize_card_list cards = Ok out
    ∧ length out + blanks_removed cards = length cards
    ∧ dicts_of out = dicts_of cards.
Proof.
  unfold normalize_card_list, blanks_removed.
  destruct (has_line "" cards) eqn:H1.
  - destruct (remove_line_ok "" cards H1) as (c1 & -> & Hl1 & Hd1 & Hh1).
    cbn [res_bind]. rewrite <- (Hh1 " ") by done.
    destruct (has_line " " c1) eqn:H2.
    + destruct (remove_line_ok " " c1 H2) as (c2 & -> & Hl2 & Hd2 & _).
      cbn [res_bind]. destruct (normalize_entries_ok c2) as (out & -> & Hl & Hd).
      exists out. split_and!; [done|lia|congruence].
    + cbn [res_bind]. destruct (normalize_entries_ok c1) as (out & -> & Hl & Hd).
      exists out. split_and!; [done|lia|congruence].
  - cbn [res_bind]. destruct (has_line " " cards) eqn:H2.
    + destruct (remove_line_ok " " cards H2) as (c2 & -> & Hl2 & Hd2 & _).
      cbn [res_bind]. destruct (normalize_entries_ok c2) as (out & -> & Hl & Hd).
      exists out. split_and!; [done|lia|congruence].
    + cbn [res_bind]. destruct (normalize_entries_ok cards) as (out & -> & Hl & Hd).
      exists out. split_and!; [done|lia|congruence].
Qed.

Lemma digit_not_space (ch : ascii) : Py.isdigit ch = true → Text.is_space ch = false.
Proof. destruct ch as [[] [] [] [] [] [] [] []]; vm_compute; congruence. Qed.

Lemma digit_not_blank (ch : ascii) : Py.isdigit ch = true → ch ≠ Text.blank.
Proof. intros H ->. vm_compute in H. discriminate H. Qed.

Lemma digit_not_newline (ch : ascii) : Py.isdigit ch = true → ch ≠ "010"%char.
Proof. intros H ->. vm_compute in H. discriminate H. Qed.

Lemma rstrip_app (a b : string) :
  Text.rstrip (a +:+ b)
  = match Text.rstrip b with
    | EmptyString => Text.rstrip a
    | String _ _ => a +:+ Text.rstrip b
    end.
Proof.
  induction a as [|c a IH].
  - rewrite append_nil_l. by destruct (Text.rstrip b).
  - rewrite append_cons. cbn [Text.rstrip]. rewrite IH.
    destruct (Text.rstrip b) as [|c' r]; [done|].
    rewrite append_cons. destruct a; [by rewrite append_nil_l | by rewrite append_cons].
Qed.

Lemma rstrip_digits (q : string) :
  Text.all_digit_chars q = true → Text.rstrip q = q.
Proof.
  induction q as [|d q IH]; [done|]. cbn [Text.all_digit_chars Text.rstrip].
  intros [Hd Hq]%andb_true_iff. rewrite (IH Hq).
  destruct q; [|done]. by rewrite (digit_not_space d Hd).
Qed.

Lemma contains_char_app (a : ascii) (x y : string) :
  Py.contains (String a EmptyString) (x +:+ y)
  = Py.contains (String a EmptyString) x || Py.contains (String a EmptyString) y.
Proof.
  induction x as [|c x IH].
  - rewrite append_nil_l. by destruct y.
  - rewrite append_cons. cbn [Py.contains String.prefix]. rewrite IH.
    destruct (ascii_dec a c); [|apply orb_assoc].
    assert (Hp : ∀ s, String.prefix "" s = true) by (by intros []).
    by rewrite !Hp.
Qed.

Lemma contains_char_digits (a : ascii) (q : string) :
  (∀ d, Py.isdigit d = true → d ≠ a) →
  Text.all_digit_chars q = true →
  Py.contains (String a EmptyString) q = false.
Proof.
  intros Ha. induction q as [|d q IH]; [done|].
  cbn [Text.all_digit_chars Py.contains String.prefix].
  intros [Hd Hq]%andb_true_iff. rewrite (IH Hq).
  destruct (ascii_dec a d) as [->|]; [|done]. by destruct (Ha d Hd).
Qed.

Lemma split_digits_app (q rest : string) :
  Text.all_digit_chars q = true →
  Text.split Text.blank (q +:+ String Text.blank rest)
  = q :: Text.split Text.blank rest.
Proof.
  induction q as [|d q IH]; cbn [Text.all_digit_chars].
  - intros _. rewrite append_nil_l. cbn [Text.split].
    by destruct (decide (Text.blank = Text.blank)).
  - intros [Hd Hq]%andb_true_iff. rewrite append_cons. cbn [Text.split].
    destruct (decide (d = Text.blank)) as [He|_]; [by apply digit_not_blank in Hd|].
    by rewrite (IH Hq).
Qed.

Lemma split_digits (q : string) :
  Text.all_digit_chars q = true → Text.split Text.blank q = [q].
Proof.
  induction q as [|d q IH]; cbn [Text.all_digit_chars]; [done|].
  intros [Hd Hq]%andb_true_iff. cbn [Text.split].
  destruct (decide (d = Text.blank)) as [He|_]; [by apply digit_not_blank in Hd|].
  by rewrite (IH Hq).
Qed.

Lemma join_cons_char (sep : string) (c : ascii) (t : string) (ts : list string) :
  Text.join sep (String c t :: ts) = String c (Text.join sep (t :: ts)).
Proof. destruct ts; [done|]. cbn [Text.join]. by rewrite append_cons. Qed.

(** Joining what [split] gives, with the separator, gives the text back. *)
Lemma join_split (sep : ascii) (s : string) :
  Text.join (String sep EmptyString) (Text.split sep s) = s.
Proof.
  induction s as [|c s IH]; [done|]. cbn [Text.split].
  destruct (decide (c = sep)) as [->|Hc].
  - destruct (Text.split sep s) as [|t ts] eqn:Hs; [by apply split_not_nil in Hs|].
    change (Text.join (String sep "") ("" :: t :: ts))
      with ("" +:+ String sep "" +:+ Text.join (String sep "") (t :: ts)).
    rewrite IH. by rewrite append_nil_l, append_cons, append_nil_l.
  - destruct (Text.split sep s) as [|t ts] eqn:Hs; [by apply split_not_nil in Hs|].
    by rewrite join_cons_char, IH.
Qed.

Lemma lstrip_digits (q rest : string) :
  Text.isdigit q = true → Text.lstrip (q +:+ rest) = q +:+ rest.
Proof.
  destruct q as [|d q]; [discriminate|]. unfold Text.isdigit.
  cbn [Py.truthy andb Text.all_digit_chars]. intros [Hd _]%andb_true_iff.
  rewrite append_cons. cbn [Text.lstrip]. by rewrite (digit_not_space d Hd).
Qed.

(** X19. A count of one to three digits in front of a card name is taken
    away with the blank after it: ["4 Lightning Bolt"] becomes
    ["Lightning Bolt"], and a line with nothing after the count becomes the
    empty name. *)
Theorem normalize_line_drops_count (q n : string) :
  Text.isdigit q = true →
  String.length q < 4 →
  Text.rstrip n = n →
  Py.contains Text.newline n = false →
  normalize_line (q +:+ " " +:+ n) = Ok n.
Proof.
  intros Hq Hlen Hn Hnl.
  assert (Hall : Text.all_digit_chars q = true).
  { unfold Text.isdigit in Hq. by apply andb_true_iff in Hq as [_ ?]. }
  assert (Hqnl : Py.contains Text.newline q = false).
  { apply contains_char_digits; [apply digit_not_newline | done]. }
  assert (Hlt : (String.length q <? 4) = true) by by apply Nat.ltb_lt.
  unfold normalize_line, Text.strip. rewrite lstrip_digits by done.
  destruct n as [|c n'] eqn:En.
  - (* nothing after the count *)
    rewrite rstrip_app. replace (Text.rstrip (" " +:+ "")) with "" by reflexivity.
    rewrite (rstrip_digits q Hall), (replace_absent _ _ _ _ Hqnl).
    rewrite (split_digits q Hall). cbn [index lookup list_lookup res_bind].
    rewrite Hlt, Hq. reflexivity.
  - assert (Hr : Text.rstrip (" " +:+ String c n')
                 = String Text.blank (String c n')).
    { rewrite rstrip_app, Hn. reflexivity. }
    rewrite rstrip_app, Hr. cbv iota. unfold Text.newline in *.
    rewrite replace_absent.
    + rewrite (split_digits_app q _ Hall). cbn [index lookup list_lookup res_bind].
      rewrite Hlt, Hq. cbn [drop]. f_equal. apply (join_split Text.blank).
    + change (String Text.blank (String c n')) with (" " +:+ String c n').
      rewrite !contains_char_app, Hqnl, Hnl. reflexivity.
Qed.

Lemma normalize_line_drops_count_witness :
  normalize_line ("4" +:+ " " +:+ "Lightning Bolt") = Ok "Lightning Bolt".
Proof.
  apply normalize_line_drops_count;
    [reflexivity | cbn; lia | reflexivity | reflexivity].
Defined.

(** ** [get_list_from_link] *)

Lemma navigate_app (keys1 keys2 : list string) (cards : Json) :
  navigate (keys1 ++ keys2) cards
  = let? reached := navigate keys1 cards in navigate keys2 reached.
Proof.
  revert cards. induction keys1 as [|k keys1 IH]; intros cards; [done|].
  cbn [app navigate]. destruct cards; first [reflexivity | apply IH].
Qed.

Lemma navigate_empty (keys : list string) :
  navigate keys (JObj []) = Ok (JObj []).
Proof. induction keys as [|k keys IH]; [done|]. exact IH. Qed.

(** X20. When a key of the path is missing from the object reached so far,
    [get_list_from_link] answers the empty list, whatever keys follow. *)
Theorem get_list_from_link_missing_key (fetch_json : string → option Json)
    (command : Command) (url : string) (cards : Json)
    (keys1 keys2 : list string) (k : string) (fs : list (string * Json)) :
  cmd_url command = Some url →
  fetch_json url = Some cards →
  cmd_keys command = Some (keys1 ++ k :: keys2) →
  navigate keys1 cards = Ok (JObj fs) →
  field k fs = None →
  get_list_from_link fetch_json command = Ok [].
Proof.
  intros Hu Hf Hk Hn Hm. unfold get_list_from_link.
  rewrite Hu, Hk. cbn [getitem res_bind from_option]. unfold id. rewrite Hf.
  rewrite navigate_app, Hn. cbn [res_bind navigate]. rewrite Hm.
  cbn [from_option]. by rewrite navigate_empty.
Qed.

Lemma get_list_from_link_missing_key_witness :
  get_list_from_link (λ _, Some set_json) (set_command ["data"; "tokens"; "list"])
  = Ok [].
Proof.
  apply (get_list_from_link_missing_key _ _ "https://example.org/set" set_json
           ["data"] ["list"] "tokens"
           [("cards", JList [JStr "Forest"; JStr "Island"])]);
    reflexivity.
Defined.

(** X21. When the path reaches a value that is not an object and keys are
    left, [get_list_from_link] raises [AttributeError]: the handler around
    the request does not cover the walk. *)
Theorem get_list_from_link_not_object (fetch_json : string → option Json)
    (command : Command) (url : string) (cards reached : Json)
    (keys1 keys2 : list string) (k : string) :
  cmd_url command = Some url →
  fetch_json url = Some cards →
  cmd_keys command = Some (keys1 ++ k :: keys2) →
  navigate keys1 cards = Ok reached →
  ¬ is_object reached →
  get_list_from_link fetch_json command = Raise AttributeError.
Proof.
  intros Hu Hf Hk Hn Hno. unfold get_list_from_link.
  rewrite Hu, Hk. cbn [getitem res_bind from_option]. unfold id. rewrite Hf.
  rewrite navigate_app, Hn. cbn [res_bind navigate].
  destruct reached; try reflexivity. by destruct Hno.
Qed.

Lemma get_list_from_link_not_object_witness :
  get_list_from_link (λ _, Some set_json) (set_command ["data"; "cards"; "list"])
  = Raise AttributeError.
Proof.
  apply (get_list_from_link_not_object _ _ "https://example.org/set" set_json
           (JList [JStr "Forest"; JStr "Island"]) ["data"; "cards"] [] "list");
    try reflexivity.
  intros H. exact H.
Defined.
